(** * EPMA map ingestion and rendering (epma.py): a shallow embedding

    The two functions of [epma.py], [read_data] and [map_series], are
    translated statement by statement.  Python dictionaries are kept as
    insertion-ordered association lists, since the order of the keys
    decides both the colormap cycle and the placement in the figure grid.
    Python exceptions are the first constructor of a result type, and the
    plotting library's global state (open figures, current figure, files
    written) is threaded explicitly through a small state-and-error monad.
    Pixel sizes, mesh coordinates and colour scales are binary64 floats,
    computed with the operations of the machine as Python computes them. *)

From Stdlib Require Import List String Ascii ZArith Bool Lia Arith Floats.
Import ListNotations.
Local Open Scope string_scope.
Local Open Scope list_scope.
Set Warnings "-inexact-float".

(** ** Python values *)

Inductive pyerr : Type :=
| IndexError | KeyError | ZeroDivisionError | TypeError | ValueError | OSError
| OverflowError.

Inductive result (A : Type) : Type :=
| Raise : pyerr -> result A
| Ok : A -> result A.
Arguments Raise {A} _.
Arguments Ok {A} _.

Definition rbind {A B} (r : result A) (k : A -> result B) : result B :=
  match r with Raise e => Raise e | Ok a => k a end.

Notation "'try' x <- c1 ; c2" := (rbind c1 (fun x => c2))
  (at level 61, x name, c1 at next level, right associativity).

(** [l[k]] for a Python list and a possibly negative index. *)
Definition py_index {A} (l : list A) (k : Z) : result A :=
  let n := Z.of_nat (List.length l) in
  let k' := if (k <? 0)%Z then (k + n)%Z else k in
  if ((0 <=? k') && (k' <? n))%Z%bool then
    match nth_error l (Z.to_nat k') with
    | Some a => Ok a
    | None => Raise IndexError
    end
  else Raise IndexError.

(** [s.split(sep)] for a one-character separator: never empty. *)
Fixpoint str_split (sep : ascii) (s : string) : list string :=
  match s with
  | EmptyString => [EmptyString]
  | String c s' =>
      if Ascii.eqb c sep then EmptyString :: str_split sep s'
      else match str_split sep s' with
           | [] => [String c EmptyString]
           | w :: ws => String c w :: ws
           end
  end.

Definition backslash : ascii := ascii_of_nat 92.
Definition dot : ascii := ascii_of_nat 46.
Definition underscore : ascii := ascii_of_nat 95.

(** [x in l] for a list of strings. *)
Definition str_in (x : string) (l : list string) : bool :=
  existsb (String.eqb x) l.

(** ** Floating-point numbers

    A Python [float] is a primitive binary64 float.  [Z2float] is
    [float(z)] for an integer: the nearest float. *)

Definition Z2float (z : Z) : float :=
  SF2Prim (binary_normalize prec emax z 0 false).

Definition nat2float (n : nat) : float := Z2float (Z.of_nat n).

(** [math.ceil]: not a number, infinite, or an integer. *)
Inductive ceiling : Type :=
| CeilNaN
| CeilInf
| CeilZ (z : Z).

Definition float_ceil (x : float) : ceiling :=
  match Prim2SF x with
  | S754_nan => CeilNaN
  | S754_infinity _ => CeilInf
  | S754_zero _ => CeilZ 0
  | S754_finite s m e =>
      let num := if s then Z.neg m else Z.pos m in
      CeilZ (if (0 <=? e)%Z then num * 2 ^ e
             else - ((- num) / 2 ^ (- e)))%Z
  end.

(** [max(a, b)] of two floats. *)
Definition float_max (a b : float) : float :=
  if (a <? b)%float then b else a.

(** ** Dictionaries: insertion-ordered, keys unique *)

Module Dict.
Section Dict.
Context {V : Type}.

Definition t := list (string * V).

Definition keys (d : t) : list string := map fst d.
Definition values (d : t) : list V := map snd d.
Definition items (d : t) : list (string * V) := d.

Fixpoint get (d : t) (k : string) : result V :=
  match d with
  | [] => Raise KeyError
  | (k', v) :: d' => if String.eqb k k' then Ok v else get d' k
  end.

(** [d[k] = v]: an existing key keeps its position, a new one goes last. *)
Fixpoint set (d : t) (k : string) (v : V) : t :=
  match d with
  | [] => [(k, v)]
  | (k', v') :: d' =>
      if String.eqb k k' then (k', v) :: d' else (k', v') :: set d' k v
  end.

Definition mem (k : string) (d : t) : bool := str_in k (keys d).
End Dict.
Arguments t : clear implicits.
End Dict.

(** ** Arrays

    A two-dimensional array of counts with its shape.  Counts are
    integers, as the instrument writes them; the library holds them as
    floats of the same value ([Z2float] below).  A well-formed array has
    [nrows] rows of [ncols] cells each. *)

Record ndarray : Type := mk_ndarray {
  nrows : nat;
  ncols : nat;
  cells : list (list Z)
}.

Definition shape (a : ndarray) : nat * nat := (nrows a, ncols a).

Definition wf_array (a : ndarray) : Prop :=
  List.length (cells a) = nrows a
  /\ Forall (fun r => List.length r = ncols a) (cells a).

(** ** Ingestion: [read_data] *)

(** What the function sees of the disk: the result of [glob.glob] on a
    pattern and of [np.loadtxt] on a file name.  A file that is read is
    taken to hold a table of at least two lines of at least two numbers,
    which [np.loadtxt] returns as a two-dimensional array. *)
Record filesystem : Type := {
  glob : string -> list string;
  loadtxt : string -> result ndarray
}.

(** [x.split('.')[-2]], the element label of a metadata file name. *)
Definition pm_label (x : string) : result string :=
  py_index (str_split dot x) (-2).

(** [x.split('.')[-3].split("\\")[-1]], its index token. *)
Definition pm_index (x : string) : result string :=
  try stem <- py_index (str_split dot x) (-3);
  py_index (str_split backslash stem) (-1).

(** The dictionary comprehension of line 36: the filter is evaluated
    first, then key and value. *)
Fixpoint elements_of (exclude : list string) (files : list string)
         (acc : Dict.t string) : result (Dict.t string) :=
  match files with
  | [] => Ok acc
  | x :: rest =>
      try lab <- pm_label x;
      if negb (str_in lab exclude) then
        try idx <- pm_index x;
        try lab' <- pm_label x;
        elements_of exclude rest (Dict.set acc idx lab')
      else elements_of exclude rest acc
  end.

(** [file_name.split("\\")[-1].split("_")[0]]. *)
Definition map_index (file_name : string) : result string :=
  try base <- py_index (str_split backslash file_name) (-1);
  py_index (str_split underscore base) 0.

(** The loop of lines 39-43; in line 43 the file is read before the label
    is looked up. *)
Fixpoint load_maps (fs : filesystem) (elements : Dict.t string)
         (maps : list string) (datas : Dict.t ndarray)
  : result (Dict.t ndarray) :=
  match maps with
  | [] => Ok datas
  | file_name :: rest =>
      try index <- map_index file_name;
      if negb (str_in index (Dict.keys elements)) then
        load_maps fs elements rest datas
      else
        try arr <- loadtxt fs file_name;
        try lab <- Dict.get elements index;
        load_maps fs elements rest (Dict.set datas lab arr)
  end.

Definition read_data (fs : filesystem) (file_location : string)
           (exclude : option (list string)) : result (Dict.t ndarray) :=
  let exclude := match exclude with None => [] | Some e => e end in
  let maps := glob fs (file_location ++ "*.txt") in
  let elements := glob fs (file_location ++ "*.pm") in
  try elements <- elements_of exclude elements [];
  let datas := [] in
  load_maps fs elements maps datas.

(** ** Array operations used by the renderer *)

Fixpoint zip_cons (r : list Z) (m : list (list Z)) : list (list Z) :=
  match r, m with
  | x :: r', c :: m' => (x :: c) :: zip_cons r' m'
  | _, _ => []
  end.

Fixpoint transpose (w : nat) (m : list (list Z)) : list (list Z) :=
  match m with
  | [] => repeat [] w
  | r :: m' => zip_cons r (transpose w m')
  end.

(** [ndimage.rotate(values, -90)]: a quarter turn, taken as exact (cell
    [(i, j)] of the result is cell [(H-1-j, i)] of the argument); the
    spline interpolation of the library is not modelled. *)
Definition rotate_m90 (values : ndarray) : ndarray :=
  {| nrows := ncols values;
     ncols := nrows values;
     cells := transpose (ncols values) (rev (cells values)) |}.

Definition list_min (l : list Z) : option Z :=
  match l with
  | [] => None
  | x :: l' => Some (fold_left Z.min l' x)
  end.

Definition list_max (l : list Z) : option Z :=
  match l with
  | [] => None
  | x :: l' => Some (fold_left Z.max l' x)
  end.

Definition amin (a : ndarray) : option Z := list_min (List.concat (cells a)).
Definition amax (a : ndarray) : option Z := list_max (List.concat (cells a)).

(** The number of points of [np.arange(0, n * step, step)] for a Python
    float [step]: the ceiling of [(n * step) / step], computed in floats.
    The quotient need not be [n]: with [n = 3] and [step = 0.1] the
    product is 0.30000000000000004 and the range has four points.  A zero
    step raises in the division; a quotient that is not a number or not
    in the range of an index raises in the conversion. *)
Definition arange_length (n : nat) (step : float) : result nat :=
  let stop := (nat2float n * step)%float in
  if (step =? 0)%float then Raise ZeroDivisionError
  else
    match float_ceil (stop / step) with
    | CeilNaN => Raise ValueError
    | CeilInf => Raise OverflowError
    | CeilZ len =>
        if ((len <? - 2 ^ 63) || (2 ^ 63 - 1 <? len))%Z
        then Raise OverflowError
        else Ok (Z.to_nat len)
    end.

(** [np.arange(0, n * step, step)]: the points [0 + k * step]. *)
Definition arange (n : nat) (step : float) : result (list float) :=
  try len <- arange_length n step;
  Ok (map (fun k => (0 + nat2float k * step)%float) (seq 0 len)).

(** The coordinate mesh: [np.meshgrid] followed by [np.flip(y_map, axis=0)]. *)
Record mesh : Type := {
  mesh_shape : nat * nat;
  x_map : list (list float);
  y_map : list (list float)
}.

Definition meshgrid (xs ys : list float) : mesh :=
  {| mesh_shape := (List.length ys, List.length xs);
     x_map := repeat xs (List.length ys);
     y_map := map (fun y => repeat y (List.length xs)) ys |}.

Definition flip_y (m : mesh) : mesh :=
  {| mesh_shape := mesh_shape m; x_map := x_map m; y_map := rev (y_map m) |}.

(** ** The plotting library

    Figures live in pyplot's registry, newest activation first: the head is
    the current figure.  A figure or axes handle is its number; the source
    never touches a figure after closing it. *)

Definition kwargs : Type := list (string * string).

Record quadmesh : Type := {
  qm_mesh : mesh;
  qm_data : ndarray;
  qm_cmap : string;
  qm_clim : option float * option float;
  qm_kwargs : kwargs
}.

Record colorbar : Type := {
  cb_label : string;
  cb_bounds : option float * option float;
  cb_use_gridspec : bool
}.

(** A grid layout, and one cell of it: the results of
    [fig.add_gridspec(rows, columns, **kw)] and of [gs[i, j]]. *)
Record gridspec : Type := {
  gs_rows : Z;
  gs_columns : Z;
  gs_kwargs : kwargs
}.

Record subplotspec : Type := {
  ss_gridspec : gridspec;
  ss_row : Z;
  ss_column : Z
}.

Record axes : Type := {
  ax_cell : option subplotspec;
  ax_image : option quadmesh;
  ax_scaled : bool;
  ax_title : option string;
  ax_xlabel : option string;
  ax_ylabel : option string;
  ax_colorbar : option colorbar
}.

Record figure : Type := {
  fig_kwargs : kwargs;
  fig_axes : list (nat * axes);
  fig_tight : bool
}.

Record pyplot : Type := {
  colormaps : list string;
  figs : list (nat * figure);
  saved : list (string * Z * figure)
}.

Definition M (A : Type) : Type := pyplot -> result A * pyplot.

Definition ret {A} (a : A) : M A := fun s => (Ok a, s).
Definition throw {A} (e : pyerr) : M A := fun s => (Raise e, s).
Definition bind {A B} (m : M A) (k : A -> M B) : M B :=
  fun s => match m s with
           | (Raise e, s') => (Raise e, s')
           | (Ok a, s') => k a s'
           end.
Definition lift {A} (r : result A) : M A := fun s => (r, s).

Notation "'do' x <- c1 ; c2" := (bind c1 (fun x => c2))
  (at level 61, x name, c1 at next level, right associativity).
Notation "c1 ;; c2" := (bind c1 (fun _ => c2))
  (at level 61, right associativity).

Section Store.
Context {A : Type}.

Fixpoint lookup (st : list (nat * A)) (h : nat) : option A :=
  match st with
  | [] => None
  | (n, a) :: st' => if Nat.eqb h n then Some a else lookup st' h
  end.

Fixpoint update (st : list (nat * A)) (h : nat) (f : A -> A) : list (nat * A) :=
  match st with
  | [] => []
  | (n, a) :: st' =>
      if Nat.eqb h n then (n, f a) :: st' else (n, a) :: update st' h f
  end.

Definition next_num (st : list (nat * A)) : nat :=
  S (fold_right Nat.max 0 (map fst st)).
End Store.

Definition new_axes (cell : option subplotspec) : axes :=
  {| ax_cell := cell; ax_image := None; ax_scaled := false; ax_title := None;
     ax_xlabel := None; ax_ylabel := None; ax_colorbar := None |}.

Definition with_figs (s : pyplot) (fs : list (nat * figure)) : pyplot :=
  {| colormaps := colormaps s; figs := fs; saved := saved s |}.

Definition on_fig (fig : nat) (f : figure -> figure) : M unit :=
  fun s => (Ok tt, with_figs s (update (figs s) fig f)).

Definition map_axes (f : list (nat * axes) -> list (nat * axes))
           (g : figure) : figure :=
  {| fig_kwargs := fig_kwargs g; fig_axes := f (fig_axes g);
     fig_tight := fig_tight g |}.

Definition mark_tight (g : figure) : figure :=
  {| fig_kwargs := fig_kwargs g; fig_axes := fig_axes g; fig_tight := true |}.

Definition new_figure (kw : kwargs) : figure :=
  {| fig_kwargs := kw; fig_axes := []; fig_tight := false |}.

Definition on_axes (ax : nat * nat) (f : axes -> axes) : M unit :=
  on_fig (fst ax) (map_axes (fun axs => update axs (snd ax) f)).

(** [plt.figure] with keyword arguments [kw]: a new figure, made current. *)
Definition plt_figure (kw : kwargs) : M nat :=
  fun s =>
    let num := next_num (figs s) in
    (Ok num, with_figs s ((num, new_figure kw) :: figs s)).

(** [fig.add_subplot(cell)] *)
Definition add_subplot (fig : nat) (cell : option subplotspec)
  : M (nat * nat) :=
  fun s =>
    let id := match lookup (figs s) fig with
              | Some g => List.length (fig_axes g)
              | None => 0%nat
              end in
    (Ok (fig, id),
     with_figs s (update (figs s) fig
                         (map_axes (fun axs => (id, new_axes cell) :: axs)))).

(** [plt.subplots()]: a new current figure with a single axes. *)
Definition plt_subplots : M (nat * (nat * nat)) :=
  do fig <- plt_figure [];
  do ax <- add_subplot fig None;
  ret (fig, ax).

(** [fig.add_gridspec(rows, columns, **kw)]: both counts must be positive. *)
Definition add_gridspec (fig : nat) (rows columns : Z) (kw : kwargs)
  : M gridspec :=
  if ((rows <=? 0) || (columns <=? 0))%Z then throw ValueError
  else ret {| gs_rows := rows; gs_columns := columns; gs_kwargs := kw |}.

(** [gs[i, j]]: each index is normalised like a list index. *)
Definition gs_index (size key : Z) : result Z :=
  let key' := if (key <? 0)%Z then (key + size)%Z else key in
  if ((0 <=? key') && (key' <? size))%Z%bool then Ok key'
  else Raise IndexError.

Definition gs_getitem (gs : gridspec) (i j : Z) : result subplotspec :=
  try r <- gs_index (gs_rows gs) i;
  try c <- gs_index (gs_columns gs) j;
  Ok {| ss_gridspec := gs; ss_row := r; ss_column := c |}.

(** The image made by [pcolormesh(x_map, y_map, C, cmap=..., vmin=...,
    vmax=..., shading='nearest', **kw)]: the coordinate arrays must have
    the shape of [C]; the colormap must be registered; bounds not given are
    taken from the data. *)
Definition quadmesh_for (registry : list string) (xy : mesh) (C : ndarray)
           (cmap : string) (vmin vmax : option float) (kw : kwargs)
  : result quadmesh :=
  if negb ((Nat.eqb (fst (shape C)) (fst (mesh_shape xy)))
           && (Nat.eqb (snd (shape C)) (snd (mesh_shape xy))))
  then Raise TypeError
  else if negb (str_in cmap registry) then Raise ValueError
  else
    let lo := match vmin with
              | Some v => Some v
              | None => option_map Z2float (amin C)
              end in
    let hi := match vmax with
              | Some v => Some v
              | None => option_map Z2float (amax C)
              end in
    Ok {| qm_mesh := xy; qm_data := C; qm_cmap := cmap;
          qm_clim := (lo, hi); qm_kwargs := kw |}.

Definition set_image (im : quadmesh) (a : axes) : axes :=
  {| ax_cell := ax_cell a; ax_image := Some im;
     ax_scaled := ax_scaled a; ax_title := ax_title a;
     ax_xlabel := ax_xlabel a; ax_ylabel := ax_ylabel a;
     ax_colorbar := ax_colorbar a |}.

Definition mark_scaled (a : axes) : axes :=
  {| ax_cell := ax_cell a; ax_image := ax_image a; ax_scaled := true;
     ax_title := ax_title a; ax_xlabel := ax_xlabel a;
     ax_ylabel := ax_ylabel a; ax_colorbar := ax_colorbar a |}.

Definition put_title (t : string) (a : axes) : axes :=
  {| ax_cell := ax_cell a; ax_image := ax_image a; ax_scaled := ax_scaled a;
     ax_title := Some t; ax_xlabel := ax_xlabel a;
     ax_ylabel := ax_ylabel a; ax_colorbar := ax_colorbar a |}.

Definition put_xlabel (t : string) (a : axes) : axes :=
  {| ax_cell := ax_cell a; ax_image := ax_image a; ax_scaled := ax_scaled a;
     ax_title := ax_title a; ax_xlabel := Some t;
     ax_ylabel := ax_ylabel a; ax_colorbar := ax_colorbar a |}.

Definition put_ylabel (t : string) (a : axes) : axes :=
  {| ax_cell := ax_cell a; ax_image := ax_image a; ax_scaled := ax_scaled a;
     ax_title := ax_title a; ax_xlabel := ax_xlabel a;
     ax_ylabel := Some t; ax_colorbar := ax_colorbar a |}.

(** [np.finfo(float).tiny], the smallest positive normal float. *)
Definition float_tiny : float := 0x1p-1022%float.

(** [matplotlib.transforms.nonsingular(vmin, vmax, expander=0.1)]: the
    pair in increasing order, widened when its ends are equal or nearly
    so, and replaced when an end is not finite. *)
Definition nonsingular (vmin vmax : float) : float * float :=
  let expander := 0.1%float in
  let tiny := 1e-15%float in
  if negb (is_finite vmin) || negb (is_finite vmax)
  then ((- expander)%float, expander)
  else
    let '(lo, hi) :=
      if (vmax <? vmin)%float then (vmax, vmin) else (vmin, vmax) in
    let maxabsvalue := float_max (abs lo) (abs hi) in
    if (maxabsvalue <? (1e6 / tiny) * float_tiny)%float
    then ((- expander)%float, expander)
    else if (hi - lo <=? maxabsvalue * tiny)%float then
           if ((hi =? 0)%float && (lo =? 0)%float)%bool
           then ((- expander)%float, expander)
           else ((lo - expander * abs lo)%float,
                 (hi + expander * abs hi)%float)
         else (lo, hi).

(** The scale a colorbar gives to the image it is made for: a scale
    that is not set is taken as (0, 1), and the result is made
    non-singular. *)
Definition colorbar_limits (clim : option float * option float)
  : float * float :=
  match clim with
  | (Some lo, Some hi) => nonsingular lo hi
  | _ => nonsingular 0 1
  end.

Definition scale_of (clim : option float * option float)
  : option float * option float :=
  (Some (fst (colorbar_limits clim)), Some (snd (colorbar_limits clim))).

Definition set_clim (clim : option float * option float) (q : quadmesh)
  : quadmesh :=
  {| qm_mesh := qm_mesh q; qm_data := qm_data q; qm_cmap := qm_cmap q;
     qm_clim := clim; qm_kwargs := qm_kwargs q |}.

(** The bar shows the colour scale of the image it is made for, after
    making it non-singular; the image takes the new scale, as bar and
    image share it. *)
Definition put_colorbar (lbl : string) (use_gs : bool) (a : axes) : axes :=
  {| ax_cell := ax_cell a;
     ax_image := match ax_image a with
                 | Some q => Some (set_clim (scale_of (qm_clim q)) q)
                 | None => None
                 end;
     ax_scaled := ax_scaled a;
     ax_title := ax_title a; ax_xlabel := ax_xlabel a;
     ax_ylabel := ax_ylabel a;
     ax_colorbar :=
       Some {| cb_label := lbl;
               cb_bounds := match ax_image a with
                            | Some q => scale_of (qm_clim q)
                            | None => (None, None)
                            end;
               cb_use_gridspec := use_gs |} |}.

(** [ax.pcolormesh(...)]: the image is attached to the axes. *)
Definition pcolormesh (ax : nat * nat) (xy : mesh) (C : ndarray)
           (cmap : string) (vmin vmax : option float) (kw : kwargs)
  : M (nat * nat) :=
  fun s =>
    match quadmesh_for (colormaps s) xy C cmap vmin vmax kw with
    | Raise e => (Raise e, s)
    | Ok im => (Ok ax, snd (on_axes ax (set_image im) s))
    end.

Definition axis_scaled (ax : nat * nat) : M unit := on_axes ax mark_scaled.
Definition set_title (ax : nat * nat) (t : string) : M unit :=
  on_axes ax (put_title t).
Definition set_xlabel (ax : nat * nat) (t : string) : M unit :=
  on_axes ax (put_xlabel t).
Definition set_ylabel (ax : nat * nat) (t : string) : M unit :=
  on_axes ax (put_ylabel t).

(** [fig.colorbar(im, label=..., use_gridspec=...)] *)
Definition fig_colorbar (im : nat * nat) (lbl : string) (use_gs : bool)
  : M unit :=
  on_axes im (put_colorbar lbl use_gs).

(** [plt.gcf()]: the current figure, made on demand. *)
Definition plt_gcf : M nat :=
  fun s => match figs s with
           | (num, _) :: _ => (Ok num, s)
           | [] => plt_figure [] s
           end.

Definition plt_tight_layout : M unit :=
  do fig <- plt_gcf;
  on_fig fig mark_tight.

(** *** Saving a figure

    [savefig] takes the format of the file from its name, as
    [os.path.splitext] of a POSIX system reads it: the part after the last
    dot of the last component of the path, leading dots of the component
    set aside.  A name without format gets the default one, appended
    after its trailing dots are removed.  A format the library does not
    know raises [ValueError] and nothing is written.  The directory of
    the name is taken to exist and to be writable. *)

Definition slash : ascii := ascii_of_nat 47.

Fixpoint drop_leading (c : ascii) (s : string) : string :=
  match s with
  | EmptyString => EmptyString
  | String c' s' => if Ascii.eqb c' c then drop_leading c s' else s
  end.

(** [s.rstrip(c)] for a character. *)
Fixpoint rstrip (c : ascii) (s : string) : string :=
  match s with
  | EmptyString => EmptyString
  | String c' s' =>
      match rstrip c s' with
      | EmptyString =>
          if Ascii.eqb c' c then EmptyString else String c' EmptyString
      | r => String c' r
      end
  end.

Definition lower_char (c : ascii) : ascii :=
  let n := nat_of_ascii c in
  if (Nat.leb 65 n && Nat.leb n 90)%bool then ascii_of_nat (n + 32) else c.

(** [s.lower()] *)
Fixpoint lower (s : string) : string :=
  match s with
  | EmptyString => EmptyString
  | String c s' => String (lower_char c) (lower s')
  end.

(** [os.path.splitext(name)[1][1:]] *)
Definition name_format (name : string) : string :=
  let base := last (str_split slash name) EmptyString in
  match str_split dot (drop_leading dot base) with
  | [] => EmptyString
  | [_] => EmptyString
  | parts => last parts EmptyString
  end.

(** The formats of the library's default backend. *)
Definition supported_filetypes : list string :=
  ["eps"; "jpeg"; "jpg"; "pdf"; "pgf"; "png"; "ps"; "raw"; "rgba"; "svg";
   "svgz"; "tif"; "tiff"; "webp"].

Definition default_filetype : string := "png".

(** The format in which [savefig(name)] writes and the file it writes
    to: a name without extension gets the default one. *)
Definition savefig_format (name : string) : string :=
  let format := name_format name in
  lower (if String.eqb format EmptyString then default_filetype else format).

Definition savefig_name (name : string) : string :=
  if String.eqb (name_format name) EmptyString
  then (rstrip dot name ++ "." ++ default_filetype)%string
  else name.

(** The file that [savefig(name)] writes, or the exception it raises. *)
Definition savefig_file (name : string) : result string :=
  if str_in (savefig_format name) supported_filetypes
  then Ok (savefig_name name)
  else Raise ValueError.

(** [fig.savefig(name, dpi=...)] *)
Definition fig_savefig (fig : nat) (name : string) (dpi : Z) : M unit :=
  fun s => match lookup (figs s) fig with
           | Some g =>
               match savefig_file name with
               | Raise e => (Raise e, s)
               | Ok file =>
                   (Ok tt, {| colormaps := colormaps s; figs := figs s;
                              saved := saved s ++ [(file, dpi, g)] |})
               end
           | None => (Ok tt, s)
           end.

Definition plt_savefig (name : string) (dpi : Z) : M unit :=
  do fig <- plt_gcf;
  fig_savefig fig name dpi.

(** [plt.close()]: closes the current figure, if there is one. *)
Definition plt_close : M unit :=
  fun s => match figs s with
           | [] => (Ok tt, s)
           | _ :: rest => (Ok tt, with_figs s rest)
           end.

(** ** Rendering: [map_series] *)

Inductive color_map_arg : Type :=
| CmStr (name : string)
| CmList (names : list string).

(** The keyword parameters of [map_series]. *)
Record options : Type := {
  label : string;
  pixel_size : float * float;
  figure_grid : option (Z * Z);
  limits : option (Dict.t (float * float));
  color_map : color_map_arg;
  extension : string;
  kwargs_for_fig : option kwargs;
  kwargs_for_grid : option kwargs;
  kwargs_for_imshow : option kwargs
}.

Definition defaults : options :=
  {| label := "map"; pixel_size := (1%float, 1%float); figure_grid := None;
     limits := None; color_map := CmStr "Greys"; extension := ".png";
     kwargs_for_fig := None; kwargs_for_grid := None;
     kwargs_for_imshow := None |}.

Definition or_empty {A} (o : option (list A)) : list A :=
  match o with None => [] | Some l => l end.

(** Lines 108-118: the cycle over a list of colormaps. *)
Fixpoint cycle_colormap (color_map : list string) (len_color_map : Z)
         (keys : list string) (temp_colormap : Dict.t string) (index : Z)
  : result (Dict.t string) :=
  match keys with
  | [] => Ok temp_colormap
  | x :: rest =>
      if String.eqb x "CP" then
        cycle_colormap color_map len_color_map rest
                       (Dict.set temp_colormap "CP" "Greys") index
      else
        try c <- (if (len_color_map =? 0)%Z then Raise ZeroDivisionError
                  else py_index color_map (index mod len_color_map)%Z);
        cycle_colormap color_map len_color_map rest
                       (Dict.set temp_colormap x c) (index + 1)%Z
  end.

(** Lines 106-118. *)
Definition assign_colormap (color_map : color_map_arg)
           (datas : Dict.t ndarray) : result (Dict.t string) :=
  match color_map with
  | CmStr c =>
      Ok (fold_left (fun d x => Dict.set d x c) (Dict.keys datas) [])
  | CmList l =>
      cycle_colormap l (Z.of_nat (List.length l)) (Dict.keys datas) [] 0%Z
  end.

(** The draw call shared by lines 124-128 and 167-172. *)
Definition draw_with_limits (ax : nat * nat) (xy : mesh)
           (element_map : ndarray) (color_map : Dict.t string)
           (limits : Dict.t (float * float)) (key : string) (kw : kwargs)
  : M (nat * nat) :=
  if str_in key (Dict.keys limits) then
    do cmap <- lift (Dict.get color_map key);
    do lim <- lift (Dict.get limits key);
    pcolormesh ax xy element_map cmap (Some (fst lim)) (Some (snd lim)) kw
  else
    do cmap <- lift (Dict.get color_map key);
    pcolormesh ax xy element_map cmap None None kw.

(** Lines 120-138, one turn of the loop. *)
Definition individual_figure (xy : mesh) (color_map : Dict.t string)
           (limits : Dict.t (float * float)) (label extension : string)
           (item : string * ndarray) : M unit :=
  let key := fst item in
  let values := snd item in
  let element_map := rotate_m90 values in
  do figax <- plt_subplots;
  let fig := fst figax in
  let ax := snd figax in
  do im <- draw_with_limits ax xy element_map color_map limits key [];
  axis_scaled ax;;
  set_title ax key;;
  set_xlabel ax "x ($\mu m$)";;
  set_ylabel ax "y ($\mu m$)";;
  fig_colorbar im "Counts" true;;
  plt_tight_layout;;
  fig_savefig fig (label ++ "_" ++ key ++ extension) 300;;
  plt_close.

Fixpoint for_each {A} (body : A -> M unit) (l : list A) : M unit :=
  match l with
  | [] => ret tt
  | x :: rest => body x;; for_each body rest
  end.

(** Lines 161-187: the cells of the combined figure after the reserved one. *)
Fixpoint grid_loop (fig : nat) (gs : gridspec) (rows columns : Z) (xy : mesh)
         (color_map : Dict.t string) (limits : Dict.t (float * float))
         (kw : kwargs) (items : list (string * ndarray)) (i j : Z) : M unit :=
  match items with
  | [] => ret tt
  | (key, values) :: rest =>
      if String.eqb key "CP" then
        grid_loop fig gs rows columns xy color_map limits kw rest i j
      else
        do cell <- lift (gs_getitem gs i j);
        do ax <- add_subplot fig (Some cell);
        let element_map := rotate_m90 values in
        do im <- draw_with_limits ax xy element_map color_map limits key kw;
        set_title ax key;;
        axis_scaled ax;;
        (if (j =? 0)%Z then set_ylabel ax "y ($\mu m$)" else ret tt);;
        (if (i + 1 =? rows)%Z then set_xlabel ax "x ($\mu m$)" else ret tt);;
        let j1 := (j + 1)%Z in
        do ij <- (if (columns =? 0)%Z then throw ZeroDivisionError
                  else if (j1 mod columns =? 0)%Z
                       then ret ((i + 1)%Z, (j1 mod columns)%Z)
                       else ret (i, j1));
        fig_colorbar im "counts" true;;
        grid_loop fig gs rows columns xy color_map limits kw rest
                  (fst ij) (snd ij)
  end.

(** Lines 140-189. *)
Definition combined_figure (datas : Dict.t ndarray) (xy : mesh)
           (color_map : Dict.t string) (limits : Dict.t (float * float))
           (label extension : string)
           (kwargs_for_fig kwargs_for_grid kwargs_for_imshow : kwargs)
           (figure_grid : Z * Z) : M unit :=
  let rows := fst figure_grid in
  let columns := snd figure_grid in
  do fig <- plt_figure kwargs_for_fig;
  do gs <- add_gridspec fig rows columns kwargs_for_grid;
  do ij <- (if str_in "CP" (Dict.keys datas) then
              do cell <- lift (gs_getitem gs 0 0);
              do ax <- add_subplot fig (Some cell);
              do cp <- lift (Dict.get datas "CP");
              do im <- pcolormesh ax xy (rotate_m90 cp) "Greys_r" None None [];
              fig_colorbar im "counts" true;;
              axis_scaled ax;;
              set_ylabel ax "y ($\mu$m)";;
              ret (0%Z, 1%Z)
            else ret (0%Z, 0%Z));
  grid_loop fig gs rows columns xy color_map limits kwargs_for_imshow
            (Dict.items datas) (fst ij) (snd ij);;
  plt_savefig (label ++ "_all" ++ extension) 300.

Definition map_series (datas : Dict.t ndarray) (o : options) : M unit :=
  let kwargs_for_fig := or_empty (kwargs_for_fig o) in
  let kwargs_for_grid := or_empty (kwargs_for_grid o) in
  let kwargs_for_imshow := or_empty (kwargs_for_imshow o) in
  let limits := or_empty (limits o) in
  do first <- lift (py_index (Dict.values datas) 0);
  let map_size := shape first in
  do xs <- lift (arange (fst map_size) (fst (pixel_size o)));
  do ys <- lift (arange (snd map_size) (snd (pixel_size o)));
  let xy := flip_y (meshgrid xs ys) in
  do color_map <- lift (assign_colormap (color_map o) datas);
  for_each (individual_figure xy color_map limits (label o) (extension o))
           (Dict.items datas);;
  match figure_grid o with
  | Some grid =>
      combined_figure datas xy color_map limits (label o) (extension o)
                      kwargs_for_fig kwargs_for_grid kwargs_for_imshow grid
  | None => ret tt
  end.

(** ** What a run renders

    The files a call writes, described without the registry of open
    figures: the lemmas of the second part show that [map_series] writes
    exactly these, whatever figures are open when it is called. *)

Definition image_with_limits (registry : list string) (xy : mesh)
           (element_map : ndarray) (color_map : Dict.t string)
           (limits : Dict.t (float * float)) (key : string) (kw : kwargs)
  : result quadmesh :=
  if str_in key (Dict.keys limits) then
    try cmap <- Dict.get color_map key;
    try lim <- Dict.get limits key;
    quadmesh_for registry xy element_map cmap
                 (Some (fst lim)) (Some (snd lim)) kw
  else
    try cmap <- Dict.get color_map key;
    quadmesh_for registry xy element_map cmap None None kw.

Definition individual_axes (im : quadmesh) (key : string) : axes :=
  put_colorbar "Counts" true
    (put_ylabel "y ($\mu m$)"
       (put_xlabel "x ($\mu m$)"
          (put_title key (mark_scaled (set_image im (new_axes None)))))).

Definition individual_render (im : quadmesh) (key : string) : figure :=
  {| fig_kwargs := []; fig_axes := [(0%nat, individual_axes im key)];
     fig_tight := true |}.

Definition individual_name (label extension key : string) : string :=
  label ++ "_" ++ key ++ extension.

(** The files of the first loop, up to the first draw call or save that
    raises. *)
Fixpoint individual_files (registry : list string) (xy : mesh)
         (color_map : Dict.t string) (limits : Dict.t (float * float))
         (label extension : string) (items : list (string * ndarray))
  : list (string * Z * figure) * result unit :=
  match items with
  | [] => ([], Ok tt)
  | (key, values) :: rest =>
      match image_with_limits registry xy (rotate_m90 values)
                              color_map limits key [] with
      | Raise e => ([], Raise e)
      | Ok im =>
          match savefig_file (individual_name label extension key) with
          | Raise e => ([], Raise e)
          | Ok file =>
              let fr := individual_files registry xy color_map limits
                                         label extension rest in
              ((file, 300%Z, individual_render im key) :: fst fr, snd fr)
          end
      end
  end.

Definition grid_axes_of (im : quadmesh) (key : string) (cell : subplotspec)
           (rows i j : Z) : axes :=
  let a := mark_scaled (put_title key (set_image im (new_axes (Some cell)))) in
  let a := if (j =? 0)%Z then put_ylabel "y ($\mu m$)" a else a in
  let a := if (i + 1 =? rows)%Z then put_xlabel "x ($\mu m$)" a else a in
  put_colorbar "counts" true a.

Definition next_cell (columns i j : Z) : result (Z * Z) :=
  let j1 := (j + 1)%Z in
  if (columns =? 0)%Z then Raise ZeroDivisionError
  else if (j1 mod columns =? 0)%Z then Ok ((i + 1)%Z, (j1 mod columns)%Z)
       else Ok (i, j1).

(** The axes of the combined figure after the second loop, newest first. *)
Fixpoint grid_axes (registry : list string) (gs : gridspec)
         (rows columns : Z)
         (xy : mesh) (color_map : Dict.t string) (limits : Dict.t (float * float))
         (kw : kwargs) (items : list (string * ndarray)) (i j : Z)
         (axs : list (nat * axes)) : result (list (nat * axes)) :=
  match items with
  | [] => Ok axs
  | (key, values) :: rest =>
      if String.eqb key "CP" then
        grid_axes registry gs rows columns xy color_map limits kw rest i j axs
      else
        try cell <- gs_getitem gs i j;
        try im <- image_with_limits registry xy (rotate_m90 values)
                                    color_map limits key kw;
        try ij <- next_cell columns i j;
        grid_axes registry gs rows columns xy color_map limits kw rest
                  (fst ij) (snd ij)
                  ((List.length axs, grid_axes_of im key cell rows i j) :: axs)
  end.

Definition cp_axes (im : quadmesh) (cell : subplotspec) : axes :=
  put_ylabel "y ($\mu$m)"
    (mark_scaled (put_colorbar "counts" true
                    (set_image im (new_axes (Some cell))))).

Definition combined_render (registry : list string) (datas : Dict.t ndarray)
           (xy : mesh) (color_map : Dict.t string) (limits : Dict.t (float * float))
           (kwargs_for_fig kwargs_for_grid kwargs_for_imshow : kwargs)
           (figure_grid : Z * Z)
  : result figure :=
  let rows := fst figure_grid in
  let columns := snd figure_grid in
  if ((rows <=? 0) || (columns <=? 0))%Z then Raise ValueError
  else
    let gs := {| gs_rows := rows; gs_columns := columns;
                 gs_kwargs := kwargs_for_grid |} in
    try start <-
      (if str_in "CP" (Dict.keys datas) then
         try cell <- gs_getitem gs 0 0;
         try cp <- Dict.get datas "CP";
         try im <- quadmesh_for registry xy (rotate_m90 cp) "Greys_r"
                                None None [];
         Ok ([(0%nat, cp_axes im cell)], 1%Z)
       else Ok ([], 0%Z));
    try axs <- grid_axes registry gs rows columns xy color_map limits
                         kwargs_for_imshow (Dict.items datas) 0 (snd start)
                         (fst start);
    Ok {| fig_kwargs := kwargs_for_fig; fig_axes := axs; fig_tight := false |}.

Definition combined_name (label extension : string) : string :=
  label ++ "_all" ++ extension.

(** Lines 101-118: the mesh and the colormap of every element. *)
Definition prepare (datas : Dict.t ndarray) (o : options)
  : result (mesh * Dict.t string) :=
  try first <- py_index (Dict.values datas) 0;
  let map_size := shape first in
  try xs <- arange (fst map_size) (fst (pixel_size o));
  try ys <- arange (snd map_size) (snd (pixel_size o));
  try color_map <- assign_colormap (color_map o) datas;
  Ok (flip_y (meshgrid xs ys), color_map).

(** The files written by a call, in order, and how the call ends. *)
Definition rendered (registry : list string) (datas : Dict.t ndarray)
           (o : options) : list (string * Z * figure) * result unit :=
  match prepare datas o with
  | Raise e => ([], Raise e)
  | Ok (xy, cm) =>
      let fr := individual_files registry xy cm (or_empty (limits o))
                                 (label o) (extension o) (Dict.items datas) in
      match snd fr, figure_grid o with
      | Raise e, _ => (fst fr, Raise e)
      | Ok _, None => (fst fr, Ok tt)
      | Ok _, Some grid =>
          match combined_render registry datas xy cm (or_empty (limits o))
                                (or_empty (kwargs_for_fig o))
                                (or_empty (kwargs_for_grid o))
                                (or_empty (kwargs_for_imshow o)) grid with
          | Raise e => (fst fr, Raise e)
          | Ok g =>
              match savefig_file (combined_name (label o) (extension o)) with
              | Raise e => (fst fr, Raise e)
              | Ok file => (fst fr ++ [(file, 300%Z, g)], Ok tt)
              end
          end
      end
  end.

(** The file system after a sequence of writes: a later write to a name
    replaces the earlier one. *)
Definition write_all (log : list (string * Z * figure))
           (disk : Dict.t (Z * figure)) : Dict.t (Z * figure) :=
  fold_left (fun d e => Dict.set d (fst (fst e)) (snd (fst e), snd e))
            log disk.

Definition written (log : list (string * Z * figure))
  : Dict.t (Z * figure) :=
  write_all log [].

Definition names (log : list (string * Z * figure)) : list string :=
  map (fun e => fst (fst e)) log.

(** ** Auxiliary notions of the proofs *)

(** How a computation ends, without its value. *)
Definition outcome {A} (r : result A) : result unit :=
  match r with Raise e => Raise e | Ok _ => Ok tt end.

(** The state in which figure [n] is current and has axes [axs]. *)
Definition current (c : list string) (n : nat) (kw : kwargs) (t : bool)
           (rest : list (nat * figure)) (sv : list (string * Z * figure))
           (axs : list (nat * axes)) : pyplot :=
  {| colormaps := c;
     figs := (n, {| fig_kwargs := kw; fig_axes := axs; fig_tight := t |})
             :: rest;
     saved := sv |}.

(** The metadata mapping of a directory that knows Fe alone. *)
Definition fe_entry : Dict.t string := [("01", "Fe")].

(** A one-cell map. *)
Definition unit_map (v : Z) : ndarray :=
  {| nrows := 1; ncols := 1; cells := [[v]] |}.

(** A map of two rows and two columns, as [np.loadtxt] returns it for a
    file of two lines of two numbers. *)
Definition square_map (v : Z) : ndarray :=
  {| nrows := 2; ncols := 2;
     cells := [[v; v + 1]; [v + 2; v + 3]]%Z |}.

(** The number of cells the second loop fills: one per element other
    than CP. *)
Definition cells_needed (items : list (string * ndarray)) : Z :=
  Z.of_nat (List.length
              (filter (fun kv => negb (String.eqb (fst kv) "CP")) items)).

(** ** Concrete inputs *)

(** A plotting state with a few registered colormaps, no open figure and
    nothing written. *)
Definition idle : pyplot :=
  {| colormaps := ["Greys"; "Greys_r"; "Purples"; "Blues"];
     figs := []; saved := [] |}.

Definition with_grid (grid : Z * Z) (lims : option (Dict.t (float * float)))
  : options :=
  {| label := "map"; pixel_size := (1%float, 1%float);
     figure_grid := Some grid;
     limits := lims; color_map := CmList ["Purples"; "Blues"];
     extension := ".png"; kwargs_for_fig := None; kwargs_for_grid := None;
     kwargs_for_imshow := None |}.

Definition Fe_Cu : Dict.t ndarray := [("Fe", unit_map 7); ("Cu", unit_map 9)].
Definition CP_Fe : Dict.t ndarray := [("CP", unit_map 3); ("Fe", unit_map 1)].

(** The range of the counts of a map: the scale of an image drawn
    without bounds, before a colorbar is drawn for it. *)
Definition data_range (values : ndarray) : option float * option float :=
  (option_map Z2float (amin values), option_map Z2float (amax values)).

(** The colour scale of every image of a figure, and the bounds of every
    colorbar, newest axes first. *)
Definition image_bounds (g : figure)
  : list (option float * option float) :=
  flat_map (fun a => match ax_image (snd a) with
                     | Some q => [qm_clim q]
                     | None => []
                     end) (fig_axes g).

Definition colorbar_bounds (g : figure)
  : list (option float * option float) :=
  flat_map (fun a => match ax_colorbar (snd a) with
                     | Some b => [cb_bounds b]
                     | None => []
                     end) (fig_axes g).

(** Where the axes of a figure are and how they are labelled, newest
    first: cell, title, y-axis label, x-axis label. *)
Definition layout_of (a : axes)
  : option (Z * Z) * option string * option string * option string :=
  (option_map (fun c => (ss_row c, ss_column c)) (ax_cell a),
   ax_title a, ax_ylabel a, ax_xlabel a).

Definition placement (g : figure)
  : list (option (Z * Z) * option string * option string * option string) :=
  map (fun a => layout_of (snd a)) (fig_axes g).

(** Row-major filling from the cell number [p] on, oldest first: what the
    second loop is meant to do with the elements other than CP. *)
Fixpoint row_major (rows columns p : Z) (keys : list string)
  : list (option (Z * Z) * option string * option string * option string) :=
  match keys with
  | [] => []
  | key :: rest =>
      if String.eqb key "CP" then row_major rows columns p rest
      else
        let i := (p / columns)%Z in
        let j := (p mod columns)%Z in
        (Some (i, j), Some key,
         if (j =? 0)%Z then Some "y ($\mu m$)" else None,
         if (i + 1 =? rows)%Z then Some "x ($\mu m$)" else None)
          :: row_major rows columns (p + 1) rest
  end.

(** A directory of two metadata files and two data files. *)
Definition two_elements : filesystem :=
  {| glob := fun pattern =>
       if String.eqb pattern "maps\*.pm"
       then ["maps\01.Fe.pm"; "maps\02.Cr.pm"]
       else if String.eqb pattern "maps\*.txt"
            then ["maps\01_x.txt"; "maps\02_x.txt"]
            else [];
     loadtxt := fun name =>
       if String.eqb name "maps\01_x.txt" then Ok (square_map 7)
       else if String.eqb name "maps\02_x.txt" then Ok (square_map 9)
            else Raise OSError |}.

(** The same directory with a third data file that no metadata file
    names and that cannot be read. *)
Definition three_data_files : filesystem :=
  {| glob := fun pattern =>
       if String.eqb pattern "maps\*.pm"
       then ["maps\01.Fe.pm"; "maps\02.Cr.pm"]
       else if String.eqb pattern "maps\*.txt"
            then ["maps\01_x.txt"; "maps\03_x.txt"; "maps\02_x.txt"]
            else [];
     loadtxt := fun name =>
       if String.eqb name "maps\01_x.txt" then Ok (square_map 7)
       else if String.eqb name "maps\02_x.txt" then Ok (square_map 9)
            else Raise OSError |}.

Definition without_grid : options :=
  {| label := "map"; pixel_size := (1%float, 1%float); figure_grid := None;
     limits := None; color_map := CmList ["Purples"; "Blues"];
     extension := ".png"; kwargs_for_fig := None; kwargs_for_grid := None;
     kwargs_for_imshow := None |}.

(** The plotting state after a first call with a grid. *)
Definition after_one_call : pyplot :=
  snd (map_series Fe_Cu (with_grid (1, 2)%Z None) idle).

Definition CP_limits : options :=
  with_grid (1, 2)%Z (Some [("CP", (0, 5)%float)]).

(** A call with bounds for Fe, and the plotting state after it. *)
Definition Fe_limits : options :=
  with_grid (1, 2)%Z (Some [("Fe", (0, 10)%float)]).

Definition after_Fe_limits : pyplot :=
  snd (map_series Fe_Cu Fe_limits idle).

(** ** File names *)

(** [c in s] for a character and a string. *)
Fixpoint has_char (c : ascii) (s : string) : bool :=
  match s with
  | EmptyString => false
  | String c' s' => Ascii.eqb c' c || has_char c s'
  end.

(** The name of a data file and of a metadata file as the instrument
    writes them: [dir\index_rest] and [dir\index.label.suffix]. *)
Definition data_file_name (dir index rest : string) : string :=
  dir ++ String backslash (index ++ String underscore rest).

Definition pm_file_name (dir index label suffix : string) : string :=
  dir ++ String backslash (index ++ String dot (label ++ String dot suffix)).

(** A directory with a metadata file whose name has one dot only. *)
Definition one_dot_metadata : filesystem :=
  {| glob := fun pattern =>
       if String.eqb pattern "maps\*.pm"
       then ["maps\01.Fe.pm"; "maps\Cr.pm"]
       else if String.eqb pattern "maps\*.txt"
            then ["maps\01_x.txt"]
            else [];
     loadtxt := fun name =>
       if String.eqb name "maps\01_x.txt" then Ok (square_map 7)
       else Raise OSError |}.

(** A directory with two data files of index 01, and one whose matched
    data file of index 02 cannot be read. *)
Definition two_files_one_index : filesystem :=
  {| glob := fun pattern =>
       if String.eqb pattern "maps\*.pm"
       then ["maps\01.Fe.pm"; "maps\02.Cr.pm"]
       else if String.eqb pattern "maps\*.txt"
            then ["maps\01_a.txt"; "maps\02_x.txt"; "maps\01_b.txt"]
            else [];
     loadtxt := fun name =>
       if String.eqb name "maps\01_a.txt" then Ok (square_map 7)
       else if String.eqb name "maps\01_b.txt" then Ok (square_map 8)
            else if String.eqb name "maps\02_x.txt" then Ok (square_map 9)
                 else Raise OSError |}.

Definition unreadable_data_file : filesystem :=
  {| glob := fun pattern =>
       if String.eqb pattern "maps\*.pm"
       then ["maps\01.Fe.pm"; "maps\02.Cr.pm"]
       else if String.eqb pattern "maps\*.txt"
            then ["maps\01_x.txt"; "maps\02_x.txt"]
            else [];
     loadtxt := fun name =>
       if String.eqb name "maps\01_x.txt" then Ok (square_map 7)
       else Raise ValueError |}.

(** The directory [two_elements] without the metadata file of Cr. *)
Definition Fe_metadata_only : filesystem :=
  {| glob := fun pattern =>
       if String.eqb pattern "maps\*.pm"
       then ["maps\01.Fe.pm"]
       else if String.eqb pattern "maps\*.txt"
            then ["maps\01_x.txt"; "maps\02_x.txt"]
            else [];
     loadtxt := fun name =>
       if String.eqb name "maps\01_x.txt" then Ok (square_map 7)
       else if String.eqb name "maps\02_x.txt" then Ok (square_map 9)
            else Raise OSError |}.

(** The keys that take a slot of the colormap cycle: all but CP. *)
Definition others (keys : list string) : list string :=
  filter (fun k => negb (String.eqb k "CP")) keys.

(** A call with an empty list of colormaps. *)
Definition no_colormap : options :=
  {| label := "map"; pixel_size := (1%float, 1%float); figure_grid := None;
     limits := None; color_map := CmList []; extension := ".png";
     kwargs_for_fig := None; kwargs_for_grid := None;
     kwargs_for_imshow := None |}.

(** A map of one row and two columns, and a dataset whose second map has
    not the shape of the first. *)
Definition wide_map (a b : Z) : ndarray :=
  {| nrows := 1; ncols := 2; cells := [[a; b]] |}.

Definition Fe_Cu_wide : Dict.t ndarray :=
  [("Fe", unit_map 7); ("Cu", wide_map 1 2)].

(** ** The script [plot_epma_map.py]

    The script sets the font size in the library's parameters, reads the
    directory [Maps1/.map/2\] without N, Cr and Mo, and renders the maps
    with a grid of three by three cells. *)

Module plot_epma_map.
Definition cm : list string :=
  ["Purples"; "Blues"; "Greens"; "Reds"; "YlOrBr"; "RdPu"; "Oranges";
   "BuGn"; "PuBu"].

Definition exclude_elements : list string := ["N"; "Cr"; "Mo"].

Definition lims : Dict.t (float * float) :=
  [("C", (9, 80)); ("Cr", (118, 235)); ("Fe", (700, 968)); ("Mo", (0, 9));
   ("N", (0, 12)); ("Ni", (20, 100)); ("CP", (0, 1597)); ("O", (19, 80));
   ("Cu", (20, 80)); ("Mn", (30, 70)); ("Nb", (0, 20)); ("Si", (9, 70))]%float.

Definition file_location : string := "Maps1/.map/2\".

(** The arguments of the call of line 14. *)
Definition arguments : options :=
  {| label := "outer_map"; pixel_size := (0.5%float, 0.5%float);
     figure_grid := Some (3, 3)%Z; limits := Some lims;
     color_map := CmList cm; extension := ".png";
     kwargs_for_fig := Some [("figsize", "(22, 15)"); ("dpi", "100")];
     kwargs_for_grid := None; kwargs_for_imshow := None |}.
End plot_epma_map.

(** The state the script works on: the parameters of the plotting
    library ([mpl.rcParams]) and pyplot's state. *)
Record session : Type := {
  rc_params : Dict.t Z;
  plt : pyplot
}.

(** Lines 7-15 of the script. *)
Definition run_script (fs : filesystem) (ss : session)
  : result unit * session :=
  let rc := Dict.set (rc_params ss) "font.size" 18%Z in
  match read_data fs plot_epma_map.file_location
                  (Some plot_epma_map.exclude_elements) with
  | Raise e => (Raise e, {| rc_params := rc; plt := plt ss |})
  | Ok datas =>
      let rs := map_series datas plot_epma_map.arguments (plt ss) in
      (fst rs, {| rc_params := rc; plt := snd rs |})
  end.

(** A directory in which no name matches, and a session at its start. *)
Definition empty_directory : filesystem :=
  {| glob := fun _ => []; loadtxt := fun _ => Raise OSError |}.

Definition fresh_session : session := {| rc_params := []; plt := idle |}.

(** The directory [loc] with, for every element given by index, label
    and map, the metadata file [loc index.label.pm] and the data file
    [loc index_x.txt] that holds the map. *)
Definition directory_of (loc : string)
           (elements : list (string * string * ndarray)) : filesystem :=
  {| glob := fun pattern =>
       if String.eqb pattern (loc ++ "*.pm")
       then map (fun e => (loc ++ fst (fst e) ++ "." ++ snd (fst e)
                               ++ ".pm")%string) elements
       else if String.eqb pattern (loc ++ "*.txt")
            then map (fun e => (loc ++ fst (fst e) ++ "_x.txt")%string)
                     elements
            else [];
     loadtxt := fun name =>
       match find (fun e => String.eqb name
                              (loc ++ fst (fst e) ++ "_x.txt")%string)
                  elements with
       | Some e => Ok (snd e)
       | None => Raise OSError
       end |}.

(** The directory of the script with the maps of Fe, Cr, Ni and CP, one
    with the maps of ten elements, and a session in which the colormaps
    of the script are registered. *)
Definition sample_directory : filesystem :=
  directory_of "Maps1/.map/2\"
    [("01", "Fe", square_map 700); ("02", "Cr", square_map 118);
     ("03", "Ni", square_map 20); ("04", "CP", square_map 0)].

Definition sample_maps : Dict.t ndarray :=
  [("Fe", square_map 700); ("Ni", square_map 20); ("CP", square_map 0)].

Definition ten_elements : filesystem :=
  directory_of "Maps1/.map/2\"
    [("01", "C", square_map 9); ("02", "Fe", square_map 700);
     ("03", "Ni", square_map 20); ("04", "O", square_map 19);
     ("05", "Cu", square_map 20); ("06", "Mn", square_map 30);
     ("07", "Nb", square_map 0); ("08", "Si", square_map 9);
     ("09", "Al", square_map 1); ("10", "Ti", square_map 2)].

Definition ten_maps : Dict.t ndarray :=
  [("C", square_map 9); ("Fe", square_map 700); ("Ni", square_map 20);
   ("O", square_map 19); ("Cu", square_map 20); ("Mn", square_map 30);
   ("Nb", square_map 0); ("Si", square_map 9); ("Al", square_map 1);
   ("Ti", square_map 2)].

(** A map of three rows and three columns, and a call with a pixel size
    of a tenth. *)
Definition three_by_three : ndarray :=
  {| nrows := 3; ncols := 3;
     cells := [[1; 2; 3]; [4; 5; 6]; [7; 8; 9]]%Z |}.

Definition tenth_pixel : options :=
  {| label := "map"; pixel_size := (0.1%float, 0.1%float);
     figure_grid := None; limits := None; color_map := CmStr "Greys";
     extension := ".png"; kwargs_for_fig := None; kwargs_for_grid := None;
     kwargs_for_imshow := None |}.

Definition stocked_session : session :=
  {| rc_params := [];
     plt := {| colormaps := "Greys" :: "Greys_r" :: plot_epma_map.cm;
               figs := []; saved := [] |} |}.

(** A call with keyword arguments for the figure, the grid and the draw
    calls. *)
Definition with_keywords : options :=
  {| label := "map"; pixel_size := (1%float, 1%float);
     figure_grid := Some (1, 2)%Z;
     limits := None; color_map := CmList ["Purples"; "Blues"];
     extension := ".png";
     kwargs_for_fig := Some [("figsize", "(22, 15)")];
     kwargs_for_grid := Some [("wspace", "0.1")];
     kwargs_for_imshow := Some [("alpha", "0.5")] |}.

(** ** Conditions on a call

    The pixel size gives the mesh of [a] the shape of [a]: the ranges of
    line 102 have as many points as [a] has rows and columns. *)
Definition mesh_fits (pixel : float * float) (a : ndarray) : Prop :=
  arange_length (nrows a) (fst pixel) = Ok (nrows a)
  /\ arange_length (ncols a) (snd pixel) = Ok (ncols a).

(** The range of line 102 for [n] rows or columns has [n] points. *)
Definition range_fits (step : float) (n : nat) : bool :=
  match arange_length n step with
  | Ok m => Nat.eqb m n
  | Raise _ => false
  end.

(** A call that differs from the default one in the extension. *)
Definition with_extension (ext : string) : options :=
  {| label := "map"; pixel_size := (1%float, 1%float); figure_grid := None;
     limits := None; color_map := CmStr "Greys"; extension := ext;
     kwargs_for_fig := None; kwargs_for_grid := None;
     kwargs_for_imshow := None |}.

(** The pixel size gives ranges for the mesh of [a], of whatever
    length. *)
Definition mesh_built (pixel : float * float) (a : ndarray) : Prop :=
  exists m n,
    arange_length (nrows a) (fst pixel) = Ok m
    /\ arange_length (ncols a) (snd pixel) = Ok n.

(** [savefig] accepts the name and writes the file under it. *)
Definition saved_as_named (name : string) : Prop :=
  savefig_file name = Ok name.

(** [savefig] does not change the name: it has an extension. *)
Definition name_kept (name : string) : Prop := savefig_name name = name.

(** * Part two: properties *)

(** ** Python values *)

Lemma py_index_head {A} (x : A) (l : list A) : py_index (x :: l) 0 = Ok x.
Proof.
  unfold py_index. cbn [List.length].
  replace (0 <? 0)%Z with false by reflexivity.
  replace ((0 <=? 0) && (0 <? Z.of_nat (S (List.length l))))%Z%bool
    with true.
  - reflexivity.
  - symmetry. apply andb_true_iff. split.
    + reflexivity.
    + apply Z.ltb_lt. lia.
Qed.

Lemma py_index_nil {A} (k : Z) : py_index (@nil A) k = Raise IndexError.
Proof.
  unfold py_index. cbn [List.length Z.of_nat].
  destruct (k <? 0)%Z eqn:E.
  - destruct ((0 <=? k + 0) && (k + 0 <? 0))%Z%bool eqn:F; [|reflexivity].
    apply andb_true_iff in F. destruct F as [F1 F2].
    apply Z.leb_le in F1. apply Z.ltb_lt in F2. lia.
  - destruct ((0 <=? k) && (k <? 0))%Z%bool eqn:F; [|reflexivity].
    apply andb_true_iff in F. destruct F as [F1 F2].
    apply Z.leb_le in F1. apply Z.ltb_lt in F2. lia.
Qed.

Lemma py_index_last {A} (l : list A) :
  l <> [] -> exists a, py_index l (-1) = Ok a.
Proof.
  intros Hl. unfold py_index.
  replace (-1 <? 0)%Z with true by reflexivity.
  assert (Hn : (0 < List.length l)%nat).
  { destruct l; [congruence | cbn; lia]. }
  replace ((0 <=? -1 + Z.of_nat (List.length l))
           && (-1 + Z.of_nat (List.length l)
               <? Z.of_nat (List.length l)))%Z%bool
    with true.
  - destruct (nth_error l (Z.to_nat (-1 + Z.of_nat (List.length l)))) eqn:E.
    + eauto.
    + apply nth_error_None in E. lia.
  - symmetry. apply andb_true_iff. split.
    + apply Z.leb_le. lia.
    + apply Z.ltb_lt. lia.
Qed.

Lemma str_split_nonempty (sep : ascii) (s : string) : str_split sep s <> [].
Proof.
  destruct s as [|c s]; cbn; [discriminate|].
  destruct (Ascii.eqb c sep); [discriminate|].
  destruct (str_split sep s); discriminate.
Qed.

(** The index token of a data file name is always defined. *)
Lemma map_index_total (file_name : string) :
  exists index, map_index file_name = Ok index.
Proof.
  unfold map_index.
  destruct (py_index_last (str_split backslash file_name)
                          (str_split_nonempty _ _)) as [base ->].
  cbn [rbind].
  destruct (str_split underscore base) as [|w ws] eqn:E.
  - exfalso. exact (str_split_nonempty _ _ E).
  - exists w. apply py_index_head.
Qed.

(** ** Dictionaries *)

Lemma str_in_true (x : string) (l : list string) :
  str_in x l = true <-> In x l.
Proof.
  unfold str_in. rewrite existsb_exists. split.
  - intros [y [Hy E]]. apply String.eqb_eq in E. now subst.
  - intros H. exists x. split; [assumption | apply String.eqb_refl].
Qed.

Lemma str_in_false (x : string) (l : list string) :
  str_in x l = false <-> ~ In x l.
Proof.
  rewrite <- str_in_true. destruct (str_in x l); split; congruence.
Qed.

Lemma dict_get_in {V} (d : Dict.t V) (k : string) :
  In k (Dict.keys d) -> exists v, Dict.get d k = Ok v.
Proof.
  induction d as [|[k' v'] d IH]; cbn; [tauto|].
  intros [E | H].
  - subst. rewrite String.eqb_refl. eauto.
  - destruct (String.eqb k k'); eauto.
Qed.

Lemma dict_get_found {V} (d : Dict.t V) (k : string) (v : V) :
  Dict.get d k = Ok v -> In (k, v) d.
Proof.
  induction d as [|[k' v'] d IH]; cbn; [discriminate|].
  destruct (String.eqb k k') eqn:E.
  - apply String.eqb_eq in E. intros [= ->]. subst. now left.
  - intros H. right. now apply IH.
Qed.

Lemma dict_keys_set {V} (d : Dict.t V) (k : string) (v : V) :
  Dict.keys (Dict.set d k v)
  = if str_in k (Dict.keys d) then Dict.keys d else Dict.keys d ++ [k].
Proof.
  induction d as [|[k' v'] d IH]; cbn; [reflexivity|].
  destruct (String.eqb k k') eqn:E; cbn; [reflexivity|].
  unfold Dict.keys in *. rewrite IH. unfold str_in.
  now destruct (existsb (String.eqb k) (map fst d)).
Qed.

Lemma dict_get_set_same {V} (d : Dict.t V) (k : string) (v : V) :
  Dict.get (Dict.set d k v) k = Ok v.
Proof.
  induction d as [|[k' v'] d IH]; cbn.
  - now rewrite String.eqb_refl.
  - destruct (String.eqb k k') eqn:E; cbn; rewrite E; [reflexivity | exact IH].
Qed.

Lemma dict_get_set_other {V} (d : Dict.t V) (k k0 : string) (v : V) :
  k0 <> k -> Dict.get (Dict.set d k v) k0 = Dict.get d k0.
Proof.
  intros Hne. induction d as [|[k' v'] d IH]; cbn.
  - destruct (String.eqb k0 k) eqn:E; [|reflexivity].
    apply String.eqb_eq in E. contradiction.
  - destruct (String.eqb k k') eqn:E; cbn.
    + apply String.eqb_eq in E. subst k'.
      destruct (String.eqb k0 k) eqn:E0; [|reflexivity].
      apply String.eqb_eq in E0. contradiction.
    + now rewrite IH.
Qed.

(** ** Ingestion *)

(** Every label of the result has passed the exclusion filter. *)
Lemma elements_of_labels (exclude files : list string) :
  forall acc elements,
    elements_of exclude files acc = Ok elements ->
    (forall i l, In (i, l) acc -> ~ In l exclude) ->
    forall i l, In (i, l) elements -> ~ In l exclude.
Proof.
  induction files as [|x rest IH]; cbn; intros acc elements H Hacc.
  - injection H as <-. exact Hacc.
  - destruct (pm_label x) as [e|lab] eqn:El; cbn in H; [discriminate|].
    destruct (str_in lab exclude) eqn:Ex; cbn in H.
    + eapply IH; eauto.
    + destruct (pm_index x) as [e|idx]; cbn in H; [discriminate|].
      eapply IH; [exact H|].
      intros i l Hin. clear H IH.
      induction acc as [|[k v] acc IHa]; cbn in Hin.
      * destruct Hin as [[= <- <-]|[]]. now apply str_in_false.
      * destruct (String.eqb idx k); cbn in Hin.
        -- destruct Hin as [[= <- <-]|Hin].
           ++ now apply str_in_false.
           ++ apply (Hacc i l). now right.
        -- destruct Hin as [[= <- <-]|Hin].
           ++ apply (Hacc k v). now left.
           ++ apply IHa; [|exact Hin].
              intros i' l' H'. apply (Hacc i' l'). now right.
Qed.

Lemma load_maps_labels (fs : filesystem) (elements : Dict.t string)
      (maps : list string) :
  forall datas d,
    load_maps fs elements maps datas = Ok d ->
    forall k, In k (Dict.keys d) ->
              In k (Dict.keys datas) \/ exists i, In (i, k) elements.
Proof.
  induction maps as [|f rest IH]; cbn; intros datas d H k Hk.
  - injection H as <-. now left.
  - destruct (map_index f) as [e|index]; cbn in H; [discriminate|].
    destruct (str_in index (Dict.keys elements)); cbn in H.
    + destruct (loadtxt fs f) as [e|arr]; cbn in H; [discriminate|].
      destruct (Dict.get elements index) as [e|lab] eqn:G; cbn in H;
        [discriminate|].
      destruct (IH _ _ H k Hk) as [Hin|Hex]; [|now right].
      rewrite dict_keys_set in Hin.
      destruct (str_in lab (Dict.keys datas)); [now left|].
      apply in_app_or in Hin. destruct Hin as [Hin|[<-|[]]]; [now left|].
      right. exists index. now apply dict_get_found.
    + eapply IH; eauto.
Qed.

(** No label of the exclusion list is a key of the dataset. *)
Lemma read_data_keys_not_excluded (fs : filesystem) (loc : string)
      (exclude : list string) (d : Dict.t ndarray) :
  read_data fs loc (Some exclude) = Ok d ->
  forall k, In k (Dict.keys d) -> ~ In k exclude.
Proof.
  unfold read_data. intros H k Hk.
  destruct (elements_of exclude (glob fs (loc ++ "*.pm")) []) as [e|els] eqn:E;
    cbn in H; [discriminate|].
  destruct (load_maps_labels _ _ _ _ _ H k Hk) as [[]|[i Hi]].
  eapply elements_of_labels; [exact E | intros ? ? [] | exact Hi].
Qed.

Lemma elements_of_Fe_Cr (files : list string) :
  (forall x, In x files ->
             (pm_index x = Ok "01" /\ pm_label x = Ok "Fe")
             \/ (pm_index x = Ok "02" /\ pm_label x = Ok "Cr")) ->
  forall acc,
    acc = [] \/ acc = fe_entry ->
    exists e,
      elements_of ["Cr"] files acc = Ok e
      /\ (e = [] \/ e = fe_entry)
      /\ (acc = fe_entry \/ (exists x, In x files /\ pm_label x = Ok "Fe") ->
          e = fe_entry).
Proof.
  induction files as [|x rest IH]; intros Hf acc Hacc.
  - exists acc. cbn. split; [reflexivity|]. split; [assumption|].
    intros [H | [x [[] _]]]. exact H.
  - assert (Hrest : forall y, In y rest ->
                (pm_index y = Ok "01" /\ pm_label y = Ok "Fe")
                \/ (pm_index y = Ok "02" /\ pm_label y = Ok "Cr"))
      by (intros y Hy; apply Hf; now right).
    destruct (Hf x (or_introl eq_refl)) as [[Hi Hl] | [Hi Hl]].
    + cbn [elements_of]. rewrite Hl, Hi. cbn.
      destruct (IH Hrest (Dict.set acc "01" "Fe")) as [e [He [Hs Hfe]]].
      { right. destruct Hacc as [-> | ->]; reflexivity. }
      exists e. split; [exact He|]. split; [exact Hs|].
      intros _. apply Hfe. left. destruct Hacc as [-> | ->]; reflexivity.
    + cbn [elements_of]. rewrite Hl. cbn.
      destruct (IH Hrest acc Hacc) as [e [He [Hs Hfe]]].
      exists e. split; [exact He|]. split; [exact Hs|].
      intros [H | [y [[<- | Hy] Hy']]].
      * apply Hfe. now left.
      * rewrite Hl in Hy'. discriminate.
      * apply Hfe. right. eauto.
Qed.

Lemma load_maps_Fe (fs : filesystem) (maps : list string) :
  (forall f, In f maps -> map_index f = Ok "01" \/ map_index f = Ok "02") ->
  (forall f, In f maps -> map_index f = Ok "01" ->
             exists a, loadtxt fs f = Ok a) ->
  forall datas,
    Dict.keys datas = [] \/ Dict.keys datas = ["Fe"] ->
    exists d,
      load_maps fs fe_entry maps datas = Ok d
      /\ (Dict.keys d = [] \/ Dict.keys d = ["Fe"])
      /\ (Dict.keys datas = ["Fe"]
          \/ (exists f, In f maps /\ map_index f = Ok "01") ->
          Dict.keys d = ["Fe"]).
Proof.
  induction maps as [|f rest IH]; intros Hidx Hload datas Hd.
  - exists datas. cbn. split; [reflexivity|]. split; [assumption|].
    intros [H | [x [[] _]]]. exact H.
  - assert (Hidx' : forall y, In y rest ->
                map_index y = Ok "01" \/ map_index y = Ok "02")
      by (intros y Hy; apply Hidx; now right).
    assert (Hload' : forall y, In y rest -> map_index y = Ok "01" ->
                exists a, loadtxt fs y = Ok a)
      by (intros y Hy; apply Hload; now right).
    destruct (Hidx f (or_introl eq_refl)) as [Hi | Hi].
    + destruct (Hload f (or_introl eq_refl) Hi) as [a Ha].
      cbn [load_maps]. rewrite Hi. cbn. rewrite Ha. cbn.
      assert (Hk : Dict.keys (Dict.set datas "Fe" a) = ["Fe"]).
      { rewrite dict_keys_set. destruct Hd as [-> | ->]; reflexivity. }
      destruct (IH Hidx' Hload' (Dict.set datas "Fe" a)) as [d [Hr [Hs Hfe]]].
      { now right. }
      exists d. split; [exact Hr|]. split; [exact Hs|].
      intros _. apply Hfe. now left.
    + cbn [load_maps]. rewrite Hi. cbn.
      destruct (IH Hidx' Hload' datas Hd) as [d [Hr [Hs Hfe]]].
      exists d. split; [exact Hr|]. split; [exact Hs|].
      intros [H | [y [[<- | Hy] Hy']]].
      * apply Hfe. now left.
      * rewrite Hi in Hy'. discriminate.
      * apply Hfe. right. eauto.
Qed.

(** C3.  In a directory whose metadata files map index 01 to Fe and index 02
    to Cr and whose data files carry the index tokens 01 and 02,
    [read_data] with [exclude = ["Cr"]] returns a dataset whose only key
    is Fe.  (The metadata file of Cr and the data file of index 02 may as
    well be missing; the data files of index 02 are not opened.) *)
Theorem read_data_exclude_Cr (fs : filesystem) (loc : string) :
  (forall x, In x (glob fs (loc ++ "*.pm")) ->
             (pm_index x = Ok "01" /\ pm_label x = Ok "Fe")
             \/ (pm_index x = Ok "02" /\ pm_label x = Ok "Cr")) ->
  (exists x, In x (glob fs (loc ++ "*.pm")) /\ pm_label x = Ok "Fe") ->
  (forall f, In f (glob fs (loc ++ "*.txt")) ->
             map_index f = Ok "01" \/ map_index f = Ok "02") ->
  (exists f, In f (glob fs (loc ++ "*.txt")) /\ map_index f = Ok "01") ->
  (forall f, In f (glob fs (loc ++ "*.txt")) -> map_index f = Ok "01" ->
             exists a, loadtxt fs f = Ok a) ->
  exists d,
    read_data fs loc (Some ["Cr"]) = Ok d /\ Dict.keys d = ["Fe"].
Proof.
  intros Hpm HFe Htxt H01 Hload. unfold read_data.
  destruct (elements_of_Fe_Cr _ Hpm [] (or_introl eq_refl))
    as [e [He [_ Hfe]]].
  rewrite He, (Hfe (or_intror HFe)). cbn [rbind].
  destruct (load_maps_Fe fs _ Htxt Hload [] (or_introl eq_refl))
    as [d [Hd [_ Hk]]].
  exists d. split; [exact Hd|]. apply Hk. now right.
Qed.

Lemma dict_keys_set_old {V} (d : Dict.t V) (k k0 : string) (v : V) :
  In k0 (Dict.keys d) -> In k0 (Dict.keys (Dict.set d k v)).
Proof.
  rewrite dict_keys_set. destruct (str_in k (Dict.keys d)); [tauto|].
  intros H. apply in_or_app. now left.
Qed.

Lemma dict_keys_set_new {V} (d : Dict.t V) (k : string) (v : V) :
  In k (Dict.keys (Dict.set d k v)).
Proof.
  rewrite dict_keys_set. destruct (str_in k (Dict.keys d)) eqn:E.
  - now apply str_in_true.
  - apply in_or_app. right. now left.
Qed.

Lemma dict_set_in {V} (d : Dict.t V) (k k' : string) (v v' : V) :
  In (k, v) (Dict.set d k' v') -> (k = k' /\ v = v') \/ In (k, v) d.
Proof.
  induction d as [|[k0 v0] d IH]; cbn.
  - intros [[= <- <-]|[]]. now left.
  - destruct (String.eqb k' k0) eqn:E; cbn.
    + apply String.eqb_eq in E. subst k0.
      intros [[= <- <-]|H]; [now left | right; now right].
    + intros [H|H]; [right; now left|].
      destruct (IH H) as [H'|H']; [now left | right; now right].
Qed.

Lemma load_maps_origin (fs : filesystem) (elements : Dict.t string)
      (maps : list string) :
  forall datas d k a,
    load_maps fs elements maps datas = Ok d ->
    In (k, a) d ->
    In (k, a) datas
    \/ exists f i, In f maps /\ map_index f = Ok i
                   /\ Dict.get elements i = Ok k /\ loadtxt fs f = Ok a.
Proof.
  induction maps as [|f rest IH]; cbn [load_maps]; intros datas d k a H Hin.
  - injection H as <-. now left.
  - destruct (map_index f) as [e|i] eqn:Ei; cbn [rbind] in H; [discriminate|].
    destruct (negb (str_in i (Dict.keys elements))).
    + destruct (IH _ _ _ _ H Hin) as [Hd|[g [j [Hg Hrest]]]]; [now left|].
      right. exists g, j. split; [now right | exact Hrest].
    + destruct (loadtxt fs f) as [e|arr] eqn:El; cbn [rbind] in H;
        [discriminate|].
      destruct (Dict.get elements i) as [e|lab] eqn:Eg; cbn [rbind] in H;
        [discriminate|].
      destruct (IH _ _ _ _ H Hin) as [Hd|[g [j [Hg Hrest]]]].
      * destruct (dict_set_in _ _ _ _ _ Hd) as [[-> ->]|Hd']; [|now left].
        right. exists f, i. split; [now left|]. repeat split; assumption.
      * right. exists g, j. split; [now right | exact Hrest].
Qed.

Lemma load_maps_app (fs : filesystem) (elements : Dict.t string)
      (l1 l2 : list string) :
  forall datas,
    load_maps fs elements (l1 ++ l2) datas
    = try d1 <- load_maps fs elements l1 datas;
      load_maps fs elements l2 d1.
Proof.
  induction l1 as [|f rest IH]; intros datas; [reflexivity|].
  cbn [app load_maps].
  destruct (map_index f) as [e|i]; cbn [rbind]; [reflexivity|].
  destruct (negb (str_in i (Dict.keys elements))); [apply IH|].
  destruct (loadtxt fs f) as [e|arr]; cbn [rbind]; [reflexivity|].
  destruct (Dict.get elements i) as [e|lab]; cbn [rbind]; [reflexivity|].
  apply IH.
Qed.

Lemma load_maps_without_file (fs : filesystem) (elements : Dict.t string)
      (before after : list string) (file_name index : string) :
  map_index file_name = Ok index ->
  ~ In index (Dict.keys elements) ->
  forall datas,
    load_maps fs elements (before ++ file_name :: after) datas
    = load_maps fs elements (before ++ after) datas.
Proof.
  intros Hi Hn datas. rewrite !load_maps_app.
  destruct (load_maps fs elements before datas) as [e|d1]; cbn [rbind];
    [reflexivity|].
  cbn [load_maps]. rewrite Hi. cbn [rbind].
  apply str_in_false in Hn. now rewrite Hn.
Qed.

Lemma load_maps_same_files (fs fs' : filesystem) (elements : Dict.t string)
      (maps : list string) :
  (forall f, In f maps -> loadtxt fs' f = loadtxt fs f) ->
  forall datas,
    load_maps fs' elements maps datas = load_maps fs elements maps datas.
Proof.
  induction maps as [|f rest IH]; intros Hl datas; [reflexivity|].
  assert (Hrest : forall g, In g rest -> loadtxt fs' g = loadtxt fs g)
    by (intros g Hg; apply Hl; now right).
  cbn [load_maps].
  destruct (map_index f) as [e|i]; [reflexivity|]. cbn [rbind].
  destruct (negb (str_in i (Dict.keys elements))); [now apply IH|].
  rewrite (Hl f (or_introl eq_refl)).
  destruct (loadtxt fs f) as [e|arr]; [reflexivity|]. cbn [rbind].
  destruct (Dict.get elements i) as [e|lab]; [reflexivity|]. cbn [rbind].
  now apply IH.
Qed.

(** The loop returns when every matched file can be read. *)
Lemma load_maps_returns (fs : filesystem) (elements : Dict.t string)
      (maps : list string) :
  (forall f i, In f maps -> map_index f = Ok i ->
               In i (Dict.keys elements) -> exists a, loadtxt fs f = Ok a) ->
  forall datas, exists d, load_maps fs elements maps datas = Ok d.
Proof.
  induction maps as [|f rest IH]; intros Hl datas;
    [eexists; reflexivity|].
  assert (Hrest : forall g i, In g rest -> map_index g = Ok i ->
                              In i (Dict.keys elements) ->
                              exists a, loadtxt fs g = Ok a)
    by (intros g i Hg; apply Hl; now right).
  cbn [load_maps]. destruct (map_index_total f) as [i Hi].
  rewrite Hi. cbn [rbind].
  destruct (str_in i (Dict.keys elements)) eqn:E; cbn [negb].
  - apply str_in_true in E.
    destruct (Hl f i (or_introl eq_refl) Hi E) as [a ->]. cbn [rbind].
    destruct (dict_get_in _ _ E) as [lab ->]. cbn [rbind].
    now apply IH.
  - now apply IH.
Qed.

(** The label of every matched file is a key of the dataset. *)
Lemma load_maps_keys (fs : filesystem) (elements : Dict.t string)
      (maps : list string) :
  forall datas d,
    load_maps fs elements maps datas = Ok d ->
    (forall k, In k (Dict.keys datas) -> In k (Dict.keys d))
    /\ (forall f i k, In f maps -> map_index f = Ok i ->
                      Dict.get elements i = Ok k -> In k (Dict.keys d)).
Proof.
  induction maps as [|f rest IH]; cbn [load_maps]; intros datas d H.
  - injection H as <-. split; [tauto | intros f i k []].
  - destruct (map_index f) as [e|i] eqn:Ei; cbn [rbind] in H;
      [discriminate|].
    destruct (str_in i (Dict.keys elements)) eqn:E; cbn [negb] in H.
    + destruct (loadtxt fs f) as [e|arr]; cbn [rbind] in H; [discriminate|].
      destruct (Dict.get elements i) as [e|lab] eqn:Eg; cbn [rbind] in H;
        [discriminate|].
      destruct (IH _ _ H) as [Hold Hnew]. split.
      * intros k Hk. apply Hold. now apply dict_keys_set_old.
      * intros g j k [<-|Hg] Hj Hk.
        -- rewrite Ei in Hj. injection Hj as <-.
           rewrite Eg in Hk. injection Hk as <-.
           apply Hold. apply dict_keys_set_new.
        -- now apply (Hnew g j k).
    + destruct (IH _ _ H) as [Hold Hnew]. split; [exact Hold|].
      intros g j k [<-|Hg] Hj Hk.
      * rewrite Ei in Hj. injection Hj as <-.
        apply dict_get_found in Hk. apply (in_map fst) in Hk.
        apply str_in_false in E. contradiction.
      * now apply (Hnew g j k).
Qed.

(** The map of a label is the content of the last file of that label. *)
Lemma load_maps_last (fs : filesystem) (elements : Dict.t string)
      (before after : list string) (f i k : string) (a : ndarray) :
  map_index f = Ok i ->
  Dict.get elements i = Ok k ->
  loadtxt fs f = Ok a ->
  (forall g j, In g after -> map_index g = Ok j ->
               Dict.get elements j <> Ok k) ->
  forall datas d,
    load_maps fs elements (before ++ f :: after) datas = Ok d ->
    Dict.get d k = Ok a.
Proof.
  intros Hi Hk Hl Hafter datas d. rewrite load_maps_app.
  destruct (load_maps fs elements before datas) as [e|d1]; cbn [rbind];
    [discriminate|].
  cbn [load_maps]. rewrite Hi. cbn [rbind].
  assert (Hin : str_in i (Dict.keys elements) = true).
  { apply str_in_true. apply dict_get_found in Hk.
    apply (in_map fst) in Hk. exact Hk. }
  rewrite Hin, Hl, Hk. cbn [negb rbind].
  assert (G : forall datas0,
             Dict.get datas0 k = Ok a ->
             load_maps fs elements after datas0 = Ok d ->
             Dict.get d k = Ok a).
  { induction after as [|g rest IH]; cbn [load_maps];
      intros datas0 Hd H.
    - now injection H as <-.
    - destruct (map_index g) as [e|j] eqn:Ej; cbn [rbind] in H;
        [discriminate|].
      assert (Hrest : forall g' j', In g' rest -> map_index g' = Ok j' ->
                                    Dict.get elements j' <> Ok k)
        by (intros g' j' Hg'; apply Hafter; now right).
      destruct (negb (str_in j (Dict.keys elements)));
        [now apply (IH Hrest datas0)|].
      destruct (loadtxt fs g) as [e|arr]; cbn [rbind] in H; [discriminate|].
      destruct (Dict.get elements j) as [e|lab] eqn:Eg; cbn [rbind] in H;
        [discriminate|].
      apply (IH Hrest (Dict.set datas0 lab arr)); [|exact H].
      rewrite dict_get_set_other; [exact Hd|].
      intros ->. apply (Hafter g j (or_introl eq_refl) Ej). exact Eg. }
  apply G. apply dict_get_set_same.
Qed.

(** C5.  A data file whose index token is no key of the metadata mapping
    is skipped, and it is never opened.  When the other matched files can
    be read, [read_data] returns a dataset, the one it returns on the
    same directory without that file.  Every entry of the dataset comes
    from another file, whose index is in the mapping; the label of every
    other matched file is a key, and its map is the content of the last
    file of that label in the listing. *)
Theorem read_data_skips_unmatched
        (fs fs' : filesystem) (loc : string) (exclude : option (list string))
        (elements : Dict.t string) (before after : list string)
        (file_name index : string) :
  glob fs (loc ++ "*.txt") = before ++ file_name :: after ->
  glob fs' (loc ++ "*.txt") = before ++ after ->
  glob fs' (loc ++ "*.pm") = glob fs (loc ++ "*.pm") ->
  (forall f, In f (before ++ after) -> loadtxt fs' f = loadtxt fs f) ->
  elements_of (or_empty exclude) (glob fs (loc ++ "*.pm")) [] = Ok elements ->
  map_index file_name = Ok index ->
  ~ In index (Dict.keys elements) ->
  (forall f i, In f (before ++ after) -> map_index f = Ok i ->
               In i (Dict.keys elements) -> exists a, loadtxt fs f = Ok a) ->
  exists d,
    read_data fs loc exclude = Ok d
    /\ read_data fs' loc exclude = Ok d
    /\ (forall k a, In (k, a) d ->
          exists f i, In f (before ++ after) /\ map_index f = Ok i
                      /\ Dict.get elements i = Ok k /\ loadtxt fs f = Ok a)
    /\ (forall f i k, In f (before ++ after) -> map_index f = Ok i ->
                      Dict.get elements i = Ok k -> In k (Dict.keys d))
    /\ (forall l1 f l2 i k a,
          before ++ after = l1 ++ f :: l2 ->
          map_index f = Ok i -> Dict.get elements i = Ok k ->
          loadtxt fs f = Ok a ->
          (forall g j, In g l2 -> map_index g = Ok j ->
                       Dict.get elements j <> Ok k) ->
          Dict.get d k = Ok a).
Proof.
  intros Hg Hg' Hpm Hl He Hi Hn Hload.
  destruct (load_maps_returns fs elements (before ++ after) Hload [])
    as [d Hd].
  exists d. unfold read_data. rewrite Hg, Hg', Hpm.
  change (match exclude with None => [] | Some e => e end)
    with (or_empty exclude).
  rewrite He. cbn [rbind].
  rewrite (load_maps_without_file fs elements before after file_name index
             Hi Hn), (load_maps_same_files fs fs' elements _ Hl), Hd.
  split; [reflexivity|]. split; [reflexivity|]. split; [|split].
  - intros k a Hin.
    destruct (load_maps_origin _ _ _ _ _ _ _ Hd Hin) as [[]|H]. exact H.
  - apply (load_maps_keys _ _ _ _ _ Hd).
  - intros l1 f l2 i k a Hsplit Hfi Hk Hf Hlast. rewrite Hsplit in Hd.
    apply (load_maps_last fs elements l1 l2 f i k a Hfi Hk Hf Hlast [] d Hd).
Qed.

(** ** The renderer, step by step *)

Lemma bind_ok {A B} (m : M A) (k : A -> M B) (s s' : pyplot) (a : A) :
  m s = (Ok a, s') -> bind m k s = k a s'.
Proof. intros H. unfold bind. now rewrite H. Qed.

Lemma bind_raise {A B} (m : M A) (k : A -> M B) (s s' : pyplot) (e : pyerr) :
  m s = (Raise e, s') -> bind m k s = (Raise e, s').
Proof. intros H. unfold bind. now rewrite H. Qed.

Lemma bind_ret {A B} (a : A) (k : A -> M B) (s : pyplot) :
  bind (ret a) k s = k a s.
Proof. reflexivity. Qed.

Lemma bind_throw {A B} (e : pyerr) (k : A -> M B) (s : pyplot) :
  bind (throw e) k s = (Raise e, s).
Proof. reflexivity. Qed.

Lemma bind_assoc {A B C} (m : M A) (f : A -> M B) (k : B -> M C)
      (s : pyplot) :
  bind (bind m f) k s = bind m (fun a => bind (f a) k) s.
Proof. unfold bind. destruct (m s) as [[e|a] s']; reflexivity. Qed.

Lemma bind_lift {A B} (r : result A) (k : A -> M B) (s : pyplot) :
  bind (lift r) k s
  = match r with Raise e => (Raise e, s) | Ok a => k a s end.
Proof. unfold bind, lift. now destruct r. Qed.

Section HeadFigure.
Variables (c : list string) (n : nat) (kw : kwargs) (t : bool).
Variables (rest : list (nat * figure)) (sv : list (string * Z * figure)).

Local Notation "'cur'" := (current c n kw t rest sv).

Lemma on_axes_current (id : nat) (a : axes) (axs : list (nat * axes))
      (f : axes -> axes) :
  on_axes (n, id) f (cur ((id, a) :: axs))
  = (Ok tt, cur ((id, f a) :: axs)).
Proof.
  unfold on_axes, on_fig, with_figs, current, map_axes. cbn.
  now rewrite !Nat.eqb_refl.
Qed.

Lemma bind_on_axes_current {B} (id : nat) (a : axes)
      (axs : list (nat * axes)) (f : axes -> axes) (k : unit -> M B) :
  bind (on_axes (n, id) f) k (cur ((id, a) :: axs))
  = k tt (cur ((id, f a) :: axs)).
Proof. apply bind_ok, on_axes_current. Qed.

Lemma add_subplot_current (cell : option subplotspec)
      (axs : list (nat * axes)) :
  add_subplot n cell (cur axs)
  = (Ok (n, List.length axs),
     cur ((List.length axs, new_axes cell) :: axs)).
Proof.
  unfold add_subplot, with_figs, current, map_axes. cbn.
  now rewrite !Nat.eqb_refl.
Qed.

Lemma pcolormesh_current (id : nat) (a : axes) (axs : list (nat * axes))
      (xy : mesh) (C : ndarray) (cmap : string) (vmin vmax : option float)
      (kw' : kwargs) :
  pcolormesh (n, id) xy C cmap vmin vmax kw' (cur ((id, a) :: axs))
  = match quadmesh_for c xy C cmap vmin vmax kw' with
    | Raise e => (Raise e, cur ((id, a) :: axs))
    | Ok im => (Ok (n, id), cur ((id, set_image im a) :: axs))
    end.
Proof.
  unfold pcolormesh. cbn [colormaps current].
  destruct (quadmesh_for c xy C cmap vmin vmax kw'); [reflexivity|].
  now rewrite on_axes_current.
Qed.

Lemma draw_with_limits_current (id : nat) (a : axes)
      (axs : list (nat * axes)) (xy : mesh) (C : ndarray)
      (cm : Dict.t string) (lims : Dict.t (float * float)) (key : string)
      (kw' : kwargs) :
  draw_with_limits (n, id) xy C cm lims key kw' (cur ((id, a) :: axs))
  = match image_with_limits c xy C cm lims key kw' with
    | Raise e => (Raise e, cur ((id, a) :: axs))
    | Ok im => (Ok (n, id), cur ((id, set_image im a) :: axs))
    end.
Proof.
  unfold draw_with_limits, image_with_limits, bind, lift.
  destruct (str_in key (Dict.keys lims)).
  - destruct (Dict.get cm key); cbn [rbind]; [reflexivity|].
    destruct (Dict.get lims key); cbn [rbind]; [reflexivity|].
    apply pcolormesh_current.
  - destruct (Dict.get cm key); cbn [rbind]; [reflexivity|].
    apply pcolormesh_current.
Qed.
End HeadFigure.

Lemma plt_subplots_run (s : pyplot) :
  plt_subplots s
  = (Ok (next_num (figs s), (next_num (figs s), 0%nat)),
     current (colormaps s) (next_num (figs s)) [] false (figs s) (saved s)
             [(0%nat, new_axes None)]).
Proof.
  destruct s as [c fs sv]. unfold plt_subplots.
  cbn [colormaps figs saved].
  assert (H0 : plt_figure [] {| colormaps := c; figs := fs; saved := sv |}
               = (Ok (next_num fs), current c (next_num fs) [] false fs sv []))
    by reflexivity.
  rewrite (bind_ok _ _ _ _ _ H0).
  rewrite (bind_ok _ _ _ _ _
             (add_subplot_current c (next_num fs) [] false fs sv None [])).
  reflexivity.
Qed.

Lemma individual_figure_run (xy : mesh) (cm : Dict.t string)
      (lims : Dict.t (float * float)) (label extension key : string)
      (values : ndarray) (s : pyplot) :
  individual_figure xy cm lims label extension (key, values) s
  = match image_with_limits (colormaps s) xy (rotate_m90 values)
                            cm lims key [] with
    | Raise e =>
        (Raise e,
         current (colormaps s) (next_num (figs s)) [] false (figs s) (saved s)
                 [(0%nat, new_axes None)])
    | Ok im =>
        match savefig_file (individual_name label extension key) with
        | Raise e =>
            (Raise e,
             current (colormaps s) (next_num (figs s)) [] true (figs s)
                     (saved s) [(0%nat, individual_axes im key)])
        | Ok file =>
            (Ok tt,
             {| colormaps := colormaps s; figs := figs s;
                saved := saved s ++ [(file, 300%Z,
                                      individual_render im key)] |})
        end
    end.
Proof.
  unfold individual_figure.
  rewrite (bind_ok _ _ _ _ _ (plt_subplots_run s)).
  destruct s as [c fs sv].
  cbn [fst snd colormaps figs saved].
  unfold bind at 1. rewrite draw_with_limits_current.
  destruct (image_with_limits c xy (rotate_m90 values) cm lims key [])
    as [e|im]; [reflexivity|].
  unfold axis_scaled, set_title, set_xlabel, set_ylabel, fig_colorbar.
  repeat (unfold bind at 1; rewrite on_axes_current).
  unfold plt_tight_layout, plt_gcf, fig_savefig, plt_close, bind, on_fig,
    with_figs, current.
  cbn [figs colormaps saved update lookup fst snd].
  rewrite !Nat.eqb_refl.
  cbn [figs colormaps saved update lookup fst snd].
  rewrite !Nat.eqb_refl.
  change (individual_name label extension key)
    with (label ++ "_" ++ key ++ extension)%string.
  destruct (savefig_file (label ++ "_" ++ key ++ extension)) as [e|file];
    reflexivity.
Qed.

(** The first loop writes the files of [individual_files] and, when no
    draw call raises, leaves the registry of open figures as it found it. *)
Lemma for_each_individual (xy : mesh) (cm : Dict.t string)
      (lims : Dict.t (float * float)) (label extension : string)
      (items : list (string * ndarray)) :
  forall s, exists s',
    for_each (individual_figure xy cm lims label extension) items s
    = (snd (individual_files (colormaps s) xy cm lims label extension items),
       s')
    /\ colormaps s' = colormaps s
    /\ saved s'
       = saved s
         ++ fst (individual_files (colormaps s) xy cm lims label extension
                                  items)
    /\ (snd (individual_files (colormaps s) xy cm lims label extension items)
        = Ok tt -> figs s' = figs s).
Proof.
  induction items as [|[key values] rest IH]; intros s.
  - exists s. cbn. rewrite app_nil_r. now destruct s.
  - cbn [for_each individual_files]. unfold bind at 1.
    rewrite individual_figure_run.
    destruct (image_with_limits (colormaps s) xy (rotate_m90 values)
                                cm lims key []) as [e|im].
    + eexists. split; [reflexivity|]. cbn. rewrite app_nil_r.
      repeat split. discriminate.
    + destruct (savefig_file (individual_name label extension key))
        as [e|file].
      * eexists. split; [reflexivity|]. cbn. rewrite app_nil_r.
        repeat split. discriminate.
      * match goal with |- context [for_each _ rest ?s0] =>
          destruct (IH s0) as [s' [Hr [Hc [Hs Hf]]]] end.
        cbn [colormaps saved figs] in *.
        exists s'. rewrite Hr. cbn [fst snd].
        split; [reflexivity|]. split; [exact Hc|].
        split; [|exact Hf].
        rewrite Hs, <- app_assoc. reflexivity.
Qed.

Section GridLoop.
Variables (c : list string) (n : nat) (kwf : kwargs) (t : bool).
Variables (rest : list (nat * figure)) (sv : list (string * Z * figure)).
Variables (gs : gridspec) (rows columns : Z) (xy : mesh).
Variables (cm : Dict.t string) (lims : Dict.t (float * float)) (kw : kwargs).

(** The second loop builds the axes of [grid_axes] in the current
    figure and touches nothing else. *)
Lemma grid_loop_run (items : list (string * ndarray)) :
  forall i j axs, exists axs',
    grid_loop n gs rows columns xy cm lims kw items i j
              (current c n kwf t rest sv axs)
    = (outcome (grid_axes c gs rows columns xy cm lims kw items i j axs),
       current c n kwf t rest sv axs')
    /\ (forall r, grid_axes c gs rows columns xy cm lims kw items i j axs
                  = Ok r -> axs' = r).
Proof.
  induction items as [|[key values] more IH]; intros i j axs.
  - exists axs. cbn. split; [reflexivity|]. now intros r [= <-].
  - cbn [grid_loop grid_axes].
    destruct (String.eqb key "CP"); [apply IH|].
    unfold bind at 1, lift at 1.
    destruct (gs_getitem gs i j) as [e|cell]; cbn [rbind].
    { exists axs. split; [reflexivity | discriminate]. }
    rewrite (bind_ok _ _ _ _ _
               (add_subplot_current c n kwf t rest sv (Some cell) axs)).
    unfold bind at 1. rewrite draw_with_limits_current.
    destruct (image_with_limits c xy (rotate_m90 values) cm lims key kw)
      as [e|im]; cbn [rbind].
    { eexists. split; [reflexivity | discriminate]. }
    unfold axis_scaled, set_title, set_xlabel, set_ylabel, fig_colorbar.
    rewrite !bind_on_axes_current.
    unfold next_cell, grid_axes_of.
    destruct (columns =? 0)%Z eqn:Ec.
    + cbn [rbind outcome].
      destruct (j =? 0)%Z, (i + 1 =? rows)%Z;
        rewrite ?bind_on_axes_current, ?bind_ret, ?bind_on_axes_current,
          ?bind_ret, ?bind_throw;
        (eexists; split; [reflexivity | discriminate]).
    + destruct ((j + 1) mod columns =? 0)%Z;
        cbn [rbind fst snd];
        destruct (j =? 0)%Z, (i + 1 =? rows)%Z;
        rewrite ?bind_on_axes_current, ?bind_ret, ?bind_on_axes_current,
          ?bind_ret, ?bind_on_axes_current;
        cbn [fst snd];
        apply IH.
Qed.
End GridLoop.

Lemma plt_savefig_current (c : list string) (n : nat) (g : figure)
      (rest : list (nat * figure)) (sv : list (string * Z * figure))
      (name : string) (dpi : Z) :
  plt_savefig name dpi {| colormaps := c; figs := (n, g) :: rest; saved := sv |}
  = match savefig_file name with
    | Raise e =>
        (Raise e, {| colormaps := c; figs := (n, g) :: rest; saved := sv |})
    | Ok file =>
        (Ok tt, {| colormaps := c; figs := (n, g) :: rest;
                   saved := sv ++ [(file, dpi, g)] |})
    end.
Proof.
  unfold plt_savefig, plt_gcf, fig_savefig, bind. cbn.
  rewrite Nat.eqb_refl. now destruct (savefig_file name).
Qed.

(** The second loop followed by the save of line 189. *)
Lemma grid_loop_saved (c : list string) (num : nat) (kwfig : kwargs)
      (fs : list (nat * figure)) (sv : list (string * Z * figure))
      (gs : gridspec) (rows columns : Z) (xy : mesh) (cm : Dict.t string)
      (lims : Dict.t (float * float)) (kw : kwargs)
      (items : list (string * ndarray))
      (name : string) (i j : Z) (axs : list (nat * axes)) :
  exists s',
    (grid_loop num gs rows columns xy cm lims kw items i j;;
     plt_savefig name 300) (current c num kwfig false fs sv axs)
    = (outcome (try r <- grid_axes c gs rows columns xy cm lims kw items
                                   i j axs;
                savefig_file name), s')
    /\ colormaps s' = c
    /\ (forall r file,
           grid_axes c gs rows columns xy cm lims kw items i j axs = Ok r ->
           savefig_file name = Ok file ->
           s' = {| colormaps := c;
                   figs := (num, {| fig_kwargs := kwfig; fig_axes := r;
                                    fig_tight := false |}) :: fs;
                   saved := sv ++ [(file, 300%Z,
                                    {| fig_kwargs := kwfig; fig_axes := r;
                                       fig_tight := false |})] |})
    /\ (forall e,
           (try r <- grid_axes c gs rows columns xy cm lims kw items i j axs;
            savefig_file name) = Raise e ->
           saved s' = sv).
Proof.
  destruct (grid_loop_run c num kwfig false fs sv gs rows columns xy cm lims
              kw items i j axs) as [axs' [Hrun Hok]].
  destruct (grid_axes c gs rows columns xy cm lims kw items i j axs)
    as [e|r] eqn:Eg.
  - rewrite (bind_raise _ _ _ _ _ Hrun). cbn [outcome rbind].
    eexists. split; [reflexivity|]. split; [reflexivity|].
    split; [discriminate | reflexivity].
  - rewrite (bind_ok _ _ _ _ _ Hrun). rewrite (Hok r eq_refl).
    unfold current. rewrite plt_savefig_current. cbn [rbind].
    destruct (savefig_file name) as [e|file]; cbn [outcome].
    + eexists. split; [reflexivity|]. split; [reflexivity|].
      split; [discriminate | reflexivity].
    + eexists. split; [reflexivity|]. split; [reflexivity|].
      split; [|discriminate]. now intros r' file' [= <-] [= <-].
Qed.

(** The combined figure: built as [combined_render] describes, saved
    once, and left open. *)
Lemma combined_figure_run (datas : Dict.t ndarray) (xy : mesh)
      (cm : Dict.t string) (lims : Dict.t (float * float))
      (label extension : string)
      (kwfig kwgrid kwimshow : kwargs) (grid : Z * Z) (s : pyplot) :
  exists s',
    combined_figure datas xy cm lims label extension kwfig kwgrid kwimshow
                    grid s
    = (outcome (try g <- combined_render (colormaps s) datas xy cm lims
                                         kwfig kwgrid kwimshow grid;
                savefig_file (combined_name label extension)), s')
    /\ colormaps s' = colormaps s
    /\ (forall g file,
           combined_render (colormaps s) datas xy cm lims kwfig kwgrid
                           kwimshow grid = Ok g ->
           savefig_file (combined_name label extension) = Ok file ->
           s' = {| colormaps := colormaps s;
                   figs := (next_num (figs s), g) :: figs s;
                   saved := saved s ++ [(file, 300%Z, g)] |})
    /\ (forall e,
           (try g <- combined_render (colormaps s) datas xy cm lims kwfig
                                     kwgrid kwimshow grid;
            savefig_file (combined_name label extension)) = Raise e ->
           saved s' = saved s).
Proof.
  destruct s as [c fs sv]. destruct grid as [rows columns].
  unfold combined_figure, combined_render. cbn [fst snd colormaps figs saved].
  set (num := next_num fs).
  set (gs := {| gs_rows := rows; gs_columns := columns;
                gs_kwargs := kwgrid |}).
  assert (H0 : plt_figure kwfig {| colormaps := c; figs := fs; saved := sv |}
               = (Ok num, current c num kwfig false fs sv [])) by reflexivity.
  rewrite (bind_ok _ _ _ _ _ H0). unfold add_gridspec. fold gs.
  destruct ((rows <=? 0) || (columns <=? 0))%Z%bool.
  { rewrite bind_throw. eexists. split; [reflexivity|].
    split; [reflexivity|]. split; [discriminate | reflexivity]. }
  rewrite bind_ret.
  assert (Hloop : forall j axs,
    exists s',
      (grid_loop num gs rows columns xy cm lims kwimshow (Dict.items datas)
                 0 j;;
       plt_savefig (label ++ "_all" ++ extension) 300)
        (current c num kwfig false fs sv axs)
      = (outcome
           (try g <- (try axs' <- grid_axes c gs rows columns xy cm lims
                                            kwimshow (Dict.items datas) 0 j
                                            axs;
                      Ok {| fig_kwargs := kwfig; fig_axes := axs';
                            fig_tight := false |});
            savefig_file (combined_name label extension)), s')
      /\ colormaps s' = c
      /\ (forall g file,
             (try axs' <- grid_axes c gs rows columns xy cm lims kwimshow
                                    (Dict.items datas) 0 j axs;
              Ok {| fig_kwargs := kwfig; fig_axes := axs';
                    fig_tight := false |}) = Ok g ->
             savefig_file (combined_name label extension) = Ok file ->
             s' = {| colormaps := c; figs := (num, g) :: fs;
                     saved := sv ++ [(file, 300%Z, g)] |})
      /\ (forall e,
             (try g <- (try axs' <- grid_axes c gs rows columns xy cm lims
                                              kwimshow (Dict.items datas) 0 j
                                              axs;
                        Ok {| fig_kwargs := kwfig; fig_axes := axs';
                              fig_tight := false |});
              savefig_file (combined_name label extension)) = Raise e ->
             saved s' = sv)).
  { intros j axs.
    destruct (grid_loop_saved c num kwfig fs sv gs rows columns xy cm lims
                kwimshow (Dict.items datas) (label ++ "_all" ++ extension)
                0 j axs) as [s' [Hrun [Hc [Hok Herr]]]].
    exists s'. rewrite Hrun.
    change (label ++ "_all" ++ extension)%string
      with (combined_name label extension) in *.
    destruct (grid_axes c gs rows columns xy cm lims kwimshow
                        (Dict.items datas) 0 j axs) as [e|r];
      cbn [rbind outcome] in *.
    - split; [reflexivity|]. split; [exact Hc|].
      split; [discriminate|]. intros e' _. now apply (Herr e).
    - split; [reflexivity|]. split; [exact Hc|].
      split; [|exact Herr]. intros g file [= <-] Hfile. now apply Hok. }
  destruct (str_in "CP" (Dict.keys datas)).
  - rewrite bind_assoc, bind_lift.
    destruct (gs_getitem gs 0 0) as [e|cell]; cbn [rbind].
    { eexists. split; [reflexivity|]. split; [reflexivity|].
      split; [discriminate | reflexivity]. }
    rewrite bind_assoc.
    rewrite (bind_ok _ _ _ _ _
               (add_subplot_current c num kwfig false fs sv (Some cell) [])).
    rewrite bind_assoc, bind_lift.
    destruct (Dict.get datas "CP") as [e|cp]; cbn [rbind].
    { eexists. split; [reflexivity|]. split; [reflexivity|].
      split; [discriminate | reflexivity]. }
    rewrite bind_assoc. cbn [List.length].
    unfold bind at 1. rewrite pcolormesh_current.
    destruct (quadmesh_for c xy (rotate_m90 cp) "Greys_r" None None [])
      as [e|im]; cbn [rbind].
    { eexists. split; [reflexivity|]. split; [reflexivity|].
      split; [discriminate | reflexivity]. }
    unfold fig_colorbar, axis_scaled, set_ylabel.
    rewrite !bind_assoc, !bind_on_axes_current.
    rewrite !bind_assoc, !bind_on_axes_current.
    rewrite ?bind_assoc, ?bind_on_axes_current.
    rewrite bind_ret. cbn [fst snd].
    apply Hloop.
  - rewrite bind_ret. cbn [rbind fst snd]. apply Hloop.
Qed.

(** The whole call: it ends as [rendered] says, appends the files of
    [rendered] to those already written, and, when it returns, leaves open
    the figures it found open, plus the combined figure if one was asked
    for. *)
Lemma map_series_run (datas : Dict.t ndarray) (o : options) (s : pyplot) :
  exists s',
    map_series datas o s = (snd (rendered (colormaps s) datas o), s')
    /\ colormaps s' = colormaps s
    /\ saved s' = saved s ++ fst (rendered (colormaps s) datas o)
    /\ (snd (rendered (colormaps s) datas o) = Ok tt ->
        match figure_grid o with
        | None => figs s' = figs s
        | Some _ => exists g, figs s' = (next_num (figs s), g) :: figs s
        end).
Proof.
  unfold map_series, rendered, prepare.
  rewrite bind_lift.
  destruct (py_index (Dict.values datas) 0) as [e|first]; cbn [rbind].
  { exists s. cbn. rewrite app_nil_r. repeat split. discriminate. }
  rewrite bind_lift.
  destruct (arange (fst (shape first)) (fst (pixel_size o))) as [e|xs];
    cbn [rbind].
  { exists s. cbn. rewrite app_nil_r. repeat split. discriminate. }
  rewrite bind_lift.
  destruct (arange (snd (shape first)) (snd (pixel_size o))) as [e|ys];
    cbn [rbind].
  { exists s. cbn. rewrite app_nil_r. repeat split. discriminate. }
  rewrite bind_lift.
  destruct (assign_colormap (color_map o) datas) as [e|cm]; cbn [rbind].
  { exists s. cbn. rewrite app_nil_r. repeat split. discriminate. }
  set (xy := flip_y (meshgrid xs ys)).
  destruct (for_each_individual xy cm (or_empty (limits o)) (label o)
              (extension o) (Dict.items datas) s)
    as [s1 [Hrun [Hc [Hs Hf]]]].
  destruct (individual_files (colormaps s) xy cm (or_empty (limits o))
              (label o) (extension o) (Dict.items datas)) as [files r].
  cbn [fst snd] in *.
  destruct r as [e|[]].
  { rewrite (bind_raise _ _ _ _ _ Hrun). exists s1. cbn [fst snd].
    repeat split; try assumption. discriminate. }
  rewrite (bind_ok _ _ _ _ _ Hrun).
  destruct (figure_grid o) as [grid|].
  - destruct (combined_figure_run datas xy cm (or_empty (limits o)) (label o)
                (extension o) (or_empty (kwargs_for_fig o))
                (or_empty (kwargs_for_grid o))
                (or_empty (kwargs_for_imshow o)) grid s1)
      as [s2 [Hrun2 [Hc2 [Hok Herr]]]].
    rewrite Hc in *. rewrite Hrun2.
    destruct (combined_render (colormaps s) datas xy cm (or_empty (limits o))
                (or_empty (kwargs_for_fig o)) (or_empty (kwargs_for_grid o))
                (or_empty (kwargs_for_imshow o)) grid) as [e|g];
      cbn [rbind] in *.
    + exists s2. cbn [fst snd outcome].
      split; [reflexivity|]. split; [exact Hc2|].
      split; [|discriminate]. rewrite (Herr e eq_refl). exact Hs.
    + destruct (savefig_file (combined_name (label o) (extension o)))
        as [e|file].
      * exists s2. cbn [fst snd outcome].
        split; [reflexivity|]. split; [exact Hc2|].
        split; [|discriminate]. rewrite (Herr e eq_refl). exact Hs.
      * exists s2. cbn [fst snd outcome]. rewrite (Hok g file eq_refl eq_refl).
        cbn [colormaps saved figs].
        split; [reflexivity|]. split; [reflexivity|].
        split.
        -- rewrite Hs, <- app_assoc. reflexivity.
        -- intros _. exists g. now rewrite (Hf eq_refl).
  - exists s1. cbn [fst snd]. repeat split; try assumption.
Qed.

(** ** The colormap assignment *)

Lemma cycle_colormap_covers (l : list string) (len : Z) (keys : list string) :
  forall acc index cm k,
    cycle_colormap l len keys acc index = Ok cm ->
    In k keys \/ In k (Dict.keys acc) -> In k (Dict.keys cm).
Proof.
  induction keys as [|x rest IH]; cbn [cycle_colormap];
    intros acc index cm k H Hk.
  - injection H as <-. destruct Hk as [[]|Hk]. exact Hk.
  - destruct (String.eqb x "CP") eqn:E.
    + apply String.eqb_eq in E. subst x.
      apply (IH _ _ _ _ H). destruct Hk as [[<-|Hk]|Hk].
      * right. apply dict_keys_set_new.
      * now left.
      * right. now apply dict_keys_set_old.
    + destruct (if (len =? 0)%Z then Raise ZeroDivisionError
                else py_index l (index mod len)%Z) as [e|c0];
        cbn [rbind] in H; [discriminate|].
      apply (IH _ _ _ _ H). destruct Hk as [[<-|Hk]|Hk].
      * right. apply dict_keys_set_new.
      * now left.
      * right. now apply dict_keys_set_old.
Qed.

(** Every element of the dataset has a colormap once the assignment is
    built. *)
Lemma assign_colormap_covers (arg : color_map_arg) (datas : Dict.t ndarray)
      (cm : Dict.t string) (k : string) :
  assign_colormap arg datas = Ok cm ->
  In k (Dict.keys datas) -> exists c, Dict.get cm k = Ok c.
Proof.
  intros H Hk. apply dict_get_in. destruct arg as [c|l]; cbn in H.
  - injection H as <-.
    assert (G : forall keys acc,
               In k keys \/ In k (Dict.keys acc) ->
               In k (Dict.keys (fold_left (fun d x => Dict.set d x c)
                                          keys acc))).
    { induction keys as [|x rest IH]; cbn; intros acc [Hin|Hin].
      - destruct Hin.
      - exact Hin.
      - apply IH. destruct Hin as [<-|Hin]; [right|now left].
        apply dict_keys_set_new.
      - apply IH. right. now apply dict_keys_set_old. }
    apply G. now left.
  - eapply cycle_colormap_covers; [exact H | now left].
Qed.

(** ** Conditions under which every draw call succeeds *)

Lemma arange_ok (n m : nat) (step : float) :
  arange_length n step = Ok m ->
  exists l, arange n step = Ok l /\ List.length l = m.
Proof.
  intros H. unfold arange. rewrite H. cbn [rbind].
  eexists. split; [reflexivity|].
  now rewrite length_map, length_seq.
Qed.

Lemma arange_raises (n : nat) (step : float) (e : pyerr) :
  arange_length n step = Raise e -> arange n step = Raise e.
Proof. intros H. unfold arange. now rewrite H. Qed.

(** The mesh has as many columns as the first range has points and as
    many rows as the second. *)
Lemma prepare_built (datas : Dict.t ndarray) (o : options) (key : string)
      (first : ndarray) (more : Dict.t ndarray) (cm : Dict.t string)
      (m n : nat) :
  datas = (key, first) :: more ->
  arange_length (nrows first) (fst (pixel_size o)) = Ok m ->
  arange_length (ncols first) (snd (pixel_size o)) = Ok n ->
  assign_colormap (color_map o) datas = Ok cm ->
  exists xy, prepare datas o = Ok (xy, cm) /\ mesh_shape xy = (n, m).
Proof.
  intros -> Hx Hy Hcm. unfold prepare. cbn [Dict.values map snd].
  rewrite py_index_head. cbn [rbind shape fst snd].
  destruct (arange_ok _ _ _ Hx) as [xs [-> Lx]].
  destruct (arange_ok _ _ _ Hy) as [ys [-> Ly]].
  cbn [rbind]. rewrite Hcm. cbn [rbind].
  eexists. split; [reflexivity|]. cbn. now rewrite Lx, Ly.
Qed.

Lemma prepare_ok (datas : Dict.t ndarray) (o : options) (key : string)
      (first : ndarray) (more : Dict.t ndarray) (cm : Dict.t string) :
  datas = (key, first) :: more ->
  mesh_fits (pixel_size o) first ->
  assign_colormap (color_map o) datas = Ok cm ->
  exists xy, prepare datas o = Ok (xy, cm)
             /\ mesh_shape xy = (ncols first, nrows first).
Proof.
  intros Hd [Hx Hy] Hcm.
  exact (prepare_built datas o key first more cm _ _ Hd Hx Hy Hcm).
Qed.

Lemma quadmesh_for_ok (registry : list string) (xy : mesh) (values : ndarray)
      (cmap : string) (vmin vmax : option float) (kw : kwargs) :
  mesh_shape xy = (ncols values, nrows values) ->
  In cmap registry ->
  exists im,
    quadmesh_for registry xy (rotate_m90 values) cmap vmin vmax kw = Ok im
    /\ qm_cmap im = cmap
    /\ qm_clim im
       = (match vmin with
          | Some v => Some v
          | None => option_map Z2float (amin (rotate_m90 values))
          end,
          match vmax with
          | Some v => Some v
          | None => option_map Z2float (amax (rotate_m90 values))
          end).
Proof.
  intros Hs Hc. unfold quadmesh_for. rewrite Hs.
  cbn [shape rotate_m90 nrows ncols fst snd]. rewrite !Nat.eqb_refl.
  apply str_in_true in Hc. rewrite Hc. cbn [andb negb].
  eexists. split; [reflexivity|]. split; reflexivity.
Qed.

Lemma image_with_limits_ok (registry : list string) (xy : mesh)
      (values : ndarray) (cm : Dict.t string) (lims : Dict.t (float * float))
      (key cmap : string) (kw : kwargs) :
  mesh_shape xy = (ncols values, nrows values) ->
  Dict.get cm key = Ok cmap ->
  In cmap registry ->
  exists im,
    image_with_limits registry xy (rotate_m90 values) cm lims key kw = Ok im
    /\ qm_cmap im = cmap.
Proof.
  intros Hs Hg Hc. unfold image_with_limits. rewrite Hg. cbn [rbind].
  destruct (str_in key (Dict.keys lims)) eqn:E.
  - apply str_in_true in E. destruct (dict_get_in _ _ E) as [lim ->].
    cbn [rbind].
    destruct (quadmesh_for_ok registry xy values cmap (Some (fst lim))
                (Some (snd lim)) kw Hs Hc) as [im [-> [H1 _]]].
    eauto.
  - destruct (quadmesh_for_ok registry xy values cmap None None kw Hs Hc)
      as [im [-> [H1 _]]].
    eauto.
Qed.

Lemma individual_files_ok (registry : list string) (xy : mesh)
      (cm : Dict.t string) (lims : Dict.t (float * float))
      (label extension : string) (items : list (string * ndarray)) :
  (forall key values, In (key, values) items ->
     exists im, image_with_limits registry xy (rotate_m90 values) cm lims
                                  key [] = Ok im) ->
  (forall key, In key (Dict.keys items) ->
     saved_as_named (individual_name label extension key)) ->
  snd (individual_files registry xy cm lims label extension items) = Ok tt
  /\ names (fst (individual_files registry xy cm lims label extension items))
     = map (individual_name label extension) (Dict.keys items).
Proof.
  induction items as [|[key values] rest IH]; intros H Hn.
  - split; reflexivity.
  - cbn [individual_files].
    destruct (H key values (or_introl eq_refl)) as [im ->].
    rewrite (Hn key (or_introl eq_refl)).
    destruct IH as [IH1 IH2].
    { intros k v Hin. apply H. now right. }
    { intros k Hin. apply Hn. now right. }
    cbn [fst snd names map Dict.keys]. split; [exact IH1|].
    f_equal. exact IH2.
Qed.

(** ** The renderer on well-formed and on empty input *)

Lemma map_series_no_element (o : options) (s : pyplot) :
  map_series [] o s = (Raise IndexError, s).
Proof.
  unfold map_series. rewrite bind_lift.
  cbn [Dict.values map]. now rewrite py_index_nil.
Qed.

(** C10.  On the empty dataset [map_series] raises [IndexError] while
    reading the shape of the first map: nothing is drawn, no file is
    written and the plotting state is untouched. *)
Theorem map_series_empty_dataset (o : options) (s : pyplot) :
  fst (map_series [] o s) = Raise IndexError
  /\ snd (map_series [] o s) = s.
Proof. now rewrite map_series_no_element. Qed.

(** C1, as the source has it.  With [color_map = ["A"; "B"]] and the
    elements Fe, Cu, CP, Mn in this order, the assignment built by
    [map_series] is Fe: A, Cu: B, CP: Greys, Mn: A.  CP gets the fixed
    colormap [Greys], not reversed, and takes no slot of the cycle. *)
Theorem assign_colormap_cycle (datas : Dict.t ndarray) :
  Dict.keys datas = ["Fe"; "Cu"; "CP"; "Mn"] ->
  assign_colormap (CmList ["A"; "B"]) datas
  = Ok [("Fe", "A"); ("Cu", "B"); ("CP", "Greys"); ("Mn", "A")].
Proof.
  intros H. unfold assign_colormap. rewrite H. reflexivity.
Qed.

Lemma assign_colormap_cycle_witness :
  assign_colormap (CmList ["A"; "B"])
    [("Fe", unit_map 1); ("Cu", unit_map 2); ("CP", unit_map 3);
     ("Mn", unit_map 4)]
  = Ok [("Fe", "A"); ("Cu", "B"); ("CP", "Greys"); ("Mn", "A")].
Proof.
  apply (assign_colormap_cycle
           [("Fe", unit_map 1); ("Cu", unit_map 2); ("CP", unit_map 3);
            ("Mn", unit_map 4)]).
  reflexivity.
Defined.

(** C1 as stated fails: the assignment does not give CP the reversed
    colormap. *)
Lemma assign_colormap_not_reversed :
  assign_colormap (CmList ["A"; "B"])
    [("Fe", unit_map 1); ("Cu", unit_map 2); ("CP", unit_map 3);
     ("Mn", unit_map 4)]
  <> Ok [("Fe", "A"); ("Cu", "B"); ("CP", "Greys_r"); ("Mn", "A")].
Proof. cbv. discriminate. Qed.

Section WellFormedCall.
Variables (datas : Dict.t ndarray) (o : options) (s : pyplot).
Variable cm : Dict.t string.

Hypothesis nonempty : datas <> [].
Hypothesis fits :
  forall a, In a (Dict.values datas) -> mesh_fits (pixel_size o) a.
Hypothesis same_shape :
  forall a b, In a (Dict.values datas) -> In b (Dict.values datas) ->
              shape a = shape b.
Hypothesis assigned : assign_colormap (color_map o) datas = Ok cm.
Hypothesis registered :
  forall k c, In k (Dict.keys datas) -> Dict.get cm k = Ok c ->
              In c (colormaps s).
Hypothesis named :
  forall k, In k (Dict.keys datas) ->
            saved_as_named (individual_name (label o) (extension o) k).

Lemma in_dict_key_value (k : string) (v : ndarray) :
  In (k, v) datas -> In k (Dict.keys datas) /\ In v (Dict.values datas).
Proof.
  intros H. split.
  - apply (in_map fst) in H. exact H.
  - apply (in_map snd) in H. exact H.
Qed.

(** Under these conditions the mesh fits every element and every
    element can be drawn. *)
Lemma well_formed_prepare :
  exists xy,
    prepare datas o = Ok (xy, cm)
    /\ (forall k v, In (k, v) datas ->
                    mesh_shape xy = (ncols v, nrows v))
    /\ (forall k v kw, In (k, v) datas ->
          exists im,
            image_with_limits (colormaps s) xy (rotate_m90 v) cm
                              (or_empty (limits o)) k kw = Ok im).
Proof.
  clear named.
  destruct datas as [|[key first] more] eqn:Ed; [congruence|].
  destruct (prepare_ok _ o key first more cm eq_refl
                       (fits first (or_introl eq_refl)) assigned)
    as [xy [Hp Hs]].
  exists xy. split; [exact Hp|].
  assert (Hshape : forall k v, In (k, v) ((key, first) :: more) ->
                               mesh_shape xy = (ncols v, nrows v)).
  { intros k v Hin. rewrite Hs.
    assert (E : shape v = shape first).
    { apply same_shape.
      - apply (in_map snd) in Hin. exact Hin.
      - now left. }
    unfold shape in E. injection E as -> ->. reflexivity. }
  split; [exact Hshape|].
  intros k v kw Hin.
  assert (Hk : In k (Dict.keys ((key, first) :: more))).
  { apply (in_map fst) in Hin. exact Hin. }
  destruct (assign_colormap_covers _ _ _ k assigned Hk) as [c0 Hc].
  destruct (image_with_limits_ok (colormaps s) xy v cm
              (or_empty (limits o)) k c0 kw (Hshape k v Hin) Hc
              (registered k c0 Hk Hc)) as [im [Him _]].
  eauto.
Qed.

End WellFormedCall.


(** ** Writing the same files again *)

Lemma dict_set_set {V} (d : Dict.t V) (k : string) (v v' : V) :
  Dict.set (Dict.set d k v) k v' = Dict.set d k v'.
Proof.
  induction d as [|[k0 v0] d IH]; cbn.
  - now rewrite String.eqb_refl.
  - destruct (String.eqb k k0) eqn:E; cbn; rewrite E; [reflexivity|].
    now rewrite IH.
Qed.

Lemma dict_set_comm {V} (d : Dict.t V) (k k' : string) (v v' : V) :
  k <> k' -> In k (Dict.keys d) -> In k' (Dict.keys d) ->
  Dict.set (Dict.set d k v) k' v' = Dict.set (Dict.set d k' v') k v.
Proof.
  intros Hne. induction d as [|[k0 v0] d IH]; cbn; [tauto|].
  intros Hk Hk'.
  destruct (String.eqb k k0) eqn:E, (String.eqb k' k0) eqn:E'.
  - apply String.eqb_eq in E, E'. congruence.
  - cbn. now rewrite E, E'.
  - cbn. now rewrite E, E'.
  - cbn. rewrite E, E'. f_equal. apply IH.
    + destruct Hk as [<-|Hk]; [|exact Hk].
      now rewrite String.eqb_refl in E.
    + destruct Hk' as [<-|Hk']; [|exact Hk'].
      now rewrite String.eqb_refl in E'.
Qed.

Lemma dict_set_same_value {V} (d : Dict.t V) (k : string) (v : V) :
  Dict.get d k = Ok v -> Dict.set d k v = d.
Proof.
  induction d as [|[k0 v0] d IH]; cbn; [discriminate|].
  destruct (String.eqb k k0) eqn:E.
  - now intros [= ->].
  - intros H. now rewrite IH.
Qed.

Lemma write_all_keeps_keys (w : list (string * Z * figure)) :
  forall d x, In x (Dict.keys d) -> In x (Dict.keys (write_all w d)).
Proof.
  induction w as [|e w IH]; cbn; intros d x H; [exact H|].
  apply IH. now apply dict_keys_set_old.
Qed.

Lemma write_all_has_names (w : list (string * Z * figure)) :
  forall d x, In x (names w) -> In x (Dict.keys (write_all w d)).
Proof.
  induction w as [|e w IH]; cbn; intros d x H; [destruct H|].
  destruct H as [<-|H].
  - apply write_all_keeps_keys, dict_keys_set_new.
  - now apply IH.
Qed.

Lemma write_all_untouched (w : list (string * Z * figure)) :
  forall d k, ~ In k (names w) -> Dict.get (write_all w d) k = Dict.get d k.
Proof.
  induction w as [|e w IH]; cbn; intros d k H; [reflexivity|].
  rewrite IH by tauto. apply dict_get_set_other. intros ->. tauto.
Qed.

Lemma write_all_overwrites (w : list (string * Z * figure)) :
  forall d k v,
    In k (names w) ->
    (forall x, In x (names w) -> In x (Dict.keys d)) ->
    write_all w (Dict.set d k v) = write_all w d.
Proof.
  induction w as [|[[k1 dpi1] g1] w IH]; cbn [write_all fold_left names map];
    intros d k v Hk Hd; [destruct Hk|].
  cbn [fst snd] in *.
  destruct (String.eqb k1 k) eqn:E.
  - apply String.eqb_eq in E. subst k1. now rewrite dict_set_set.
  - assert (Hne : k <> k1).
    { intros ->. now rewrite String.eqb_refl in E. }
    rewrite dict_set_comm.
    + apply IH.
      * destruct Hk as [Hk|Hk]; [congruence | exact Hk].
      * intros x Hx. apply dict_keys_set_old. apply Hd. now right.
    + exact Hne.
    + apply Hd. destruct Hk as [Hk|Hk]; [congruence | now right].
    + apply Hd. now left.
Qed.

Lemma names_dec (k : string) (w : list (string * Z * figure)) :
  In k (names w) \/ ~ In k (names w).
Proof.
  destruct (str_in k (names w)) eqn:E.
  - left. now apply str_in_true.
  - right. now apply str_in_false.
Qed.

(** Writing a sequence of files a second time changes nothing. *)
Lemma write_all_twice (w : list (string * Z * figure)) :
  forall d, write_all w (write_all w d) = write_all w d.
Proof.
  induction w as [|[[k dpi] g] w IH]; intros d; [reflexivity|].
  cbn [write_all fold_left fst snd].
  fold (write_all w (Dict.set d k (dpi, g))).
  set (d1 := Dict.set d k (dpi, g)).
  fold (write_all w (Dict.set (write_all w d1) k (dpi, g))).
  destruct (names_dec k w) as [Hin|Hout].
  - rewrite write_all_overwrites.
    + apply IH.
    + exact Hin.
    + intros x Hx. now apply write_all_has_names.
  - rewrite dict_set_same_value.
    + apply IH.
    + rewrite write_all_untouched by exact Hout.
      apply dict_get_set_same.
Qed.

Lemma written_again (before w : list (string * Z * figure)) :
  written ((before ++ w) ++ w) = written (before ++ w).
Proof.
  unfold written, write_all. rewrite !fold_left_app.
  apply write_all_twice.
Qed.

(** C9.  A call is determined by its arguments and the colormap registry:
    two calls with the same arguments end the same way and write the same
    files with the same contents, whatever figures are open and whatever
    was written before; made one after the other, the second leaves the
    written files as the first left them. *)
Theorem map_series_deterministic
        (datas : Dict.t ndarray) (o : options) (s1 s2 : pyplot) :
  colormaps s1 = colormaps s2 ->
  exists r files s1' s2',
    map_series datas o s1 = (r, s1')
    /\ map_series datas o s2 = (r, s2')
    /\ saved s1' = saved s1 ++ files
    /\ saved s2' = saved s2 ++ files
    /\ (saved s2 = saved s1' -> written (saved s2') = written (saved s1')).
Proof.
  intros Hc.
  destruct (map_series_run datas o s1) as [s1' [H1 [_ [Hs1 _]]]].
  destruct (map_series_run datas o s2) as [s2' [H2 [_ [Hs2 _]]]].
  rewrite <- Hc in *.
  exists (snd (rendered (colormaps s1) datas o)),
         (fst (rendered (colormaps s1) datas o)), s1', s2'.
  repeat split; try assumption.
  intros E. rewrite Hs2, E, Hs1. apply written_again.
Qed.

(** ** The cells of the grid *)

Lemma gs_getitem_inside (rows columns i j : Z) (kw : kwargs) :
  (0 <= i < rows)%Z -> (0 <= j < columns)%Z ->
  gs_getitem (Build_gridspec rows columns kw) i j
  = Ok (Build_subplotspec (Build_gridspec rows columns kw) i j).
Proof.
  intros Hi Hj. unfold gs_getitem, gs_index. cbn [gs_rows gs_columns].
  replace (i <? 0)%Z with false by (symmetry; apply Z.ltb_ge; lia).
  replace (j <? 0)%Z with false by (symmetry; apply Z.ltb_ge; lia).
  replace (0 <=? i)%Z with true by (symmetry; apply Z.leb_le; lia).
  replace (i <? rows)%Z with true by (symmetry; apply Z.ltb_lt; lia).
  replace (0 <=? j)%Z with true by (symmetry; apply Z.leb_le; lia).
  replace (j <? columns)%Z with true by (symmetry; apply Z.ltb_lt; lia).
  reflexivity.
Qed.

Lemma gs_getitem_outside (rows columns i j : Z) (kw : kwargs) :
  (0 <= i)%Z -> (0 <= j)%Z -> (rows <= i \/ columns <= j)%Z ->
  gs_getitem (Build_gridspec rows columns kw) i j = Raise IndexError.
Proof.
  intros Hi Hj Hout. unfold gs_getitem, gs_index. cbn [gs_rows gs_columns].
  replace (i <? 0)%Z with false by (symmetry; apply Z.ltb_ge; lia).
  replace (j <? 0)%Z with false by (symmetry; apply Z.ltb_ge; lia).
  replace (0 <=? i)%Z with true by (symmetry; apply Z.leb_le; lia).
  replace (0 <=? j)%Z with true by (symmetry; apply Z.leb_le; lia).
  cbn [andb].
  destruct (i <? rows)%Z eqn:Ei; [|reflexivity]. cbn [rbind].
  apply Z.ltb_lt in Ei.
  replace (j <? columns)%Z with false by (symmetry; apply Z.ltb_ge; lia).
  reflexivity.
Qed.

(** The step from one cell to the next is row-major. *)
Lemma next_cell_row_major (columns i j : Z) :
  (0 <= j < columns)%Z ->
  exists i' j',
    next_cell columns i j = Ok (i', j')
    /\ (0 <= j' < columns)%Z
    /\ (i' * columns + j' = i * columns + j + 1)%Z
    /\ (i <= i')%Z.
Proof.
  intros Hj. unfold next_cell.
  replace (columns =? 0)%Z with false by (symmetry; apply Z.eqb_neq; lia).
  destruct (Z.eq_dec (j + 1) columns) as [E|E].
  - rewrite E, Z_mod_same_full. cbn.
    exists (i + 1)%Z, 0%Z. repeat split; lia.
  - rewrite Z.mod_small by lia.
    replace (j + 1 =? 0)%Z with false by (symmetry; apply Z.eqb_neq; lia).
    exists i, (j + 1)%Z. repeat split; lia.
Qed.

Section GridFits.
Variables (registry : list string) (rows columns : Z) (xy : mesh).
Variables (cm : Dict.t string) (lims : Dict.t (float * float)) (kwg kw : kwargs).

Hypothesis columns_pos : (0 < columns)%Z.

(** When every element can be drawn, the second loop succeeds exactly
    when the cells left from [(i, j)] on are enough, and fails on the
    grid lookup otherwise. *)
Lemma grid_axes_fits (items : list (string * ndarray)) :
  (forall k v, In (k, v) items ->
     exists im, image_with_limits registry xy (rotate_m90 v) cm lims k kw
                = Ok im) ->
  forall i j axs,
    (0 <= i)%Z -> (0 <= j < columns)%Z ->
    (i * columns + j + cells_needed items <= rows * columns ->
     exists r, grid_axes registry (Build_gridspec rows columns kwg) rows
                         columns xy cm lims kw items i j axs = Ok r)%Z
    /\ (0 < cells_needed items ->
        rows * columns < i * columns + j + cells_needed items ->
        grid_axes registry (Build_gridspec rows columns kwg) rows columns
                  xy cm lims kw items i j axs = Raise IndexError)%Z.
Proof.
  induction items as [|[key values] more IH]; intros Hdraw i j axs Hi Hj.
  - unfold cells_needed. cbn. split; [eauto | lia].
  - assert (Hmore : forall k v, In (k, v) more ->
              exists im, image_with_limits registry xy (rotate_m90 v) cm
                                           lims k kw = Ok im)
      by (intros k v H; apply Hdraw; now right).
    cbn [grid_axes]. unfold cells_needed. cbn [filter fst].
    fold (cells_needed more).
    destruct (String.eqb key "CP").
    + cbn [negb]. fold (cells_needed more). now apply IH.
    + cbn [negb List.length].
      rewrite Nat2Z.inj_succ.
      change (Z.of_nat (List.length
                (filter (fun kv => negb (String.eqb (fst kv) "CP")) more)))
        with (cells_needed more).
      assert (Hm : (0 <= cells_needed more)%Z)
        by (unfold cells_needed; lia).
      destruct (Z_lt_le_dec i rows) as [Hlt|Hge].
      * rewrite gs_getitem_inside by lia. cbn [rbind].
        destruct (Hdraw key values (or_introl eq_refl)) as [im ->].
        cbn [rbind].
        destruct (next_cell_row_major columns i j Hj)
          as [i' [j' [-> [Hj' [Hpos Hi']]]]].
        cbn [rbind fst snd].
        destruct (IH Hmore i' j'
                     ((List.length axs,
                       grid_axes_of im key
                                      (Build_subplotspec
                                         (Build_gridspec rows columns kwg)
                                         i j) rows i j) :: axs))
          as [IHok IHerr]; [lia | exact Hj' |].
        split.
        -- intros H. apply IHok. lia.
        -- intros _ H. apply IHerr; [|lia].
           assert (i * columns + j < rows * columns)%Z by nia.
           lia.
      * rewrite gs_getitem_outside by lia. cbn [rbind].
        split; [|reflexivity].
        intros H. exfalso.
        assert (rows * columns <= i * columns)%Z by nia.
        lia.
Qed.
End GridFits.

Lemma cells_needed_nodup (items : list (string * ndarray)) :
  NoDup (Dict.keys items) ->
  Z.of_nat (List.length items)
  = ((if str_in "CP" (Dict.keys items) then 1 else 0) + cells_needed items)%Z.
Proof.
  induction items as [|[key values] more IH]; intros Hnd; [reflexivity|].
  cbn [Dict.keys map fst] in Hnd. inversion Hnd as [|? ? Hnot Hnd' E]; subst.
  specialize (IH Hnd'). unfold cells_needed in *.
  cbn [List.length filter fst Dict.keys map str_in existsb].
  rewrite Nat2Z.inj_succ.
  destruct (String.eqb key "CP") eqn:E.
  - apply String.eqb_eq in E. subst key.
    rewrite String.eqb_refl. cbn [negb orb].
    apply str_in_false in Hnot. unfold str_in, Dict.keys in *.
    rewrite Hnot in IH. lia.
  - rewrite String.eqb_sym, E. cbn [negb orb List.length].
    rewrite Nat2Z.inj_succ. unfold str_in, Dict.keys in *.
    destruct (existsb (String.eqb "CP") (map fst more)); lia.
Qed.

Section WellFormedGrid.
Variables (datas : Dict.t ndarray) (o : options) (s : pyplot).
Variable cm : Dict.t string.
Variables rows columns : Z.

Hypothesis nonempty : datas <> [].
Hypothesis unique_keys : NoDup (Dict.keys datas).
Hypothesis fits :
  forall a, In a (Dict.values datas) -> mesh_fits (pixel_size o) a.
Hypothesis same_shape :
  forall a b, In a (Dict.values datas) -> In b (Dict.values datas) ->
              shape a = shape b.
Hypothesis assigned : assign_colormap (color_map o) datas = Ok cm.
Hypothesis registered :
  forall k c, In k (Dict.keys datas) -> Dict.get cm k = Ok c ->
              In c (colormaps s).
Hypothesis grid : figure_grid o = Some (rows, columns).
Hypothesis rows_pos : (0 < rows)%Z.
Hypothesis columns_pos : (0 < columns)%Z.
Hypothesis with_CP :
  In "CP" (Dict.keys datas) ->
  (2 <= columns)%Z /\ In "Greys_r" (colormaps s).
Hypothesis named :
  forall k, In k (Dict.keys datas) ->
            saved_as_named (individual_name (label o) (extension o) k).
Hypothesis named_all :
  saved_as_named (combined_name (label o) (extension o)).

Lemma combined_render_fits (xy : mesh) :
  (forall k v, In (k, v) datas -> mesh_shape xy = (ncols v, nrows v)) ->
  (forall k v kw, In (k, v) datas ->
     exists im, image_with_limits (colormaps s) xy (rotate_m90 v) cm
                                  (or_empty (limits o)) k kw = Ok im) ->
  (Z.of_nat (List.length datas) <= rows * columns ->
   exists g, combined_render (colormaps s) datas xy cm (or_empty (limits o))
               (or_empty (kwargs_for_fig o))
               (or_empty (kwargs_for_grid o))
               (or_empty (kwargs_for_imshow o)) (rows, columns) = Ok g)%Z
  /\ (rows * columns < Z.of_nat (List.length datas) ->
      combined_render (colormaps s) datas xy cm (or_empty (limits o))
        (or_empty (kwargs_for_fig o)) (or_empty (kwargs_for_grid o))
        (or_empty (kwargs_for_imshow o)) (rows, columns)
      = Raise IndexError)%Z.
Proof.
  intros Hshape Hdraw. unfold combined_render. cbn [fst snd].
  replace ((rows <=? 0) || (columns <=? 0))%Z%bool with false.
  2:{ symmetry. apply orb_false_iff. split; apply Z.leb_gt; lia. }
  pose proof (cells_needed_nodup datas unique_keys) as Hcount.
  assert (Hfit : forall j axs, (0 <= j < columns)%Z ->
    (j + cells_needed datas <= rows * columns ->
     exists r, grid_axes (colormaps s)
                 (Build_gridspec rows columns (or_empty (kwargs_for_grid o)))
                 rows columns xy cm
                 (or_empty (limits o)) (or_empty (kwargs_for_imshow o))
                 (Dict.items datas) 0 j axs = Ok r)%Z
    /\ (0 < cells_needed datas ->
        rows * columns < j + cells_needed datas ->
        grid_axes (colormaps s)
                 (Build_gridspec rows columns (or_empty (kwargs_for_grid o)))
                 rows columns xy cm
          (or_empty (limits o)) (or_empty (kwargs_for_imshow o))
          (Dict.items datas) 0 j axs = Raise IndexError)%Z).
  { intros j axs Hj.
    apply (grid_axes_fits (colormaps s) rows columns xy cm
             (or_empty (limits o)) (or_empty (kwargs_for_grid o))
             (or_empty (kwargs_for_imshow o))
             columns_pos datas
             (fun k v H => Hdraw k v _ H) 0%Z j axs); lia. }
  destruct (str_in "CP" (Dict.keys datas)) eqn:Ecp.
  - apply str_in_true in Ecp.
    destruct (with_CP Ecp) as [Hcol Hreg].
    rewrite gs_getitem_inside by lia. cbn [rbind].
    destruct (dict_get_in _ _ Ecp) as [cp Hcp]. rewrite Hcp. cbn [rbind].
    destruct (quadmesh_for_ok (colormaps s) xy cp "Greys_r" None None []
                (Hshape "CP" cp (dict_get_found _ _ _ Hcp)) Hreg)
      as [im [-> _]].
    cbn [rbind fst snd].
    destruct (Hfit 1%Z
                [(0%nat,
                  cp_axes im
                    (Build_subplotspec
                       (Build_gridspec rows columns
                                       (or_empty (kwargs_for_grid o)))
                       0 0))]) as [Hok Herr];
      [lia|].
    split.
    + intros H. destruct Hok as [r ->]; [lia|]. cbn [rbind]. eauto.
    + intros H. rewrite Herr; [reflexivity | nia | lia].
  - cbn [rbind fst snd].
    destruct (Hfit 0%Z []) as [Hok Herr]; [lia|].
    split.
    + intros H. destruct Hok as [r ->]; [lia|]. cbn [rbind]. eauto.
    + intros H. rewrite Herr; [reflexivity | nia | lia].
Qed.

End WellFormedGrid.

(** ** The layout of the grid *)

Lemma gs_getitem_cell (gs : gridspec) (i j : Z) (cell : subplotspec) :
  (0 <= i)%Z -> (0 <= j)%Z ->
  gs_getitem gs i j = Ok cell ->
  ss_row cell = i /\ ss_column cell = j.
Proof.
  intros Hi Hj. unfold gs_getitem, gs_index.
  replace (i <? 0)%Z with false by (symmetry; apply Z.ltb_ge; lia).
  replace (j <? 0)%Z with false by (symmetry; apply Z.ltb_ge; lia).
  destruct ((0 <=? i) && (i <? gs_rows gs))%Z%bool; cbn [rbind];
    [|discriminate].
  destruct ((0 <=? j) && (j <? gs_columns gs))%Z%bool; cbn [rbind];
    [|discriminate].
  intros [= <-]. split; reflexivity.
Qed.

Lemma layout_of_grid_axes (im : quadmesh) (key : string)
      (cell : subplotspec) (rows i j : Z) :
  ss_row cell = i -> ss_column cell = j ->
  layout_of (grid_axes_of im key cell rows i j)
  = (Some (i, j), Some key,
     if (j =? 0)%Z then Some "y ($\mu m$)" else None,
     if (i + 1 =? rows)%Z then Some "x ($\mu m$)" else None).
Proof.
  intros <- <-. unfold grid_axes_of, layout_of.
  destruct (ss_column cell =? 0)%Z, (ss_row cell + 1 =? rows)%Z; reflexivity.
Qed.

Section GridLayout.
Variables (registry : list string) (gs : gridspec) (rows columns : Z).
Variables (xy : mesh) (cm : Dict.t string) (lims : Dict.t (float * float)).
Variable kw : kwargs.

Hypothesis columns_pos : (0 < columns)%Z.

(** From a cell inside the grid on, the second loop fills the cells in
    row-major order with the elements other than CP, in insertion order;
    a cell of column 0 gets the y-axis label and a cell of the last row
    the x-axis label, and no other cell does. *)
Lemma grid_axes_row_major (items : list (string * ndarray)) :
  forall i j axs r,
    (0 <= i)%Z -> (0 <= j < columns)%Z ->
    grid_axes registry gs rows columns xy cm lims kw items i j axs = Ok r ->
    map (fun a => layout_of (snd a)) r
    = rev (row_major rows columns (i * columns + j) (Dict.keys items))
      ++ map (fun a => layout_of (snd a)) axs.
Proof.
  induction items as [|[key values] more IH]; intros i j axs r Hi Hj H.
  - cbn in H. injection H as <-. reflexivity.
  - cbn [grid_axes] in H. cbn [Dict.keys map fst row_major].
    fold (Dict.keys more).
    destruct (String.eqb key "CP"); [now apply IH|].
    destruct (gs_getitem gs i j) as [e|cell] eqn:Ecell; cbn [rbind] in H;
      [discriminate|].
    destruct (gs_getitem_cell gs i j cell Hi (proj1 Hj) Ecell) as [Hr Hc].
    destruct (image_with_limits registry xy (rotate_m90 values) cm lims
                                key kw) as [e|im]; cbn [rbind] in H;
      [discriminate|].
    destruct (next_cell_row_major columns i j Hj)
      as [i' [j' [Hn [Hj' [Hpos Hi']]]]].
    rewrite Hn in H. cbn [rbind fst snd] in H.
    apply IH in H; [|lia|exact Hj'].
    rewrite H, Hpos. cbn [map snd rev].
    rewrite (layout_of_grid_axes im key cell rows i j Hr Hc).
    replace ((i * columns + j) / columns)%Z with i.
    2:{ rewrite Z.div_add_l by lia. rewrite Z.div_small by lia. lia. }
    replace ((i * columns + j) mod columns)%Z with j.
    2:{ rewrite Z.add_comm, Z.mod_add by lia. now rewrite Z.mod_small. }
    now rewrite <- app_assoc.
Qed.
End GridLayout.

(** With CP in the dataset and at least two columns, the combined figure
    has CP in cell (0, 0), drawn with [Greys_r], and the other elements
    row-major from cell number 1 on. *)
Lemma combined_render_layout (registry : list string)
      (datas : Dict.t ndarray) (xy : mesh) (cm : Dict.t string)
      (lims : Dict.t (float * float)) (kwfig kwgrid kwimshow : kwargs)
      (rows columns : Z) (g : figure) :
  In "CP" (Dict.keys datas) -> (2 <= columns)%Z ->
  combined_render registry datas xy cm lims kwfig kwgrid kwimshow
                  (rows, columns) = Ok g ->
  placement g
  = rev (row_major rows columns 1 (Dict.keys datas))
    ++ [(Some (0, 0)%Z, None, Some "y ($\mu$m)", None)]
  /\ exists cp cpax im bar,
       Dict.get datas "CP" = Ok cp
       /\ last (fig_axes g) (0%nat, new_axes None) = (0%nat, cpax)
       /\ ax_image cpax = Some im
       /\ qm_cmap im = "Greys_r"
       /\ qm_clim im = scale_of (data_range (rotate_m90 cp))
       /\ ax_colorbar cpax = Some bar
       /\ cb_bounds bar = qm_clim im.
Proof.
  intros Hcp Hcol. unfold combined_render. cbn [fst snd].
  destruct ((rows <=? 0) || (columns <=? 0))%Z%bool; [discriminate|].
  apply str_in_true in Hcp. rewrite Hcp.
  set (gs := {| gs_rows := rows; gs_columns := columns;
                gs_kwargs := kwgrid |}).
  destruct (gs_getitem gs 0 0) as [e|cell] eqn:Ecell; cbn [rbind];
    [discriminate|].
  destruct (gs_getitem_cell gs 0 0 cell (Z.le_refl 0) (Z.le_refl 0) Ecell)
    as [Hr Hc].
  destruct (Dict.get datas "CP") as [e|cp] eqn:Ecp; cbn [rbind];
    [discriminate|].
  destruct (quadmesh_for registry xy (rotate_m90 cp) "Greys_r" None None [])
    as [e|im] eqn:Eim; cbn [rbind fst snd]; [discriminate|].
  destruct (grid_axes registry gs rows columns xy cm lims kwimshow
                      (Dict.items datas) 0 1 [(0%nat, cp_axes im cell)])
    as [e|axs] eqn:Eg; cbn [rbind]; [discriminate|].
  intros [= <-]. unfold placement. cbn [fig_axes].
  pose proof (grid_axes_row_major registry gs rows columns xy cm lims
                kwimshow ltac:(lia) (Dict.items datas) 0%Z 1%Z _ _
                (Z.le_refl 0) ltac:(lia) Eg) as Hlay.
  split.
  - rewrite Hlay. cbn [map snd Z.mul Z.add]. unfold Dict.items.
    unfold layout_of, cp_axes. cbn. now rewrite Hr, Hc.
  - assert (Hlast : exists front, axs = front ++ [(0%nat, cp_axes im cell)]).
    { clear Hlay. revert Eg.
      generalize (Dict.items datas), 0%Z, 1%Z.
      assert (G : forall items i j acc r,
                 grid_axes registry gs rows columns xy cm lims kwimshow
                           items i j (acc ++ [(0%nat, cp_axes im cell)])
                 = Ok r ->
                 exists front, r = front ++ [(0%nat, cp_axes im cell)]).
      { induction items as [|[key values] more IH]; intros i j acc r H.
        - cbn in H. injection H as <-. eauto.
        - cbn [grid_axes] in H.
          destruct (String.eqb key "CP"); [now apply IH in H|].
          destruct (gs_getitem gs i j); cbn [rbind] in H; [discriminate|].
          destruct (image_with_limits registry xy (rotate_m90 values) cm
                      lims key kwimshow); cbn [rbind] in H; [discriminate|].
          destruct (next_cell columns i j); cbn [rbind] in H;
            [discriminate|].
          rewrite app_comm_cons in H. now apply IH in H. }
      intros items i j H. apply (G items i j [] axs H). }
    destruct Hlast as [front ->]. rewrite last_last.
    unfold quadmesh_for in Eim.
    destruct (negb _) in Eim; [discriminate|].
    destruct (negb _) in Eim; [discriminate|].
    injection Eim as <-.
    eexists cp, _, _, _. split; [reflexivity|].
    split; [reflexivity|]. repeat split; reflexivity.
Qed.

(** ** The colour scale *)

Lemma fold_min_spec (l : list Z) :
  forall x,
    (fold_left Z.min l x = x \/ In (fold_left Z.min l x) l)
    /\ (fold_left Z.min l x <= x)%Z
    /\ (forall y, In y l -> fold_left Z.min l x <= y)%Z.
Proof.
  induction l as [|a l IH]; intros x; cbn [fold_left].
  - repeat split; auto; try lia. intros y [].
  - destruct (IH (Z.min x a)) as [Hin [Hle Hall]].
    repeat split.
    + destruct Hin as [E|Hin].
      * rewrite E. destruct (Z.min_spec x a) as [[_ ->]|[_ ->]].
        -- now left.
        -- right. now left.
      * right. now right.
    + lia.
    + intros y [<-|Hy]; [lia | now apply Hall].
Qed.

Lemma fold_max_spec (l : list Z) :
  forall x,
    (fold_left Z.max l x = x \/ In (fold_left Z.max l x) l)
    /\ (x <= fold_left Z.max l x)%Z
    /\ (forall y, In y l -> y <= fold_left Z.max l x)%Z.
Proof.
  induction l as [|a l IH]; intros x; cbn [fold_left].
  - repeat split; auto; try lia. intros y [].
  - destruct (IH (Z.max x a)) as [Hin [Hle Hall]].
    repeat split.
    + destruct Hin as [E|Hin].
      * rewrite E. destruct (Z.max_spec x a) as [[_ ->]|[_ ->]].
        -- right. now left.
        -- now left.
      * right. now right.
    + lia.
    + intros y [<-|Hy]; [lia | now apply Hall].
Qed.

Lemma list_min_spec (l : list Z) (m : Z) :
  list_min l = Some m <-> In m l /\ forall y, In y l -> (m <= y)%Z.
Proof.
  destruct l as [|x l]; cbn [list_min].
  - split; [discriminate | intros [[] _]].
  - destruct (fold_min_spec l x) as [Hin [Hle Hall]]. split.
    + intros [= <-]. split.
      * destruct Hin as [->|Hin]; [now left | now right].
      * intros y [<-|Hy]; [exact Hle | now apply Hall].
    + intros [Hm Hlow]. f_equal. apply Z.le_antisymm.
      * destruct Hm as [<-|Hm]; [exact Hle | now apply Hall].
      * apply Hlow. destruct Hin as [->|Hin]; [now left | now right].
Qed.

Lemma list_max_spec (l : list Z) (m : Z) :
  list_max l = Some m <-> In m l /\ forall y, In y l -> (y <= m)%Z.
Proof.
  destruct l as [|x l]; cbn [list_max].
  - split; [discriminate | intros [[] _]].
  - destruct (fold_max_spec l x) as [Hin [Hle Hall]]. split.
    + intros [= <-]. split.
      * destruct Hin as [->|Hin]; [now left | now right].
      * intros y [<-|Hy]; [exact Hle | now apply Hall].
    + intros [Hm Hup]. f_equal. apply Z.le_antisymm.
      * apply Hup. destruct Hin as [->|Hin]; [now left | now right].
      * destruct Hm as [<-|Hm]; [exact Hle | now apply Hall].
Qed.

(** Minimum and maximum depend on the cells only, not on their order. *)
Lemma list_min_same_elements (l1 l2 : list Z) :
  (forall x, In x l1 <-> In x l2) -> list_min l1 = list_min l2.
Proof.
  intros H. destruct (list_min l1) as [m|] eqn:E1.
  - apply list_min_spec in E1. symmetry. apply list_min_spec.
    destruct E1 as [Hm Hlow]. split; [now apply H|].
    intros y Hy. apply Hlow. now apply H.
  - destruct l1 as [|x l1]; [|discriminate].
    destruct l2 as [|y l2]; [reflexivity|].
    destruct (proj2 (H y) (or_introl eq_refl)).
Qed.

Lemma list_max_same_elements (l1 l2 : list Z) :
  (forall x, In x l1 <-> In x l2) -> list_max l1 = list_max l2.
Proof.
  intros H. destruct (list_max l1) as [m|] eqn:E1.
  - apply list_max_spec in E1. symmetry. apply list_max_spec.
    destruct E1 as [Hm Hup]. split; [now apply H|].
    intros y Hy. apply Hup. now apply H.
  - destruct l1 as [|x l1]; [|discriminate].
    destruct l2 as [|y l2]; [reflexivity|].
    destruct (proj2 (H y) (or_introl eq_refl)).
Qed.

Lemma zip_cons_cells (r : list Z) :
  forall m, List.length m = List.length r ->
            List.length (zip_cons r m) = List.length r
            /\ forall x, In x (List.concat (zip_cons r m))
                         <-> In x r \/ In x (List.concat m).
Proof.
  induction r as [|a r IH]; intros [|c m] Hlen; cbn in Hlen; try discriminate.
  - cbn. split; [reflexivity | tauto].
  - injection Hlen as Hlen. destruct (IH m Hlen) as [IHl IHin].
    cbn [zip_cons List.length List.concat]. split; [now rewrite IHl|].
    intros x. cbn [In app]. rewrite !in_app_iff, IHin. tauto.
Qed.

Lemma concat_repeat_nil (w : nat) :
  List.concat (repeat (@nil Z) w) = [].
Proof. induction w as [|w IH]; cbn; [reflexivity | exact IH]. Qed.

Lemma transpose_cells (w : nat) (m : list (list Z)) :
  Forall (fun r => List.length r = w) m ->
  List.length (transpose w m) = w
  /\ forall x, In x (List.concat (transpose w m)) <-> In x (List.concat m).
Proof.
  induction m as [|r m IH]; intros Hall; cbn [transpose].
  - split; [apply repeat_length|].
    intros x. now rewrite concat_repeat_nil.
  - inversion Hall as [|? ? Hr Hm]; subst.
    destruct (IH Hm) as [IHl IHin].
    destruct (zip_cons_cells r (transpose (List.length r) m) IHl)
      as [Hl Hin].
    split; [exact Hl|].
    intros x. rewrite Hin. cbn [List.concat]. rewrite in_app_iff, IHin.
    tauto.
Qed.

Lemma concat_rev_cells (m : list (list Z)) (x : Z) :
  In x (List.concat (rev m)) <-> In x (List.concat m).
Proof.
  rewrite !in_concat. split; intros [r [Hr Hx]]; exists r; split;
    try assumption.
  - rewrite in_rev. exact Hr.
  - rewrite <- in_rev. exact Hr.
Qed.

(** The quarter turn moves the counts and changes none: the rotated map
    has the minimum and the maximum of the map. *)
Lemma rotate_keeps_range (values : ndarray) :
  wf_array values ->
  amin (rotate_m90 values) = amin values
  /\ amax (rotate_m90 values) = amax values.
Proof.
  intros [_ Hcols]. unfold amin, amax, rotate_m90. cbn [cells].
  assert (Hsame : forall x,
             In x (List.concat (transpose (ncols values)
                                          (rev (cells values))))
             <-> In x (List.concat (cells values))).
  { intros x.
    destruct (transpose_cells (ncols values) (rev (cells values)))
      as [_ Hin].
    - now apply Forall_rev.
    - rewrite Hin. apply concat_rev_cells. }
  split; [now apply list_min_same_elements
         | now apply list_max_same_elements].
Qed.

(** The draw call of lines 124-128 and 167-172: an element in the table
    of limits is drawn with its pair, any other with the range of its
    data. *)
Lemma image_with_limits_bounds (registry : list string) (xy : mesh)
      (values : ndarray) (cm : Dict.t string) (lims : Dict.t (float * float))
      (key : string) (kw : kwargs) (im : quadmesh) :
  wf_array values ->
  image_with_limits registry xy (rotate_m90 values) cm lims key kw = Ok im ->
  (forall lim, Dict.get lims key = Ok lim ->
               qm_clim im = (Some (fst lim), Some (snd lim)))
  /\ (~ In key (Dict.keys lims) ->
      qm_clim im = data_range values).
Proof.
  intros Hwf. unfold image_with_limits.
  destruct (str_in key (Dict.keys lims)) eqn:E.
  - apply str_in_true in E. destruct (dict_get_in _ _ E) as [lim Hlim].
    rewrite Hlim.
    destruct (Dict.get cm key) as [e|cmap]; cbn [rbind]; [discriminate|].
    unfold quadmesh_for.
    destruct (negb _); [discriminate|]. destruct (negb _); [discriminate|].
    intros [= <-]. cbn [qm_clim]. split.
    + intros lim' [= <-]. reflexivity.
    + intros Hn. contradiction.
  - apply str_in_false in E.
    destruct (Dict.get cm key) as [e|cmap]; cbn [rbind]; [discriminate|].
    unfold quadmesh_for.
    destruct (negb _); [discriminate|]. destruct (negb _); [discriminate|].
    intros [= <-]. cbn [qm_clim]. split.
    + intros lim Hlim. exfalso. apply E.
      apply dict_get_found in Hlim. apply (in_map fst) in Hlim. exact Hlim.
    + intros _. unfold data_range.
      destruct (rotate_keeps_range values Hwf) as [-> ->].
      reflexivity.
Qed.

(** Every individual file shows its element with the scale the colorbar
    makes of these bounds, on the image and on the colorbar alike. *)
Lemma individual_files_bounds (registry : list string) (xy : mesh)
      (cm : Dict.t string) (lims : Dict.t (float * float)) (label extension : string)
      (items : list (string * ndarray)) :
  (forall key values, In (key, values) items -> wf_array values) ->
  forall name dpi g,
    In (name, dpi, g)
       (fst (individual_files registry xy cm lims label extension items)) ->
    exists key values bounds,
      In (key, values) items
      /\ savefig_file (individual_name label extension key) = Ok name
      /\ image_bounds g = [bounds] /\ colorbar_bounds g = [bounds]
      /\ (forall lim, Dict.get lims key = Ok lim ->
                      bounds = scale_of (Some (fst lim), Some (snd lim)))
      /\ (~ In key (Dict.keys lims) ->
          bounds = scale_of (data_range values)).
Proof.
  induction items as [|[key values] more IH]; intros Hwf name dpi g Hin.
  - destruct Hin.
  - cbn [individual_files] in Hin.
    destruct (image_with_limits registry xy (rotate_m90 values) cm lims
                                key []) as [e|im] eqn:Eim.
    + destruct Hin.
    + assert (Hhere :
        exists bounds,
          image_bounds (individual_render im key) = [bounds]
          /\ colorbar_bounds (individual_render im key) = [bounds]
          /\ (forall lim, Dict.get lims key = Ok lim ->
                bounds = scale_of (Some (fst lim), Some (snd lim)))
          /\ (~ In key (Dict.keys lims) ->
              bounds = scale_of (data_range values))).
      { destruct (image_with_limits_bounds registry xy values cm lims key []
                    im (Hwf key values (or_introl eq_refl)) Eim)
          as [Hgiven Hauto].
        exists (scale_of (qm_clim im)).
        split; [reflexivity|]. split; [reflexivity|]. split.
        - intros lim Hlim. now rewrite (Hgiven lim Hlim).
        - intros Hn. now rewrite (Hauto Hn). }
      destruct (savefig_file (individual_name label extension key))
        as [e|file] eqn:Efile.
      * destruct Hin.
      * cbn [fst] in Hin. destruct Hin as [[= <- <- <-]|Hin].
        -- destruct Hhere as [b Hb].
           exists key, values, b. split; [now left|].
           split; [|exact Hb].
           exact Efile.
        -- destruct (IH (fun k v H => Hwf k v (or_intror H)) name dpi g Hin)
             as [k [v [b [Hkv Hrest]]]].
           exists k, v, b. split; [now right | exact Hrest].
Qed.

(** ** Calls with a grid *)

(** A well-formed call with a grid writes the individual files and then
    ends as the combined figure does. *)
Lemma grid_call (datas : Dict.t ndarray) (o : options) (s : pyplot)
      (cm : Dict.t string) (grid : Z * Z) :
  datas <> [] ->
  (forall a, In a (Dict.values datas) -> mesh_fits (pixel_size o) a) ->
  (forall a b, In a (Dict.values datas) -> In b (Dict.values datas) ->
               shape a = shape b) ->
  assign_colormap (color_map o) datas = Ok cm ->
  (forall k c, In k (Dict.keys datas) -> Dict.get cm k = Ok c ->
               In c (colormaps s)) ->
  (forall k, In k (Dict.keys datas) ->
             saved_as_named (individual_name (label o) (extension o) k)) ->
  figure_grid o = Some grid ->
  exists xy files s',
    (forall k v, In (k, v) datas -> mesh_shape xy = (ncols v, nrows v))
    /\ names files
       = map (individual_name (label o) (extension o)) (Dict.keys datas)
    /\ match combined_render (colormaps s) datas xy cm (or_empty (limits o))
               (or_empty (kwargs_for_fig o)) (or_empty (kwargs_for_grid o))
               (or_empty (kwargs_for_imshow o)) grid with
       | Ok g =>
           match savefig_file (combined_name (label o) (extension o)) with
           | Ok file =>
               map_series datas o s = (Ok tt, s')
               /\ saved s' = saved s ++ files ++ [(file, 300%Z, g)]
           | Raise e =>
               map_series datas o s = (Raise e, s')
               /\ saved s' = saved s ++ files
           end
       | Raise e =>
           map_series datas o s = (Raise e, s')
           /\ saved s' = saved s ++ files
       end.
Proof.
  intros Hne Hfits Hshape Hcm Hreg Hnamed Hgrid.
  destruct (map_series_run datas o s) as [s' [Hrun [_ [Hs _]]]].
  destruct (well_formed_prepare datas o s cm Hne Hfits Hshape Hcm Hreg)
    as [xy [Hp [Hmesh Hdraw]]].
  unfold rendered in *. rewrite Hp, Hgrid in *.
  destruct (individual_files_ok (colormaps s) xy cm (or_empty (limits o))
              (label o) (extension o) (Dict.items datas)
              (fun k v H => Hdraw k v [] H) Hnamed) as [Hok Hnames].
  destruct (individual_files (colormaps s) xy cm (or_empty (limits o))
              (label o) (extension o) (Dict.items datas)) as [files r0].
  cbn [fst snd] in *. subst r0.
  exists xy, files, s'. split; [exact Hmesh|]. split; [exact Hnames|].
  destruct (combined_render (colormaps s) datas xy cm (or_empty (limits o))
              (or_empty (kwargs_for_fig o)) (or_empty (kwargs_for_grid o))
              (or_empty (kwargs_for_imshow o)) grid) as [e|g];
    [|destruct (savefig_file (combined_name (label o) (extension o)))];
    cbn [fst snd] in *; split; assumption.
Qed.

Lemma cells_needed_other (items : list (string * ndarray)) :
  (exists key, In key (Dict.keys items) /\ key <> "CP") ->
  (0 < cells_needed items)%Z.
Proof.
  intros [key [Hin Hne]]. unfold cells_needed, Dict.keys in *.
  apply in_map_iff in Hin. destruct Hin as [[k v] [E Hin]].
  cbn in E. subst k.
  assert (Hf : In (key, v)
                  (filter (fun kv => negb (String.eqb (fst kv) "CP")) items)).
  { apply filter_In. split; [exact Hin|]. cbn [fst].
    destruct (String.eqb key "CP") eqn:E; [|reflexivity].
    apply String.eqb_eq in E. contradiction. }
  destruct (filter _ items); [destruct Hf | cbn; lia].
Qed.

(** Looked up from a column that does not exist, the first element other
    than CP stops the second loop. *)
Lemma grid_axes_outside_column (registry : list string) (rows columns : Z)
      (xy : mesh) (cm : Dict.t string) (lims : Dict.t (float * float))
      (kwg kw : kwargs) (items : list (string * ndarray)) :
  forall i j axs,
    (0 <= i)%Z -> (0 <= j)%Z -> (columns <= j)%Z ->
    (0 < cells_needed items)%Z ->
    grid_axes registry (Build_gridspec rows columns kwg) rows columns xy cm
              lims kw items i j axs = Raise IndexError.
Proof.
  induction items as [|[key values] more IH]; intros i j axs Hi Hj Hout Hm.
  - unfold cells_needed in Hm. cbn in Hm. lia.
  - cbn [grid_axes]. unfold cells_needed in Hm. cbn [filter fst] in Hm.
    destruct (String.eqb key "CP").
    + cbn [negb] in Hm. now apply IH.
    + rewrite gs_getitem_outside by lia. reflexivity.
Qed.

(** C7, where the source falls short.  After the cell reserved for CP the
    column counter starts at 1 and is not wrapped, so in a grid of one
    column the next element is looked up at row 0, column 1: whatever the
    number of rows, the call raises [IndexError] after writing the
    individual files, and no combined figure is written.  Row-major
    filling puts that element in row 1, column 0. *)
Theorem one_column_grid_with_CP
        (datas : Dict.t ndarray) (o : options) (s : pyplot)
        (cm : Dict.t string) (rows : Z) :
  figure_grid o = Some (rows, 1%Z) ->
  (0 < rows)%Z ->
  (forall a, In a (Dict.values datas) -> mesh_fits (pixel_size o) a) ->
  (forall a b, In a (Dict.values datas) -> In b (Dict.values datas) ->
               shape a = shape b) ->
  assign_colormap (color_map o) datas = Ok cm ->
  (forall k c, In k (Dict.keys datas) -> Dict.get cm k = Ok c ->
               In c (colormaps s)) ->
  (forall k, In k (Dict.keys datas) ->
             saved_as_named (individual_name (label o) (extension o) k)) ->
  In "Greys_r" (colormaps s) ->
  In "CP" (Dict.keys datas) ->
  (exists key, In key (Dict.keys datas) /\ key <> "CP") ->
  exists s',
    map_series datas o s = (Raise IndexError, s')
    /\ names (saved s')
       = names (saved s)
         ++ map (individual_name (label o) (extension o)) (Dict.keys datas).
Proof.
  intros Hgrid Hrows Hfits Hshape Hcm Hreg Hnamed Hgreys Hcp Hother.
  assert (Hne : datas <> []) by (intros ->; destruct Hcp).
  destruct (grid_call datas o s cm (rows, 1%Z) Hne Hfits Hshape Hcm Hreg
                      Hnamed Hgrid)
    as [xy [files [s' [Hmesh [Hnames Hend]]]]].
  assert (Hfail : combined_render (colormaps s) datas xy cm
                    (or_empty (limits o)) (or_empty (kwargs_for_fig o))
                    (or_empty (kwargs_for_grid o))
                    (or_empty (kwargs_for_imshow o)) (rows, 1%Z)
                  = Raise IndexError).
  { unfold combined_render. cbn [fst snd].
    replace ((rows <=? 0) || (1 <=? 0))%Z%bool with false.
    2:{ symmetry. apply orb_false_iff. split; apply Z.leb_gt; lia. }
    pose proof Hcp as Hcp'. apply str_in_true in Hcp'. rewrite Hcp'.
    rewrite gs_getitem_inside by lia. cbn [rbind].
    destruct (dict_get_in _ _ Hcp) as [cp Hget]. rewrite Hget. cbn [rbind].
    destruct (quadmesh_for_ok (colormaps s) xy cp "Greys_r" None None []
                (Hmesh "CP" cp (dict_get_found _ _ _ Hget)) Hgreys)
      as [im [-> _]].
    cbn [rbind fst snd].
    rewrite grid_axes_outside_column; try lia; [reflexivity|].
    now apply cells_needed_other. }
  rewrite Hfail in Hend. destruct Hend as [Hrun Hs].
  exists s'. split; [exact Hrun|].
  rewrite Hs. unfold names in *. now rewrite map_app, Hnames.
Qed.

Lemma one_column_grid_with_CP_witness :
  exists s',
    map_series CP_Fe (with_grid (2, 1)%Z None) idle = (Raise IndexError, s')
    /\ names (saved s')
       = names (saved idle)
         ++ map (individual_name "map" ".png") (Dict.keys CP_Fe).
Proof.
  apply (one_column_grid_with_CP
           CP_Fe (with_grid (2, 1)%Z None) idle
           [("CP", "Greys"); ("Fe", "Purples")] 2%Z).
  - reflexivity.
  - lia.
  - intros a Ha. cbn in Ha.
    destruct Ha as [<-|[<-|[]]]; split; vm_compute; reflexivity.
  - intros a b Ha Hb. cbn in Ha, Hb.
    destruct Ha as [<-|[<-|[]]], Hb as [<-|[<-|[]]]; reflexivity.
  - reflexivity.
  - intros k c Hk Hc. cbn in Hk.
    destruct Hk as [<-|[<-|[]]]; vm_compute in Hc; injection Hc as <-;
      cbn; tauto.
  - intros k Hk. cbn in Hk.
    destruct Hk as [<-|[<-|[]]]; vm_compute; reflexivity.
  - cbn. tauto.
  - cbn. tauto.
  - exists "Fe". split; [cbn; tauto | discriminate].
Defined.

(** C6, where the source falls short.  The draw call for the cell of CP
    in the combined figure is given no bounds: whatever the table of
    limits says about CP, the image and its colorbar are scaled to the
    data, that is to the range of the counts as the colorbar takes it
    (widened by a tenth on each side when all counts are the same).
    (The individual figure of CP and the other cells of the grid follow
    the table, see [individual_files_bounds].) *)
Theorem combined_CP_ignores_limits
        (datas : Dict.t ndarray) (o : options) (s : pyplot)
        (cm : Dict.t string) (rows columns : Z) (cp : ndarray) :
  figure_grid o = Some (rows, columns) ->
  (0 < rows)%Z -> (2 <= columns)%Z ->
  (Z.of_nat (List.length datas) <= rows * columns)%Z ->
  NoDup (Dict.keys datas) ->
  (forall a, In a (Dict.values datas) -> mesh_fits (pixel_size o) a) ->
  (forall a b, In a (Dict.values datas) -> In b (Dict.values datas) ->
               shape a = shape b) ->
  assign_colormap (color_map o) datas = Ok cm ->
  (forall k c, In k (Dict.keys datas) -> Dict.get cm k = Ok c ->
               In c (colormaps s)) ->
  (forall k, In k (Dict.keys datas) ->
             saved_as_named (individual_name (label o) (extension o) k)) ->
  saved_as_named (combined_name (label o) (extension o)) ->
  In "Greys_r" (colormaps s) ->
  Dict.get datas "CP" = Ok cp ->
  wf_array cp ->
  exists s' files g cpax im bar,
    map_series datas o s = (Ok tt, s')
    /\ saved s'
       = saved s ++ files
         ++ [(combined_name (label o) (extension o), 300%Z, g)]
    /\ last (fig_axes g) (0%nat, new_axes None) = (0%nat, cpax)
    /\ ax_image cpax = Some im
    /\ qm_clim im = scale_of (data_range cp)
    /\ ax_colorbar cpax = Some bar
    /\ cb_bounds bar = scale_of (data_range cp).
Proof.
  intros Hgrid Hrows Hcols Hfit Hnd Hfits Hshape Hcm Hreg Hnamed Hall Hgreys
         Hget Hwf.
  assert (Hcp : In "CP" (Dict.keys datas)).
  { apply dict_get_found in Hget. apply (in_map fst) in Hget. exact Hget. }
  assert (Hne : datas <> []) by (intros ->; destruct Hcp).
  destruct (grid_call datas o s cm (rows, columns) Hne Hfits Hshape Hcm Hreg
                      Hnamed Hgrid)
    as [xy [files [s' [Hmesh [Hnames Hend]]]]].
  assert (Hdraw : forall k v kw, In (k, v) datas ->
            exists im, image_with_limits (colormaps s) xy (rotate_m90 v) cm
                                         (or_empty (limits o)) k kw = Ok im).
  { intros k v kw Hin.
    assert (Hk : In k (Dict.keys datas))
      by (apply (in_map fst) in Hin; exact Hin).
    destruct (assign_colormap_covers _ _ _ k Hcm Hk) as [c0 Hc0].
    destruct (image_with_limits_ok (colormaps s) xy v cm
                (or_empty (limits o)) k c0 kw (Hmesh k v Hin) Hc0
                (Hreg k c0 Hk Hc0)) as [im [Him _]].
    eauto. }
  destruct (combined_render_fits datas o s cm rows columns Hnd Hrows
              ltac:(lia) (fun _ => conj Hcols Hgreys) xy Hmesh Hdraw)
    as [Hok _].
  destruct (Hok Hfit) as [g Hg]. rewrite Hg, Hall in Hend.
  destruct Hend as [Hrun Hs].
  destruct (combined_render_layout _ _ _ _ _ _ _ _ _ _ _ Hcp Hcols Hg)
    as [_ [cp' [cpax [im [bar [Hget' [Hlast [Him [_ [Hclim [Hbar Hb]]]]]]]]]]].
  rewrite Hget in Hget'. injection Hget' as <-.
  destruct (rotate_keeps_range cp Hwf) as [Hmin Hmax].
  unfold data_range in *. rewrite Hmin, Hmax in Hclim.
  exists s', files, g, cpax, im, bar.
  repeat split; try assumption. now rewrite Hb.
Qed.

Lemma combined_CP_ignores_limits_witness :
  exists s' files g cpax im bar,
    map_series CP_Fe CP_limits idle = (Ok tt, s')
    /\ saved s'
       = saved idle ++ files ++ [(combined_name "map" ".png", 300%Z, g)]
    /\ last (fig_axes g) (0%nat, new_axes None) = (0%nat, cpax)
    /\ ax_image cpax = Some im
    /\ qm_clim im
       = (Some 2.7000000000000002%float, Some 3.2999999999999998%float)
    /\ ax_colorbar cpax = Some bar
    /\ cb_bounds bar
       = (Some 2.7000000000000002%float, Some 3.2999999999999998%float).
Proof.
  apply (combined_CP_ignores_limits
           CP_Fe CP_limits idle [("CP", "Greys"); ("Fe", "Purples")]
           1%Z 2%Z (unit_map 3)).
  - reflexivity.
  - lia.
  - lia.
  - cbn. lia.
  - repeat constructor; cbn; intuition discriminate.
  - intros a Ha. cbn in Ha.
    destruct Ha as [<-|[<-|[]]]; split; vm_compute; reflexivity.
  - intros a b Ha Hb. cbn in Ha, Hb.
    destruct Ha as [<-|[<-|[]]], Hb as [<-|[<-|[]]]; reflexivity.
  - reflexivity.
  - intros k c Hk Hc. cbn in Hk.
    destruct Hk as [<-|[<-|[]]]; vm_compute in Hc; injection Hc as <-;
      cbn; tauto.
  - intros k Hk. cbn in Hk.
    destruct Hk as [<-|[<-|[]]]; vm_compute; reflexivity.
  - vm_compute. reflexivity.
  - cbn. tauto.
  - reflexivity.
  - split; [reflexivity | repeat constructor].
Defined.

(** ** Concrete calls *)

Lemma read_data_exclude_Cr_witness :
  exists d,
    read_data two_elements "maps\" (Some ["Cr"]) = Ok d
    /\ Dict.keys d = ["Fe"].
Proof.
  apply (read_data_exclude_Cr two_elements "maps\").
  - intros x Hx. vm_compute in Hx.
    destruct Hx as [<-|[<-|[]]]; [left | right]; split; reflexivity.
  - exists "maps\01.Fe.pm". split; [vm_compute; tauto | reflexivity].
  - intros f Hf. vm_compute in Hf.
    destruct Hf as [<-|[<-|[]]]; [left | right]; reflexivity.
  - exists "maps\01_x.txt". split; [vm_compute; tauto | reflexivity].
  - intros f Hf _. vm_compute in Hf.
    destruct Hf as [<-|[<-|[]]]; eexists; reflexivity.
Defined.

Lemma read_data_skips_unmatched_witness :
  exists d,
    read_data three_data_files "maps\" None = Ok d
    /\ read_data two_elements "maps\" None = Ok d
    /\ (forall k a, In (k, a) d ->
          exists f i,
            In f (["maps\01_x.txt"] ++ ["maps\02_x.txt"])
            /\ map_index f = Ok i
            /\ Dict.get [("01", "Fe"); ("02", "Cr")] i = Ok k
            /\ loadtxt three_data_files f = Ok a)
    /\ (forall f i k,
          In f (["maps\01_x.txt"] ++ ["maps\02_x.txt"]) ->
          map_index f = Ok i ->
          Dict.get [("01", "Fe"); ("02", "Cr")] i = Ok k ->
          In k (Dict.keys d))
    /\ (forall l1 f l2 i k a,
          ["maps\01_x.txt"] ++ ["maps\02_x.txt"] = l1 ++ f :: l2 ->
          map_index f = Ok i ->
          Dict.get [("01", "Fe"); ("02", "Cr")] i = Ok k ->
          loadtxt three_data_files f = Ok a ->
          (forall g j, In g l2 -> map_index g = Ok j ->
                       Dict.get [("01", "Fe"); ("02", "Cr")] j <> Ok k) ->
          Dict.get d k = Ok a).
Proof.
  apply (read_data_skips_unmatched
           three_data_files two_elements "maps\" None
           [("01", "Fe"); ("02", "Cr")]
           ["maps\01_x.txt"] ["maps\02_x.txt"] "maps\03_x.txt" "03").
  - reflexivity.
  - reflexivity.
  - reflexivity.
  - intros f Hf. cbn in Hf. destruct Hf as [<-|[<-|[]]]; reflexivity.
  - reflexivity.
  - reflexivity.
  - cbn. intros [H|[H|[]]]; discriminate.
  - intros f i Hf _ _. cbn in Hf.
    destruct Hf as [<-|[<-|[]]]; eexists; reflexivity.
Defined.

(** The directory of three data files gives the maps of Fe and Cr, the
    unreadable third file notwithstanding. *)
Example three_data_files_example :
  read_data three_data_files "maps\" None
  = Ok [("Fe", square_map 7); ("Cr", square_map 9)].
Proof. vm_compute. reflexivity. Qed.


Lemma map_series_deterministic_witness :
  exists r files s1' s2',
    map_series Fe_Cu (with_grid (1, 2)%Z None) idle = (r, s1')
    /\ map_series Fe_Cu (with_grid (1, 2)%Z None) after_one_call = (r, s2')
    /\ saved s1' = saved idle ++ files
    /\ saved s2' = saved after_one_call ++ files
    /\ (saved after_one_call = saved s1' ->
        written (saved s2') = written (saved s1')).
Proof.
  apply (map_series_deterministic
           Fe_Cu (with_grid (1, 2)%Z None) idle after_one_call).
  reflexivity.
Defined.



(** C8, where the source falls short.  A call with a grid that returns
    leaves one figure more open than it found: the combined figure is
    saved and never closed. *)
Theorem combined_figure_stays_open
        (datas : Dict.t ndarray) (o : options) (grid : Z * Z)
        (s s' : pyplot) :
  figure_grid o = Some grid ->
  map_series datas o s = (Ok tt, s') ->
  List.length (figs s') = S (List.length (figs s)).
Proof.
  intros Hgrid Hcall.
  destruct (map_series_run datas o s) as [s0 [Hrun [_ [_ Hf]]]].
  rewrite Hcall in Hrun. injection Hrun as Hr <-.
  rewrite Hgrid in Hf. destruct (Hf (eq_sym Hr)) as [g ->]. reflexivity.
Qed.

Lemma combined_figure_stays_open_witness :
  List.length (figs after_one_call) = S (List.length (figs idle)).
Proof.
  apply (combined_figure_stays_open
           Fe_Cu (with_grid (1, 2)%Z None) (1, 2)%Z idle after_one_call).
  - reflexivity.
  - vm_compute. reflexivity.
Defined.

(** With [limits = {CP: (0, 5)}] the individual figure of CP is drawn and
    its colorbar bounded with (0, 5), but the CP cell of the combined
    figure is scaled to the data: all counts are 3, which the colorbar
    widens to about (2.7, 3.3). *)
Example CP_bounds_example :
  map (fun e => (fst (fst e), image_bounds (snd e), colorbar_bounds (snd e)))
      (saved (snd (map_series [("CP", unit_map 3)]
                              (with_grid (1, 1)%Z (Some [("CP", (0, 5)%float)]))
                              idle)))
  = [("map_CP.png", [(Some 0%float, Some 5%float)],
      [(Some 0%float, Some 5%float)]);
     ("map_all.png",
      [(Some 2.7000000000000002%float, Some 3.2999999999999998%float)],
      [(Some 2.7000000000000002%float, Some 3.2999999999999998%float)])].
Proof. vm_compute. reflexivity. Qed.

(** CP and Fe in two rows of one column, and in one row of two columns:
    the first call raises, the second places Fe after CP. *)
Example one_column_example :
  fst (map_series CP_Fe (with_grid (2, 1)%Z None) idle) = Raise IndexError
  /\ names (saved (snd (map_series CP_Fe (with_grid (2, 1)%Z None) idle)))
     = ["map_CP.png"; "map_Fe.png"]
  /\ map (fun e => (fst (fst e), placement (snd e)))
         (saved (snd (map_series CP_Fe (with_grid (1, 2)%Z None) idle)))
     = [("map_CP.png",
         [(None, Some "CP", Some "y ($\mu m$)", Some "x ($\mu m$)")]);
        ("map_Fe.png",
         [(None, Some "Fe", Some "y ($\mu m$)", Some "x ($\mu m$)")]);
        ("map_all.png",
         [(Some (0, 1)%Z, Some "Fe", None, Some "x ($\mu m$)");
          (Some (0, 0)%Z, None, Some "y ($\mu$m)", None)])].
Proof. repeat split; vm_compute; reflexivity. Qed.

(** * Part three: further properties of the code *)

(** ** Parsing the file names (lines 36 and 40) *)

Lemma str_app_assoc (a b c : string) :
  ((a ++ b) ++ c)%string = (a ++ (b ++ c))%string.
Proof. induction a as [|x a IH]; cbn; [reflexivity | now rewrite IH]. Qed.

Lemma has_char_app (c : ascii) (a b : string) :
  has_char c (a ++ b) = has_char c a || has_char c b.
Proof.
  induction a as [|x a IH]; cbn; [reflexivity|].
  now rewrite IH, orb_assoc.
Qed.

Lemma str_split_no_sep (sep : ascii) (s : string) :
  has_char sep s = false -> str_split sep s = [s].
Proof.
  induction s as [|c s IH]; cbn; [reflexivity|].
  intros H. apply orb_false_iff in H. destruct H as [Hc Hs].
  rewrite Hc, (IH Hs). reflexivity.
Qed.

(** Splitting distributes over a separator. *)
Lemma str_split_app_sep (sep : ascii) (a b : string) :
  str_split sep (a ++ String sep b) = str_split sep a ++ str_split sep b.
Proof.
  induction a as [|c a IH]; cbn.
  - now rewrite Ascii.eqb_refl.
  - destruct (Ascii.eqb c sep).
    + now rewrite IH.
    + rewrite IH. destruct (str_split sep a) as [|w ws] eqn:E.
      * exfalso. exact (str_split_nonempty _ _ E).
      * reflexivity.
Qed.

(** Text without separator after a string goes to its last part. *)
Lemma str_split_app_tail (sep : ascii) (a b : string) :
  has_char sep b = false ->
  exists front w,
    str_split sep a = front ++ [w]
    /\ str_split sep (a ++ b) = front ++ [(w ++ b)%string].
Proof.
  intros Hb. induction a as [|c a IH]; cbn.
  - exists [], EmptyString. split; [reflexivity|].
    cbn. now apply str_split_no_sep.
  - destruct IH as [front [w [Ha Hab]]]. rewrite Ha, Hab.
    destruct (Ascii.eqb c sep).
    + exists (EmptyString :: front), w. split; reflexivity.
    + destruct front as [|f front]; cbn.
      * exists [], (String c w). split; reflexivity.
      * exists (String c f :: front), w. split; reflexivity.
Qed.

Lemma py_index_from_end {A} (l1 l2 : list A) (a : A) :
  py_index (l1 ++ a :: l2) (- Z.of_nat (S (List.length l2))) = Ok a.
Proof.
  unfold py_index. rewrite length_app. cbn [List.length].
  replace (- Z.of_nat (S (List.length l2)) <? 0)%Z with true
    by (symmetry; apply Z.ltb_lt; lia).
  replace (- Z.of_nat (S (List.length l2))
           + Z.of_nat (List.length l1 + S (List.length l2)))%Z
    with (Z.of_nat (List.length l1)) by lia.
  replace ((0 <=? Z.of_nat (List.length l1))
           && (Z.of_nat (List.length l1)
               <? Z.of_nat (List.length l1 + S (List.length l2))))%Z%bool
    with true.
  - rewrite Nat2Z.id, nth_error_app2 by lia.
    now rewrite Nat.sub_diag.
  - symmetry. apply andb_true_iff. split.
    + apply Z.leb_le. lia.
    + apply Z.ltb_lt. lia.
Qed.

(** X1.  The index token of a data file named [dir\index_rest] is [index],
    whatever the directory part and whatever underscores follow, as long
    as the index holds neither separator and the rest no backslash. *)
Theorem map_index_of_data_file (dir index rest : string) :
  has_char backslash index = false ->
  has_char underscore index = false ->
  has_char backslash rest = false ->
  map_index (data_file_name dir index rest) = Ok index.
Proof.
  intros Hib Hiu Hrb. unfold map_index, data_file_name.
  rewrite str_split_app_sep.
  rewrite (str_split_no_sep backslash (index ++ String underscore rest)).
  2:{ rewrite has_char_app, Hib. cbn. exact Hrb. }
  change (-1)%Z with (- Z.of_nat (S (@List.length string [])))%Z.
  rewrite py_index_from_end. cbn [rbind].
  rewrite str_split_app_sep, (str_split_no_sep underscore index Hiu).
  cbn [app]. apply py_index_head.
Qed.

Lemma map_index_of_data_file_witness :
  map_index (data_file_name "Maps1/.map/2" "01" "Fe_Ka.txt") = Ok "01".
Proof.
  apply (map_index_of_data_file "Maps1/.map/2" "01" "Fe_Ka.txt");
    reflexivity.
Defined.

(** X2.  A metadata file named [dir\index.label.suffix] yields the index
    and the label, also when the directory part holds dots or
    backslashes of its own: the tokens are counted from the end. *)
Theorem pm_tokens_of_pm_file (dir index label suffix : string) :
  has_char dot index = false ->
  has_char backslash index = false ->
  has_char dot label = false ->
  has_char dot suffix = false ->
  pm_label (pm_file_name dir index label suffix) = Ok label
  /\ pm_index (pm_file_name dir index label suffix) = Ok index.
Proof.
  intros Hid Hib Hl Hs. unfold pm_label, pm_index, pm_file_name.
  assert (Hsplit : exists front w,
             str_split dot
               (dir ++ String backslash
                         (index ++ String dot (label ++ String dot suffix)))
             = front ++ [(w ++ String backslash index)%string; label; suffix]).
  { replace (dir ++ String backslash
                      (index ++ String dot (label ++ String dot suffix)))%string
      with ((dir ++ String backslash index)
              ++ String dot (label ++ String dot suffix))%string
      by (rewrite str_app_assoc; reflexivity).
    rewrite str_split_app_sep, str_split_app_sep.
    rewrite (str_split_no_sep dot label Hl), (str_split_no_sep dot suffix Hs).
    destruct (str_split_app_tail dot dir (String backslash index))
      as [front [w [_ Hw]]].
    { cbn. exact Hid. }
    rewrite Hw. exists front, w. now rewrite <- app_assoc. }
  destruct Hsplit as [front [w ->]]. split.
  - change (-2)%Z with (- Z.of_nat (S (List.length [suffix])))%Z.
    replace (front ++ [(w ++ String backslash index)%string; label; suffix])
      with ((front ++ [(w ++ String backslash index)%string])
              ++ label :: [suffix])
      by (now rewrite <- app_assoc).
    apply py_index_from_end.
  - change (-3)%Z with (- Z.of_nat (S (List.length [label; suffix])))%Z.
    rewrite py_index_from_end. cbn [rbind].
    rewrite str_split_app_sep, (str_split_no_sep backslash index Hib).
    change (-1)%Z with (- Z.of_nat (S (@List.length string [])))%Z.
    apply py_index_from_end.
Qed.

Lemma pm_tokens_of_pm_file_witness :
  pm_label (pm_file_name "Maps1/.map/2" "01" "Fe" "pm") = Ok "Fe"
  /\ pm_index (pm_file_name "Maps1/.map/2" "01" "Fe" "pm") = Ok "01".
Proof.
  apply (pm_tokens_of_pm_file "Maps1/.map/2" "01" "Fe" "pm"); reflexivity.
Defined.

(** ** What [read_data] returns (lines 29-44) *)

Lemma elements_of_origin (exclude files : list string) :
  forall acc elements i l,
    elements_of exclude files acc = Ok elements ->
    In (i, l) elements ->
    In (i, l) acc
    \/ exists x, In x files /\ pm_index x = Ok i /\ pm_label x = Ok l
                 /\ ~ In l exclude.
Proof.
  induction files as [|x rest IH]; cbn [elements_of];
    intros acc elements i l H Hin.
  - injection H as <-. now left.
  - destruct (pm_label x) as [e|lab] eqn:El; cbn [rbind] in H;
      [discriminate|].
    destruct (str_in lab exclude) eqn:Ex; cbn [negb] in H.
    + destruct (IH _ _ _ _ H Hin) as [Ha|[y [Hy Hrest]]]; [now left|].
      right. exists y. split; [now right | exact Hrest].
    + destruct (pm_index x) as [e|idx] eqn:Ei; cbn [rbind] in H;
        [discriminate|].
      destruct (IH _ _ _ _ H Hin) as [Ha|[y [Hy Hrest]]].
      * destruct (dict_set_in _ _ _ _ _ Ha) as [[-> ->]|Ha']; [|now left].
        right. exists x. split; [now left|]. repeat split; try assumption.
        now apply str_in_false.
      * right. exists y. split; [now right | exact Hrest].
Qed.

(** X3.  Every entry of the dataset comes from the directory: its key is
    the label of a metadata file, not excluded, and its map is the content
    of a data file whose index token is the index of that metadata file. *)
Theorem read_data_entries_from_files
        (fs : filesystem) (loc : string) (exclude : option (list string))
        (d : Dict.t ndarray) (k : string) (a : ndarray) :
  read_data fs loc exclude = Ok d ->
  In (k, a) d ->
  exists x f i,
    In x (glob fs (loc ++ "*.pm")) /\ In f (glob fs (loc ++ "*.txt"))
    /\ pm_index x = Ok i /\ pm_label x = Ok k
    /\ map_index f = Ok i /\ loadtxt fs f = Ok a
    /\ ~ In k (or_empty exclude).
Proof.
  unfold read_data. intros H Hin.
  change (match exclude with None => [] | Some e => e end)
    with (or_empty exclude) in H.
  destruct (elements_of (or_empty exclude) (glob fs (loc ++ "*.pm")) [])
    as [e|els] eqn:E; cbn [rbind] in H; [discriminate|].
  destruct (load_maps_origin _ _ _ _ _ _ _ H Hin) as [[]|[f [i [Hf [Hi [Hg Hl]]]]]].
  apply dict_get_found in Hg.
  destruct (elements_of_origin _ _ _ _ _ _ E Hg) as [[]|[x [Hx [Hxi [Hxl Hex]]]]].
  exists x, f, i. repeat split; assumption.
Qed.

Lemma read_data_entries_from_files_witness :
  exists x f i,
    In x (glob two_elements ("maps\" ++ "*.pm"))
    /\ In f (glob two_elements ("maps\" ++ "*.txt"))
    /\ pm_index x = Ok i /\ pm_label x = Ok "Fe"
    /\ map_index f = Ok i /\ loadtxt two_elements f = Ok (square_map 7)
    /\ ~ In "Fe" (or_empty (Some ["Cr"])).
Proof.
  apply (read_data_entries_from_files
           two_elements "maps\" (Some ["Cr"]) [("Fe", square_map 7)]).
  - reflexivity.
  - now left.
Defined.

Lemma dict_keys_set_in {V} (d : Dict.t V) (k x : string) (v : V) :
  In x (Dict.keys (Dict.set d k v)) -> x = k \/ In x (Dict.keys d).
Proof.
  rewrite dict_keys_set. destruct (str_in k (Dict.keys d)); [tauto|].
  intros H. apply in_app_or in H. destruct H as [H|[<-|[]]]; tauto.
Qed.

Lemma dict_set_nodup {V} (d : Dict.t V) (k : string) (v : V) :
  NoDup (Dict.keys d) -> NoDup (Dict.keys (Dict.set d k v)).
Proof.
  induction d as [|[k0 v0] d IH]; cbn; intros H.
  - constructor; [intros [] | constructor].
  - inversion H as [|? ? Hnot Hd]; subst.
    destruct (String.eqb k k0) eqn:E; cbn.
    + constructor; assumption.
    + constructor; [|now apply IH].
      intros Hin. apply dict_keys_set_in in Hin.
      destruct Hin as [->|Hin]; [|contradiction].
      now rewrite String.eqb_refl in E.
Qed.

Lemma read_data_nodup
      (fs : filesystem) (loc : string) (exclude : option (list string))
      (d : Dict.t ndarray) :
  read_data fs loc exclude = Ok d -> NoDup (Dict.keys d).
Proof.
  unfold read_data. intros H.
  destruct (elements_of _ (glob fs (loc ++ "*.pm")) []) as [e|els];
    cbn [rbind] in H; [discriminate|].
  revert H. generalize (glob fs (loc ++ "*.txt")) as maps.
  assert (G : forall maps datas,
             NoDup (Dict.keys datas) ->
             load_maps fs els maps datas = Ok d -> NoDup (Dict.keys d)).
  { induction maps as [|f rest IH]; cbn [load_maps]; intros datas Hd H.
    - now injection H as <-.
    - destruct (map_index f) as [e|i]; cbn [rbind] in H; [discriminate|].
      destruct (negb (str_in i (Dict.keys els))); [now apply (IH datas)|].
      destruct (loadtxt fs f) as [e|arr]; cbn [rbind] in H; [discriminate|].
      destruct (Dict.get els i) as [e|lab]; cbn [rbind] in H; [discriminate|].
      apply (IH (Dict.set datas lab arr)); [|exact H].
      now apply dict_set_nodup. }
  intros maps. apply G. constructor.
Qed.

(** X4.  The dataset holds each label once, also when several data files
    carry the same index token or several metadata files the same label:
    a later file replaces the map of an earlier one. *)
Theorem read_data_unique_keys
        (fs : filesystem) (loc : string) (exclude : option (list string))
        (d : Dict.t ndarray) :
  read_data fs loc exclude = Ok d -> NoDup (Dict.keys d).
Proof. apply read_data_nodup. Qed.

Lemma read_data_unique_keys_witness :
  NoDup (Dict.keys [("Fe", square_map 8); ("Cr", square_map 9)]).
Proof.
  apply (read_data_unique_keys two_files_one_index "maps\" None).
  reflexivity.
Defined.

(** X5.  A metadata file whose label is excluded has no effect at all: the
    call ends as it does on the directory without that file, also when
    the rest of its name could not be parsed. *)
Theorem read_data_ignores_excluded_metadata
        (fs fs' : filesystem) (loc : string) (exclude : list string)
        (before after : list string) (x lab : string) :
  glob fs (loc ++ "*.pm") = before ++ x :: after ->
  glob fs' (loc ++ "*.pm") = before ++ after ->
  glob fs' (loc ++ "*.txt") = glob fs (loc ++ "*.txt") ->
  (forall f, loadtxt fs' f = loadtxt fs f) ->
  pm_label x = Ok lab ->
  In lab exclude ->
  read_data fs loc (Some exclude) = read_data fs' loc (Some exclude).
Proof.
  intros Hg Hg' Htxt Hload Hl Hex. unfold read_data.
  rewrite Hg, Hg', Htxt.
  assert (E : elements_of exclude (before ++ x :: after) []
              = elements_of exclude (before ++ after) []).
  { clear Hg Hg'. generalize (@nil (string * string)) as acc.
    induction before as [|y rest IH]; intros acc.
    - cbn [app elements_of]. rewrite Hl. cbn [rbind].
      apply str_in_true in Hex. now rewrite Hex.
    - cbn [app elements_of].
      destruct (pm_label y) as [e|l]; cbn [rbind]; [reflexivity|].
      destruct (negb (str_in l exclude)); [|apply IH].
      destruct (pm_index y) as [e|i]; cbn [rbind]; [reflexivity|].
      apply IH. }
  rewrite E.
  destruct (elements_of exclude (before ++ after) []) as [e|els];
    cbn [rbind]; [reflexivity|].
  clear Htxt. generalize (@nil (string * ndarray)) as datas.
  induction (glob fs (loc ++ "*.txt")) as [|f rest IH]; intros datas;
    [reflexivity|].
  cbn [load_maps].
  destruct (map_index f) as [e|i]; cbn [rbind]; [reflexivity|].
  destruct (negb (str_in i (Dict.keys els))); [apply IH|].
  rewrite Hload.
  destruct (loadtxt fs f) as [e|arr]; cbn [rbind]; [reflexivity|].
  destruct (Dict.get els i) as [e|l]; cbn [rbind]; [reflexivity|].
  apply IH.
Qed.

Lemma read_data_ignores_excluded_metadata_witness :
  read_data two_elements "maps\" (Some ["Cr"])
  = read_data Fe_metadata_only "maps\" (Some ["Cr"]).
Proof.
  apply (read_data_ignores_excluded_metadata
           two_elements Fe_metadata_only "maps\" ["Cr"]
           ["maps\01.Fe.pm"] [] "maps\02.Cr.pm" "Cr").
  - reflexivity.
  - reflexivity.
  - reflexivity.
  - reflexivity.
  - reflexivity.
  - now left.
Defined.

Lemma py_index_error {A} (l : list A) (k : Z) (e : pyerr) :
  py_index l k = Raise e -> e = IndexError.
Proof.
  unfold py_index. destruct (_ && _)%bool.
  - destruct (nth_error l _); [discriminate | now intros [= <-]].
  - now intros [= <-].
Qed.

(** X6.  A metadata file whose name has fewer than three dot-separated
    tokens stops the ingestion with [IndexError], unless its label is
    excluded: no dataset is returned, whatever the data files are. *)
Theorem read_data_malformed_metadata
        (fs : filesystem) (loc : string) (exclude : option (list string))
        (x lab : string) (e : pyerr) :
  In x (glob fs (loc ++ "*.pm")) ->
  pm_label x = Ok lab ->
  ~ In lab (or_empty exclude) ->
  pm_index x = Raise e ->
  read_data fs loc exclude = Raise IndexError.
Proof.
  intros Hx Hl Hex Hi. unfold read_data.
  change (match exclude with None => [] | Some e => e end)
    with (or_empty exclude).
  assert (E : forall acc,
             elements_of (or_empty exclude) (glob fs (loc ++ "*.pm")) acc
             = Raise IndexError).
  { revert Hx. generalize (glob fs (loc ++ "*.pm")) as files.
    induction files as [|y rest IH]; intros Hx acc; [destruct Hx|].
    cbn [elements_of].
    destruct (pm_label y) as [e1|l] eqn:Ely; cbn [rbind].
    { unfold pm_label in Ely. now rewrite (py_index_error _ _ _ Ely). }
    destruct (str_in l (or_empty exclude)) eqn:Ein; cbn [negb].
    - apply IH. destruct Hx as [->|Hx]; [|exact Hx].
      rewrite Hl in Ely. injection Ely as <-.
      apply str_in_true in Ein. contradiction.
    - destruct (pm_index y) as [e2|i] eqn:Eiy; cbn [rbind].
      + unfold pm_index in Eiy.
        destruct (py_index (str_split dot y) (-3)) as [e3|stem] eqn:E3;
          cbn [rbind] in Eiy.
        * injection Eiy as <-. now rewrite (py_index_error _ _ _ E3).
        * now rewrite (py_index_error _ _ _ Eiy).
      + apply IH. destruct Hx as [->|Hx]; [|exact Hx].
        rewrite Hi in Eiy. discriminate. }
  now rewrite E.
Qed.

Lemma read_data_malformed_metadata_witness :
  read_data one_dot_metadata "maps\" None = Raise IndexError.
Proof.
  apply (read_data_malformed_metadata
           one_dot_metadata "maps\" None "maps\Cr.pm" "maps\Cr" IndexError).
  - vm_compute. tauto.
  - reflexivity.
  - intros [].
  - reflexivity.
Defined.

(** X7.  The first matched data file that cannot be loaded stops the
    ingestion with the exception of the loader: the maps read before it
    are not returned. *)
Theorem read_data_load_failure
        (fs : filesystem) (loc : string) (exclude : option (list string))
        (elements : Dict.t string) (before after : list string)
        (f i : string) (e : pyerr) :
  glob fs (loc ++ "*.txt") = before ++ f :: after ->
  elements_of (or_empty exclude) (glob fs (loc ++ "*.pm")) [] = Ok elements ->
  (forall g j, In g before -> map_index g = Ok j ->
               In j (Dict.keys elements) ->
               exists a, loadtxt fs g = Ok a) ->
  map_index f = Ok i ->
  In i (Dict.keys elements) ->
  loadtxt fs f = Raise e ->
  read_data fs loc exclude = Raise e.
Proof.
  intros Hg He Hbefore Hi Hin Hl. unfold read_data.
  change (match exclude with None => [] | Some e => e end)
    with (or_empty exclude).
  rewrite He, Hg. cbn [rbind]. clear Hg.
  generalize (@nil (string * ndarray)) as datas.
  induction before as [|g rest IH]; intros datas.
  - cbn [app load_maps]. rewrite Hi. cbn [rbind].
    apply str_in_true in Hin. rewrite Hin. cbn [negb].
    now rewrite Hl.
  - cbn [app load_maps].
    destruct (map_index g) as [e1|j] eqn:Ej; cbn [rbind].
    { destruct (map_index_total g) as [j' Hj']. congruence. }
    destruct (str_in j (Dict.keys elements)) eqn:Es; cbn [negb].
    + apply str_in_true in Es.
      destruct (Hbefore g j (or_introl eq_refl) Ej Es) as [a ->].
      cbn [rbind]. destruct (dict_get_in _ _ Es) as [lab ->]. cbn [rbind].
      apply IH. intros g' j' Hg'. apply Hbefore. now right.
    + apply IH. intros g' j' Hg'. apply Hbefore. now right.
Qed.

Lemma read_data_load_failure_witness :
  read_data unreadable_data_file "maps\" None = Raise ValueError.
Proof.
  apply (read_data_load_failure
           unreadable_data_file "maps\" None [("01", "Fe"); ("02", "Cr")]
           ["maps\01_x.txt"] [] "maps\02_x.txt" "02" ValueError).
  - reflexivity.
  - reflexivity.
  - intros g j [<-|[]] _ _. eexists. reflexivity.
  - reflexivity.
  - cbn. tauto.
  - reflexivity.
Defined.

(** X8.  When several data files resolve to one label, the dataset holds
    the map of the last of them in the listing. *)
Theorem read_data_last_file_wins
        (fs : filesystem) (loc : string) (exclude : option (list string))
        (elements : Dict.t string) (before after : list string)
        (f i k : string) (a : ndarray) (d : Dict.t ndarray) :
  glob fs (loc ++ "*.txt") = before ++ f :: after ->
  elements_of (or_empty exclude) (glob fs (loc ++ "*.pm")) [] = Ok elements ->
  map_index f = Ok i ->
  Dict.get elements i = Ok k ->
  loadtxt fs f = Ok a ->
  (forall g j, In g after -> map_index g = Ok j ->
               Dict.get elements j <> Ok k) ->
  read_data fs loc exclude = Ok d ->
  Dict.get d k = Ok a.
Proof.
  intros Hg He Hi Hk Hl Hafter. unfold read_data.
  change (match exclude with None => [] | Some e => e end)
    with (or_empty exclude).
  rewrite He, Hg. cbn [rbind].
  apply (load_maps_last fs elements before after f i k a Hi Hk Hl Hafter).
Qed.

Lemma read_data_last_file_wins_witness :
  Dict.get [("Fe", square_map 8); ("Cr", square_map 9)] "Fe" = Ok (square_map 8).
Proof.
  apply (read_data_last_file_wins
           two_files_one_index "maps\" None [("01", "Fe"); ("02", "Cr")]
           ["maps\01_a.txt"; "maps\02_x.txt"] [] "maps\01_b.txt" "01" "Fe"
           (square_map 8) [("Fe", square_map 8); ("Cr", square_map 9)]).
  - reflexivity.
  - reflexivity.
  - reflexivity.
  - reflexivity.
  - reflexivity.
  - intros g j [].
  - reflexivity.
Defined.

(** ** The colormap of every element (lines 106-118) *)

Lemma py_index_nat {A} (l : list A) (n : nat) (d : A) :
  (n < List.length l)%nat -> py_index l (Z.of_nat n) = Ok (nth n l d).
Proof.
  intros H. unfold py_index.
  replace (Z.of_nat n <? 0)%Z with false by (symmetry; apply Z.ltb_ge; lia).
  replace ((0 <=? Z.of_nat n) && (Z.of_nat n <? Z.of_nat (List.length l)))%Z%bool
    with true.
  2:{ symmetry. apply andb_true_iff. split;
      [apply Z.leb_le | apply Z.ltb_lt]; lia. }
  rewrite Nat2Z.id. now rewrite (nth_error_nth' l d H).
Qed.

Lemma cycle_colormap_spec (l : list string) (keys : list string) :
  l <> [] ->
  forall acc n,
    NoDup keys ->
    exists cm,
      cycle_colormap l (Z.of_nat (List.length l)) keys acc (Z.of_nat n) = Ok cm
      /\ (forall k, ~ In k keys -> Dict.get cm k = Dict.get acc k)
      /\ (forall p k, nth_error (others keys) p = Some k ->
            Dict.get cm k = Ok (nth ((n + p) mod List.length l) l ""))
      /\ (In "CP" keys -> Dict.get cm "CP" = Ok "Greys").
Proof.
  intros Hl.
  assert (Hlen : (0 < List.length l)%nat)
    by (destruct l; [congruence | cbn; lia]).
  induction keys as [|x rest IH]; intros acc n Hnd.
  - exists acc. cbn. repeat split; try tauto.
    intros [|p] k H; discriminate.
  - inversion Hnd as [|? ? Hx Hrest]; subst. cbn [cycle_colormap].
    destruct (String.eqb x "CP") eqn:E.
    + apply String.eqb_eq in E. subst x.
      destruct (IH (Dict.set acc "CP" "Greys") n Hrest)
        as [cm [Hrun [Hkeep [Hcyc Hcp]]]].
      exists cm. split; [exact Hrun|]. split; [|split].
      * intros k Hk. rewrite Hkeep by (intros H; apply Hk; now right).
        apply dict_get_set_other. intros ->. apply Hk. now left.
      * intros p k Hp. apply Hcyc. exact Hp.
      * intros _. rewrite (Hkeep "CP" Hx). apply dict_get_set_same.
    + replace (Z.of_nat (List.length l) =? 0)%Z with false
        by (symmetry; apply Z.eqb_neq; lia).
      rewrite <- Nat2Z.inj_mod.
      rewrite (py_index_nat l (n mod List.length l) "")
        by (apply Nat.mod_upper_bound; lia).
      cbn [rbind].
      replace (Z.of_nat n + 1)%Z with (Z.of_nat (S n)) by lia.
      destruct (IH (Dict.set acc x (nth (n mod List.length l) l "")) (S n)
                   Hrest) as [cm [Hrun [Hkeep [Hcyc Hcp]]]].
      exists cm. split; [exact Hrun|]. split; [|split].
      * intros k Hk. rewrite Hkeep by (intros H; apply Hk; now right).
        apply dict_get_set_other. intros ->. apply Hk. now left.
      * intros p k Hp. unfold others in Hp. cbn [filter] in Hp.
        rewrite E in Hp. cbn [negb] in Hp. destruct p as [|p].
        -- injection Hp as <-. rewrite (Hkeep x Hx), Nat.add_0_r.
           apply dict_get_set_same.
        -- cbn [nth_error] in Hp.
           replace (n + S p)%nat with (S n + p)%nat by lia.
           apply Hcyc. exact Hp.
      * intros [->|Hin]; [now rewrite String.eqb_refl in E | now apply Hcp].
Qed.

(** X9.  With a non-empty list of colormaps the assignment always
    succeeds.  The elements other than CP take the colormaps of the list
    in insertion order and start again at its head when the list is used
    up; CP takes no slot and gets [Greys], wherever it is in the
    dataset. *)
Theorem assign_colormap_list
        (l : list string) (datas : Dict.t ndarray) :
  l <> [] ->
  NoDup (Dict.keys datas) ->
  exists cm,
    assign_colormap (CmList l) datas = Ok cm
    /\ (forall p k, nth_error (others (Dict.keys datas)) p = Some k ->
          Dict.get cm k = Ok (nth (p mod List.length l) l ""))
    /\ (In "CP" (Dict.keys datas) -> Dict.get cm "CP" = Ok "Greys").
Proof.
  intros Hl Hnd. unfold assign_colormap.
  destruct (cycle_colormap_spec l (Dict.keys datas) Hl [] 0%nat Hnd)
    as [cm [Hrun [_ [Hcyc Hcp]]]].
  exists cm. split; [exact Hrun|]. split; [|exact Hcp].
  intros p k Hp. now apply Hcyc.
Qed.

Lemma assign_colormap_list_witness :
  exists cm,
    assign_colormap (CmList ["Purples"; "Blues"])
      [("CP", unit_map 3); ("Fe", unit_map 1); ("Cu", unit_map 2);
       ("Mn", unit_map 4)] = Ok cm
    /\ (forall p k,
          nth_error (others ["CP"; "Fe"; "Cu"; "Mn"]) p = Some k ->
          Dict.get cm k = Ok (nth (p mod 2) ["Purples"; "Blues"] ""))
    /\ (In "CP" ["CP"; "Fe"; "Cu"; "Mn"] -> Dict.get cm "CP" = Ok "Greys").
Proof.
  apply (assign_colormap_list
           ["Purples"; "Blues"]
           [("CP", unit_map 3); ("Fe", unit_map 1); ("Cu", unit_map 2);
            ("Mn", unit_map 4)]).
  - discriminate.
  - cbn. repeat constructor; cbn; intuition discriminate.
Defined.

(** X10.  With a single colormap name every element of the dataset is
    assigned that colormap, CP as any other. *)
Theorem assign_colormap_single
        (c : string) (datas : Dict.t ndarray) (k : string) :
  In k (Dict.keys datas) ->
  exists cm,
    assign_colormap (CmStr c) datas = Ok cm /\ Dict.get cm k = Ok c.
Proof.
  intros Hk. eexists. split; [reflexivity|].
  assert (G : forall keys acc,
             (forall x, In x (Dict.keys acc) -> Dict.get acc x = Ok c) ->
             In k keys \/ In k (Dict.keys acc) ->
             Dict.get (fold_left (fun d x => Dict.set d x c) keys acc) k
             = Ok c).
  { induction keys as [|x rest IH]; cbn [fold_left]; intros acc Hacc Hin.
    - destruct Hin as [[]|Hin]. now apply Hacc.
    - apply IH.
      + intros y Hy. destruct (string_dec y x) as [->|Hne].
        * apply dict_get_set_same.
        * rewrite dict_get_set_other by exact Hne.
          apply Hacc. apply dict_keys_set_in in Hy.
          destruct Hy as [->|Hy]; [contradiction | exact Hy].
      + destruct Hin as [[<-|Hin]|Hin].
        * right. apply dict_keys_set_new.
        * now left.
        * right. now apply dict_keys_set_old. }
  apply G; [intros x [] | now left].
Qed.

Lemma assign_colormap_single_witness :
  exists cm,
    assign_colormap (CmStr "Blues") CP_Fe = Ok cm
    /\ Dict.get cm "CP" = Ok "Blues".
Proof.
  apply (assign_colormap_single "Blues" CP_Fe "CP"). now left.
Defined.

Lemma cycle_colormap_no_slot (keys : list string) :
  forall acc index k,
    In k keys -> k <> "CP" ->
    cycle_colormap [] 0 keys acc index = Raise ZeroDivisionError.
Proof.
  induction keys as [|x rest IH]; intros acc index k Hin Hne; [destruct Hin|].
  cbn [cycle_colormap].
  destruct (String.eqb x "CP") eqn:E; [|reflexivity].
  apply String.eqb_eq in E. subst x.
  destruct Hin as [<-|Hin]; [congruence|]. now apply (IH _ _ k).
Qed.

(** X11.  An empty list of colormaps is not rejected as such: once the
    ranges of the mesh are built, the call raises [ZeroDivisionError] on
    the first element other than CP, before any figure is made or any
    file written. *)
Theorem map_series_empty_colormap_list
        (datas : Dict.t ndarray) (o : options) (s : pyplot) (k : string) :
  color_map o = CmList [] ->
  In k (Dict.keys datas) -> k <> "CP" ->
  (forall first, hd_error (Dict.values datas) = Some first ->
                 mesh_built (pixel_size o) first) ->
  map_series datas o s = (Raise ZeroDivisionError, s).
Proof.
  intros Hcm Hk Hne Hbuilt. unfold map_series. rewrite bind_lift.
  destruct datas as [|[key first] more]; [destruct Hk|].
  cbn [Dict.values map snd]. rewrite py_index_head.
  destruct (Hbuilt first eq_refl) as [m [n [Hx Hy]]].
  destruct (arange_ok (fst (shape first)) _ _ Hx) as [xs [Hxs _]].
  destruct (arange_ok (snd (shape first)) _ _ Hy) as [ys [Hys _]].
  rewrite bind_lift, Hxs, bind_lift, Hys, bind_lift, Hcm.
  unfold assign_colormap. cbn [List.length Z.of_nat].
  now rewrite (cycle_colormap_no_slot _ [] 0%Z k Hk Hne).
Qed.

Lemma map_series_empty_colormap_list_witness :
  map_series CP_Fe no_colormap idle = (Raise ZeroDivisionError, idle).
Proof.
  apply (map_series_empty_colormap_list CP_Fe no_colormap idle "Fe").
  - reflexivity.
  - cbn. tauto.
  - discriminate.
  - intros first [= <-]. exists 1%nat, 1%nat. split; vm_compute; reflexivity.
Defined.

(** ** Calls that raise while drawing (lines 120-189) *)





Lemma individual_files_stop (registry : list string) (xy : mesh)
      (cm : Dict.t string) (lims : Dict.t (float * float)) (label extension : string)
      (before after : list (string * ndarray)) (key : string)
      (values : ndarray) (e : pyerr) :
  (forall k v, In (k, v) before ->
     exists im, image_with_limits registry xy (rotate_m90 v) cm lims k []
                = Ok im) ->
  (forall k, In k (Dict.keys before) ->
             saved_as_named (individual_name label extension k)) ->
  image_with_limits registry xy (rotate_m90 values) cm lims key [] = Raise e ->
  snd (individual_files registry xy cm lims label extension
                        (before ++ (key, values) :: after)) = Raise e
  /\ names (fst (individual_files registry xy cm lims label extension
                                  (before ++ (key, values) :: after)))
     = map (individual_name label extension) (Dict.keys before).
Proof.
  intros Hbefore Hnamed Hkey. induction before as [|[k v] rest IH].
  - cbn [app individual_files]. rewrite Hkey. split; reflexivity.
  - cbn [app individual_files].
    destruct (Hbefore k v (or_introl eq_refl)) as [im ->].
    rewrite (Hnamed k (or_introl eq_refl)).
    destruct IH as [IH1 IH2].
    { intros k' v' Hin. apply Hbefore. now right. }
    { intros k' Hin. apply Hnamed. now right. }
    cbn [fst snd names map Dict.keys]. split; [exact IH1|].
    f_equal. exact IH2.
Qed.

(** X13.  The mesh is built from the shape of the first map alone and
    the shapes are never compared.  A later map of another shape is
    found by the draw call only: when the pixel size gives the mesh the
    shape of the first map and [savefig] accepts the names of the
    elements before the other map, the call raises [TypeError] after it
    has written the files of those elements. *)
Theorem map_series_shape_mismatch
        (datas : Dict.t ndarray) (o : options) (s : pyplot)
        (cm : Dict.t string) (key0 key : string) (first values : ndarray)
        (before after : Dict.t ndarray) :
  datas = (key0, first) :: before ++ (key, values) :: after ->
  mesh_fits (pixel_size o) first ->
  assign_colormap (color_map o) datas = Ok cm ->
  (forall k c, In k (key0 :: Dict.keys before) -> Dict.get cm k = Ok c ->
               In c (colormaps s)) ->
  (forall k, In k (key0 :: Dict.keys before) ->
             saved_as_named (individual_name (label o) (extension o) k)) ->
  (forall a, In a (Dict.values before) -> shape a = shape first) ->
  shape values <> shape first ->
  exists s',
    map_series datas o s = (Raise TypeError, s')
    /\ names (saved s')
       = names (saved s)
         ++ map (individual_name (label o) (extension o))
                (key0 :: Dict.keys before).
Proof.
  intros Hd Hfits Hcm Hreg Hnamed Hshape Hdiff.
  destruct (map_series_run datas o s) as [s' [Hrun [_ [Hs _]]]].
  destruct (prepare_ok datas o key0 first
              (before ++ (key, values) :: after) cm Hd Hfits Hcm)
    as [xy [Hp Hmesh]].
  assert (Hcover : forall k, In k (Dict.keys datas) ->
                             exists c, Dict.get cm k = Ok c)
    by (intros k Hk; now apply (assign_colormap_covers _ _ _ k Hcm)).
  assert (Hgood : forall k v, In (k, v) ((key0, first) :: before) ->
            exists im, image_with_limits (colormaps s) xy (rotate_m90 v) cm
                                         (or_empty (limits o)) k [] = Ok im).
  { intros k v Hin.
    assert (Hk : In k (key0 :: Dict.keys before)).
    { apply (in_map fst) in Hin. exact Hin. }
    destruct (Hcover k) as [c0 Hc0].
    { rewrite Hd. cbn [Dict.keys map fst] in *. unfold Dict.keys.
      rewrite map_app. destruct Hk as [Hk|Hk]; [now left|].
      right. apply in_or_app. now left. }
    assert (Hv : shape v = shape first).
    { destruct Hin as [[= _ <-]|Hin]; [reflexivity|].
      apply Hshape. apply (in_map snd) in Hin. exact Hin. }
    unfold shape in Hv. injection Hv as Hr Hc.
    destruct (image_with_limits_ok (colormaps s) xy v cm
                (or_empty (limits o)) k c0 []) as [im [Him _]].
    - now rewrite Hmesh, Hr, Hc.
    - exact Hc0.
    - now apply (Hreg k c0).
    - eauto. }
  assert (Hbad : image_with_limits (colormaps s) xy (rotate_m90 values) cm
                                   (or_empty (limits o)) key [] = Raise TypeError).
  { unfold image_with_limits.
    destruct (Hcover key) as [c0 ->].
    { rewrite Hd. cbn [Dict.keys map fst]. unfold Dict.keys.
      rewrite map_app. right. apply in_or_app. right. now left. }
    cbn [rbind].
    assert (Hq : forall vmin vmax,
               quadmesh_for (colormaps s) xy (rotate_m90 values) c0 vmin vmax []
               = Raise TypeError).
    { intros vmin vmax. unfold quadmesh_for. rewrite Hmesh.
      cbn [shape rotate_m90 nrows ncols fst snd].
      destruct (Nat.eqb (ncols values) (ncols first)) eqn:E1;
        [|reflexivity].
      destruct (Nat.eqb (nrows values) (nrows first)) eqn:E2;
        [|reflexivity].
      apply Nat.eqb_eq in E1, E2. exfalso. apply Hdiff.
      unfold shape. now rewrite E1, E2. }
    destruct (str_in key (Dict.keys (or_empty (limits o)))) eqn:E.
    - apply str_in_true in E. destruct (dict_get_in _ _ E) as [lim ->].
      cbn [rbind]. apply Hq.
    - apply Hq. }
  destruct (individual_files_stop (colormaps s) xy cm (or_empty (limits o))
              (label o) (extension o) ((key0, first) :: before) after key
              values TypeError Hgood Hnamed Hbad) as [Hend Hnames].
  unfold rendered in *. rewrite Hp in *. unfold Dict.items in *.
  rewrite Hd in *. cbn [app] in Hend, Hnames.
  destruct (individual_files (colormaps s) xy cm (or_empty (limits o))
              (label o) (extension o)
              ((key0, first) :: before ++ (key, values) :: after))
    as [files r].
  cbn [fst snd] in *. subst r. cbn [fst snd] in *.
  exists s'. split; [exact Hrun|].
  rewrite Hs. unfold names in *. rewrite map_app, Hnames. reflexivity.
Qed.

Lemma map_series_shape_mismatch_witness :
  exists s',
    map_series Fe_Cu_wide without_grid idle = (Raise TypeError, s')
    /\ names (saved s')
       = names (saved idle)
         ++ map (individual_name "map" ".png") ("Fe" :: @Dict.keys ndarray []).
Proof.
  apply (map_series_shape_mismatch
           Fe_Cu_wide without_grid idle [("Fe", "Purples"); ("Cu", "Blues")]
           "Fe" "Cu" (unit_map 7) (wide_map 1 2) [] []).
  - reflexivity.
  - split; vm_compute; reflexivity.
  - reflexivity.
  - intros k c [<-|[]] [= <-]. cbn. tauto.
  - intros k [<-|[]]. vm_compute. reflexivity.
  - intros a [].
  - discriminate.
Defined.



(** ** What the combined figure shows (lines 140-189) *)




(** A file that is written is written under the name [savefig] makes of
    the name it is given. *)
Lemma savefig_file_name (name file : string) :
  savefig_file name = Ok file -> file = savefig_name name.
Proof.
  unfold savefig_file.
  destruct (str_in _ _); [now intros [= <-] | discriminate].
Qed.

(** The colorbar leaves a scale alone that is neither a single value nor
    too narrow, reversed or infinite. *)
Lemma scale_of_regular (lo hi : float) :
  nonsingular lo hi = (lo, hi) ->
  scale_of (Some lo, Some hi) = (Some lo, Some hi).
Proof.
  intros H. unfold scale_of, colorbar_limits. now rewrite H.
Qed.

(** An element in the table of limits is drawn with its pair. *)
Lemma image_with_limits_given (registry : list string) (xy : mesh)
      (C : ndarray) (cm : Dict.t string) (lims : Dict.t (float * float))
      (key : string) (kw : kwargs) (im : quadmesh) (lim : float * float) :
  image_with_limits registry xy C cm lims key kw = Ok im ->
  Dict.get lims key = Ok lim ->
  qm_clim im = (Some (fst lim), Some (snd lim)).
Proof.
  intros Him Hlim. unfold image_with_limits in Him.
  assert (E : str_in key (Dict.keys lims) = true).
  { apply str_in_true. apply dict_get_found in Hlim.
    apply (in_map fst) in Hlim. exact Hlim. }
  rewrite E, Hlim in Him.
  destruct (Dict.get cm key) as [e|cmap]; cbn [rbind] in Him;
    [discriminate|].
  unfold quadmesh_for in Him.
  destruct (negb _) in Him; [discriminate|].
  destruct (negb _) in Him; [discriminate|].
  now injection Him as <-.
Qed.

Lemma grid_axes_cells (registry : list string) (gs : gridspec)
      (rows columns : Z) (xy : mesh) (cm : Dict.t string)
      (lims : Dict.t (float * float)) (kw : kwargs)
      (items : list (string * ndarray)) :
  forall i j axs r,
    grid_axes registry gs rows columns xy cm lims kw items i j axs = Ok r ->
    forall a, In a r ->
      In a axs
      \/ exists key values im cell i' j',
           In (key, values) items /\ key <> "CP"
           /\ image_with_limits registry xy (rotate_m90 values) cm lims key kw
              = Ok im
           /\ snd a = grid_axes_of im key cell rows i' j'.
Proof.
  induction items as [|[key values] more IH]; intros i j axs r H a Ha.
  - cbn in H. injection H as <-. now left.
  - cbn [grid_axes] in H.
    destruct (String.eqb key "CP") eqn:E.
    + destruct (IH _ _ _ _ H a Ha) as [Hin|Hnew]; [now left|].
      right. destruct Hnew as [k [v [im [cell [i' [j' [Hin Hrest]]]]]]].
      exists k, v, im, cell, i', j'. split; [now right | exact Hrest].
    + destruct (gs_getitem gs i j) as [e|cell]; cbn [rbind] in H;
        [discriminate|].
      destruct (image_with_limits registry xy (rotate_m90 values) cm lims
                                  key kw) as [e|im] eqn:Eim;
        cbn [rbind] in H; [discriminate|].
      destruct (next_cell columns i j) as [e|ij]; cbn [rbind] in H;
        [discriminate|].
      destruct (IH _ _ _ _ H a Ha) as [[<-|Hin]|Hnew].
      * right. exists key, values, im, cell, i, j.
        split; [now left|]. split.
        { intros ->. now rewrite String.eqb_refl in E. }
        split; [exact Eim | reflexivity].
      * now left.
      * right. destruct Hnew as [k [v [im' [cell' [i' [j' [Hin Hrest]]]]]]].
        exists k, v, im', cell', i', j'. split; [now right | exact Hrest].
Qed.

(** X16.  In the combined figure of a call that returns, every cell
    with a title shows an element other than CP, and the colorbar of the
    cell has the bounds of the image.  For an element with an entry in
    the table of limits these bounds are what the colorbar makes of the
    entry: the entry itself, unless it is a single value, too narrow,
    reversed or infinite, which the colorbar widens or sorts. *)
Theorem combined_cells_follow_limits
        (datas : Dict.t ndarray) (o : options) (s s' : pyplot)
        (grid : Z * Z) :
  figure_grid o = Some grid ->
  map_series datas o s = (Ok tt, s') ->
  exists files g,
    saved s'
    = saved s ++ files
      ++ [(savefig_name (combined_name (label o) (extension o)), 300%Z, g)]
    /\ forall id a key,
         In (id, a) (fig_axes g) -> ax_title a = Some key ->
         exists values im bar,
           In (key, values) datas /\ key <> "CP"
           /\ ax_image a = Some im /\ ax_colorbar a = Some bar
           /\ cb_bounds bar = qm_clim im
           /\ (forall lim, Dict.get (or_empty (limits o)) key = Ok lim ->
                 qm_clim im = scale_of (Some (fst lim), Some (snd lim))
                 /\ (nonsingular (fst lim) (snd lim) = lim ->
                     qm_clim im = (Some (fst lim), Some (snd lim)))).
Proof.
  intros Hgrid Hcall.
  destruct (map_series_run datas o s) as [s0 [Hrun [_ [Hs _]]]].
  rewrite Hcall in Hrun. injection Hrun as Hr <-.
  unfold rendered in *.
  destruct (prepare datas o) as [e|[xy cm]]; [discriminate|].
  destruct (individual_files (colormaps s) xy cm (or_empty (limits o))
              (label o) (extension o) (Dict.items datas)) as [files r].
  cbn [fst snd] in *. rewrite Hgrid in *.
  destruct r as [e|[]]; [discriminate|].
  destruct (combined_render (colormaps s) datas xy cm (or_empty (limits o))
              (or_empty (kwargs_for_fig o)) (or_empty (kwargs_for_grid o))
              (or_empty (kwargs_for_imshow o)) grid) as [e|g] eqn:Eg;
    [discriminate|].
  destruct (savefig_file (combined_name (label o) (extension o)))
    as [e|file] eqn:Efile; [discriminate|].
  apply savefig_file_name in Efile. subst file.
  cbn [fst snd] in Hs. exists files, g. split; [exact Hs|].
  intros id a key Hin Htitle.
  unfold combined_render in Eg.
  destruct ((fst grid <=? 0) || (snd grid <=? 0))%Z%bool; [discriminate|].
  match type of Eg with
  | (try start <- ?st; _) = _ => destruct st as [e|[axs0 j0]] eqn:Est
  end; cbn [rbind fst snd] in Eg; [discriminate|].
  match type of Eg with
  | (try axs <- ?ga; _) = _ => destruct ga as [e|axs] eqn:Eaxs
  end; cbn [rbind] in Eg; [discriminate|].
  injection Eg as <-. cbn [fig_axes] in Hin.
  destruct (grid_axes_cells _ _ _ _ _ _ _ _ _ _ _ _ _ Eaxs (id, a) Hin)
    as [Hold|[k [values [im [cell [i' [j' [Hkv [Hne [Him Ha]]]]]]]]]].
  - exfalso. destruct (str_in "CP" (Dict.keys datas)).
    + destruct (gs_getitem _ 0 0) as [e|cell]; cbn [rbind] in Est;
        [discriminate|].
      destruct (Dict.get datas "CP") as [e|cp]; cbn [rbind] in Est;
        [discriminate|].
      destruct (quadmesh_for _ _ _ _ _ _ _) as [e|im]; cbn [rbind] in Est;
        [discriminate|].
      injection Est as <- _. destruct Hold as [[= _ <-]|[]].
      discriminate.
    + injection Est as <- _. destruct Hold.
  - cbn [snd] in Ha. subst a.
    assert (Hk : k = key).
    { unfold grid_axes_of in Htitle.
      destruct (j' =? 0)%Z, (i' + 1 =? fst grid)%Z; cbn in Htitle;
        congruence. }
    subst k.
    exists values, (set_clim (scale_of (qm_clim im)) im),
      {| cb_label := "counts"; cb_bounds := scale_of (qm_clim im);
         cb_use_gridspec := true |}.
    split; [exact Hkv|]. split; [exact Hne|].
    assert (Hscale : forall lim,
              Dict.get (or_empty (limits o)) key = Ok lim ->
              scale_of (qm_clim im) = scale_of (Some (fst lim), Some (snd lim))
              /\ (nonsingular (fst lim) (snd lim) = lim ->
                  scale_of (qm_clim im) = (Some (fst lim), Some (snd lim)))).
    { intros lim Hlim.
      rewrite (image_with_limits_given _ _ _ _ _ _ _ _ _ Him Hlim).
      split; [reflexivity|]. intros Hreg. apply scale_of_regular.
      rewrite Hreg. now destruct lim. }
    split.
    { unfold grid_axes_of.
      destruct (j' =? 0)%Z, (i' + 1 =? fst grid)%Z; reflexivity. }
    split.
    { unfold grid_axes_of.
      destruct (j' =? 0)%Z, (i' + 1 =? fst grid)%Z; reflexivity. }
    split; [reflexivity | exact Hscale].
Qed.

Lemma combined_cells_follow_limits_witness :
  exists files g,
    saved after_Fe_limits
    = saved idle ++ files
      ++ [(savefig_name (combined_name "map" ".png"), 300%Z, g)]
    /\ forall id a key,
         In (id, a) (fig_axes g) -> ax_title a = Some key ->
         exists values im bar,
           In (key, values) Fe_Cu /\ key <> "CP"
           /\ ax_image a = Some im /\ ax_colorbar a = Some bar
           /\ cb_bounds bar = qm_clim im
           /\ (forall lim,
                 Dict.get [("Fe", (0, 10)%float)] key = Ok lim ->
                 qm_clim im = scale_of (Some (fst lim), Some (snd lim))
                 /\ (nonsingular (fst lim) (snd lim) = lim ->
                     qm_clim im = (Some (fst lim), Some (snd lim)))).
Proof.
  apply (combined_cells_follow_limits
           Fe_Cu Fe_limits idle after_Fe_limits (1, 2)%Z).
  - reflexivity.
  - vm_compute. reflexivity.
Defined.

(** In that call the cell of Fe is drawn on the scale (0, 10) of the
    table, the colorbar with it. *)
Example Fe_limits_example :
  map (fun e => (fst (fst e), image_bounds (snd e), colorbar_bounds (snd e)))
      (saved after_Fe_limits)
  = [("map_Fe.png", [(Some 0%float, Some 10%float)],
      [(Some 0%float, Some 10%float)]);
     ("map_Cu.png",
      [(Some 8.0999999999999996%float, Some 9.9000000000000004%float)],
      [(Some 8.0999999999999996%float, Some 9.9000000000000004%float)]);
     ("map_all.png",
      [(Some 8.0999999999999996%float, Some 9.9000000000000004%float);
       (Some 0%float, Some 10%float)],
      [(Some 8.0999999999999996%float, Some 9.9000000000000004%float);
       (Some 0%float, Some 10%float)])].
Proof. vm_compute. reflexivity. Qed.

(** ** What the individual files show (lines 120-138) *)

Lemma individual_files_nth (registry : list string) (xy : mesh)
      (cm : Dict.t string) (lims : Dict.t (float * float)) (label extension : string)
      (items : list (string * ndarray)) :
  forall i name dpi g,
    nth_error (fst (individual_files registry xy cm lims label extension
                                     items)) i = Some (name, dpi, g) ->
    exists key values im,
      nth_error items i = Some (key, values)
      /\ image_with_limits registry xy (rotate_m90 values) cm lims key []
         = Ok im
      /\ name = savefig_name (individual_name label extension key)
      /\ dpi = 300%Z
      /\ g = individual_render im key.
Proof.
  induction items as [|[key values] more IH]; intros i name dpi g H.
  - destruct i; discriminate.
  - cbn [individual_files] in H.
    destruct (image_with_limits registry xy (rotate_m90 values) cm lims
                                key []) as [e|im] eqn:Eim.
    + destruct i; discriminate.
    + destruct (savefig_file (individual_name label extension key))
        as [e|file] eqn:Efile; [destruct i; discriminate|].
      apply savefig_file_name in Efile. subst file.
      cbn [fst] in H. destruct i as [|i].
      * injection H as <- <- <-. exists key, values, im.
        repeat split; assumption.
      * cbn [nth_error] in H. apply IH in H. exact H.
Qed.

Lemma individual_files_length (registry : list string) (xy : mesh)
      (cm : Dict.t string) (lims : Dict.t (float * float)) (label extension : string)
      (items : list (string * ndarray)) :
  snd (individual_files registry xy cm lims label extension items) = Ok tt ->
  List.length (fst (individual_files registry xy cm lims label extension
                                     items))
  = List.length items.
Proof.
  induction items as [|[key values] more IH]; [reflexivity|].
  cbn [individual_files].
  destruct (image_with_limits registry xy (rotate_m90 values) cm lims
                              key []) as [e|im]; [discriminate|].
  destruct (savefig_file (individual_name label extension key));
    [discriminate|].
  cbn [fst snd List.length]. intros H. now rewrite IH.
Qed.

(** X17.  However the call ends, the i-th file it writes, for i below
    the number of maps, is the figure of the i-th element of the dataset:
    saved at 300 dpi under the name [savefig] makes of
    [label_element.extension], with a single axes that has the element as
    title, both axis labels, equal scaling, a colorbar labelled [Counts]
    and a tight layout.  The colorbar has the bounds of the image; for an
    element with an entry in the table of limits they are what the
    colorbar makes of the entry: the entry itself, unless it is a single
    value, too narrow, reversed or infinite. *)
Theorem individual_file_content
        (datas : Dict.t ndarray) (o : options) (s s' : pyplot)
        (r : result unit) :
  map_series datas o s = (r, s') ->
  exists files,
    saved s' = saved s ++ files
    /\ forall i name dpi g,
         (i < List.length datas)%nat ->
         nth_error files i = Some (name, dpi, g) ->
         exists key values im,
           nth_error datas i = Some (key, values)
           /\ name = savefig_name (individual_name (label o) (extension o) key)
           /\ dpi = 300%Z
           /\ g = {| fig_kwargs := [];
                     fig_axes :=
                       [(0%nat,
                         {| ax_cell := None; ax_image := Some im;
                            ax_scaled := true; ax_title := Some key;
                            ax_xlabel := Some "x ($\mu m$)";
                            ax_ylabel := Some "y ($\mu m$)";
                            ax_colorbar :=
                              Some {| cb_label := "Counts";
                                      cb_bounds := qm_clim im;
                                      cb_use_gridspec := true |} |})];
                     fig_tight := true |}
           /\ (forall lim, Dict.get (or_empty (limits o)) key = Ok lim ->
                 qm_clim im = scale_of (Some (fst lim), Some (snd lim))
                 /\ (nonsingular (fst lim) (snd lim) = lim ->
                     qm_clim im = (Some (fst lim), Some (snd lim)))).
Proof.
  intros Hcall.
  destruct (map_series_run datas o s) as [s0 [Hrun [_ [Hs _]]]].
  rewrite Hcall in Hrun. injection Hrun as Hr <-.
  exists (fst (rendered (colormaps s) datas o)). split; [exact Hs|].
  intros i name dpi g Hi Hnth. clear Hs Hr.
  unfold rendered in Hnth.
  destruct (prepare datas o) as [e|[xy cm]]; [destruct i; discriminate|].
  pose proof (individual_files_nth (colormaps s) xy cm (or_empty (limits o))
                (label o) (extension o) (Dict.items datas) i name dpi g)
    as Hfile.
  pose proof (individual_files_length (colormaps s) xy cm
                (or_empty (limits o)) (label o) (extension o)
                (Dict.items datas)) as Hlen.
  destruct (individual_files (colormaps s) xy cm (or_empty (limits o))
              (label o) (extension o) (Dict.items datas)) as [files r0].
  cbn [fst snd] in *.
  assert (Hnth' : nth_error files i = Some (name, dpi, g)).
  { destruct r0 as [e|[]]; [exact Hnth|].
    destruct (figure_grid o) as [grid|]; [|exact Hnth].
    destruct (combined_render _ _ _ _ _ _ _ _ _); [exact Hnth|].
    destruct (savefig_file (combined_name (label o) (extension o)));
      [exact Hnth|].
    cbn [fst] in Hnth. rewrite nth_error_app1 in Hnth; [exact Hnth|].
    rewrite (Hlen eq_refl). exact Hi. }
  destruct (Hfile Hnth') as [key [values [im [Hitem [Him [-> [-> ->]]]]]]].
  unfold Dict.items in Hitem.
  exists key, values, (set_clim (scale_of (qm_clim im)) im).
  split; [exact Hitem|].
  split; [reflexivity|]. split; [reflexivity|].
  split; [reflexivity|].
  intros lim Hlim. cbn [set_clim qm_clim].
  rewrite (image_with_limits_given _ _ _ _ _ _ _ _ _ Him Hlim).
  split; [reflexivity|]. intros Hreg. apply scale_of_regular.
  rewrite Hreg. now destruct lim.
Qed.

Lemma individual_file_content_witness :
  exists files,
    saved after_Fe_limits = saved idle ++ files
    /\ forall i name dpi g,
         (i < List.length Fe_Cu)%nat ->
         nth_error files i = Some (name, dpi, g) ->
         exists key values im,
           nth_error Fe_Cu i = Some (key, values)
           /\ name = savefig_name (individual_name "map" ".png" key)
           /\ dpi = 300%Z
           /\ g = {| fig_kwargs := [];
                     fig_axes :=
                       [(0%nat,
                         {| ax_cell := None; ax_image := Some im;
                            ax_scaled := true; ax_title := Some key;
                            ax_xlabel := Some "x ($\mu m$)";
                            ax_ylabel := Some "y ($\mu m$)";
                            ax_colorbar :=
                              Some {| cb_label := "Counts";
                                      cb_bounds := qm_clim im;
                                      cb_use_gridspec := true |} |})];
                     fig_tight := true |}
           /\ (forall lim,
                 Dict.get [("Fe", (0, 10)%float)] key = Ok lim ->
                 qm_clim im = scale_of (Some (fst lim), Some (snd lim))
                 /\ (nonsingular (fst lim) (snd lim) = lim ->
                     qm_clim im = (Some (fst lim), Some (snd lim)))).
Proof.
  apply (individual_file_content
           Fe_Cu Fe_limits idle after_Fe_limits (Ok tt)).
  vm_compute. reflexivity.
Defined.

(** ** The names of the files written (lines 137 and 189) *)

Lemma str_app_inv_head (a b c : string) :
  (a ++ b)%string = (a ++ c)%string -> b = c.
Proof.
  induction a as [|x a IH]; cbn; [tauto|]. intros [= H]. now apply IH.
Qed.

Lemma str_length_app (a b : string) :
  String.length (a ++ b) = (String.length a + String.length b)%nat.
Proof. induction a as [|x a IH]; cbn; [reflexivity | now rewrite IH]. Qed.

Lemma str_app_inv_tail (c : string) :
  forall a b, (a ++ c)%string = (b ++ c)%string -> a = b.
Proof.
  induction a as [|x a IH]; intros [|y b] H.
  - reflexivity.
  - apply (f_equal String.length) in H. cbn in H.
    rewrite str_length_app in H. lia.
  - apply (f_equal String.length) in H. cbn in H.
    rewrite str_length_app in H. lia.
  - cbn in H. injection H as -> H. f_equal. now apply IH.
Qed.

(** The name of an individual file determines its element. *)
Lemma individual_name_inj (label extension k1 k2 : string) :
  individual_name label extension k1 = individual_name label extension k2 ->
  k1 = k2.
Proof.
  unfold individual_name. intros H.
  apply str_app_inv_head, str_app_inv_head, str_app_inv_tail in H.
  exact H.
Qed.

(** Only an element called [all] shares the name of the combined file. *)
Lemma individual_name_combined (label extension k : string) :
  individual_name label extension k = combined_name label extension ->
  k = "all".
Proof.
  unfold individual_name, combined_name. intros H.
  apply str_app_inv_head in H.
  change ("_all" ++ extension)%string
    with ("_" ++ ("all" ++ extension))%string in H.
  apply str_app_inv_head, str_app_inv_tail in H. exact H.
Qed.

Lemma individual_files_names (registry : list string) (xy : mesh)
      (cm : Dict.t string) (lims : Dict.t (float * float)) (label extension : string)
      (items : list (string * ndarray)) :
  names (fst (individual_files registry xy cm lims label extension items))
  = firstn (List.length
              (fst (individual_files registry xy cm lims label extension
                                     items)))
           (map savefig_name
                (map (individual_name label extension) (Dict.keys items)))
  /\ (List.length (fst (individual_files registry xy cm lims label extension
                                         items))
      <= List.length items)%nat
  /\ forall name dpi g,
       In (name, dpi, g)
          (fst (individual_files registry xy cm lims label extension items)) ->
       dpi = 300%Z.
Proof.
  induction items as [|[key values] more IH].
  - cbn. repeat split; tauto || lia.
  - cbn [individual_files].
    destruct (image_with_limits registry xy (rotate_m90 values) cm lims
                                key []) as [e|im].
    + cbn. repeat split; tauto || lia.
    + destruct (savefig_file (individual_name label extension key))
        as [e|file] eqn:Efile.
      { cbn. repeat split; tauto || lia. }
      apply savefig_file_name in Efile. subst file.
      destruct IH as [IH1 [IH2 IH3]].
      cbn [fst names map Dict.keys List.length firstn].
      split; [|split].
      * f_equal. exact IH1.
      * lia.
      * intros name dpi g [[= _ <- _]|Hin]; [reflexivity|].
        now apply (IH3 name dpi g).
Qed.

(** The files of a call are named along the list of the individual names
    followed by the name of the combined file; the combined file comes
    only with a grid and after every individual file. *)
Lemma rendered_names (registry : list string) (datas : Dict.t ndarray)
      (o : options) :
  names (fst (rendered registry datas o))
  = firstn (List.length (fst (rendered registry datas o)))
           (map savefig_name
                (map (individual_name (label o) (extension o))
                     (Dict.keys datas)
                 ++ [combined_name (label o) (extension o)]))
  /\ (figure_grid o = None \/ snd (rendered registry datas o) <> Ok tt ->
      (List.length (fst (rendered registry datas o))
       <= List.length datas)%nat)
  /\ forall name dpi g,
       In (name, dpi, g) (fst (rendered registry datas o)) -> dpi = 300%Z.
Proof.
  unfold rendered.
  destruct (prepare datas o) as [e|[xy cm]].
  { cbn. repeat split; tauto || lia. }
  destruct (individual_files_names registry xy cm (or_empty (limits o))
              (label o) (extension o) (Dict.items datas))
    as [Hn [Hl Hd]].
  pose proof (individual_files_length registry xy cm (or_empty (limits o))
                (label o) (extension o) (Dict.items datas)) as Hall.
  destruct (individual_files registry xy cm (or_empty (limits o))
              (label o) (extension o) (Dict.items datas)) as [files r].
  cbn [fst snd] in *. unfold Dict.items in *.
  assert (Hprefix :
            names files
            = firstn (List.length files)
                (map savefig_name
                     (map (individual_name (label o) (extension o))
                          (Dict.keys datas)
                      ++ [combined_name (label o) (extension o)]))).
  { rewrite map_app, firstn_app, !length_map.
    unfold Dict.keys at 2. rewrite length_map.
    replace (List.length files - List.length datas)%nat with 0%nat by lia.
    cbn [firstn]. now rewrite app_nil_r. }
  destruct r as [e|[]].
  { cbn [fst snd]. split; [exact Hprefix|].
    split; [intros _; exact Hl | exact Hd]. }
  destruct (figure_grid o) as [grid|].
  2:{ cbn [fst snd]. split; [exact Hprefix|].
      split; [intros _; exact Hl | exact Hd]. }
  destruct (combined_render registry datas xy cm (or_empty (limits o))
              (or_empty (kwargs_for_fig o)) (or_empty (kwargs_for_grid o))
              (or_empty (kwargs_for_imshow o)) grid) as [e|g].
  { cbn [fst snd]. split; [exact Hprefix|].
    split; [intros _; exact Hl | exact Hd]. }
  destruct (savefig_file (combined_name (label o) (extension o)))
    as [e|file] eqn:Efile.
  { cbn [fst snd]. split; [exact Hprefix|].
    split; [intros _; exact Hl | exact Hd]. }
  apply savefig_file_name in Efile. subst file.
  cbn [fst snd]. split; [|split].
  - unfold names in *. rewrite !map_app, length_app.
    cbn [map List.length fst].
    rewrite firstn_all2.
    + rewrite Hn, (Hall eq_refl).
      rewrite firstn_all2; [reflexivity|].
      unfold Dict.keys. rewrite !length_map. lia.
    + rewrite length_app, !length_map. unfold Dict.keys.
      rewrite length_map, (Hall eq_refl). cbn. lia.
  - intros [H|H]; [discriminate | congruence].
  - intros name dpi g0 Hin. apply in_app_or in Hin.
    destruct Hin as [Hin|[[= _ <- _]|[]]]; [|reflexivity].
    now apply (Hd name dpi g0).
Qed.

(** X18.  However a call ends, the files it writes are named along the
    list [label_element.extension], in the order of the dataset, followed
    by [label_all.extension], each under the name [savefig] makes of it:
    no other name is written and none out of turn.  The combined file is
    written only by a call with a grid that returns, after all the
    others, and every file is saved at 300 dpi. *)
Theorem map_series_file_names
        (datas : Dict.t ndarray) (o : options) (s s' : pyplot)
        (r : result unit) :
  map_series datas o s = (r, s') ->
  exists files,
    saved s' = saved s ++ files
    /\ names files
       = firstn (List.length files)
           (map savefig_name
                (map (individual_name (label o) (extension o))
                     (Dict.keys datas)
                 ++ [combined_name (label o) (extension o)]))
    /\ (figure_grid o = None \/ r <> Ok tt ->
        (List.length files <= List.length datas)%nat)
    /\ forall name dpi g, In (name, dpi, g) files -> dpi = 300%Z.
Proof.
  intros Hcall.
  destruct (map_series_run datas o s) as [s0 [Hrun [_ [Hs _]]]].
  rewrite Hcall in Hrun. injection Hrun as Hr <-.
  destruct (rendered_names (colormaps s) datas o) as [Hn [Hl Hd]].
  exists (fst (rendered (colormaps s) datas o)).
  split; [exact Hs|]. split; [exact Hn|]. split; [|exact Hd].
  rewrite Hr. exact Hl.
Qed.

Lemma map_series_file_names_witness :
  exists files,
    saved after_one_call = saved idle ++ files
    /\ names files
       = firstn (List.length files)
           (map savefig_name
                (map (individual_name "map" ".png") (Dict.keys Fe_Cu)
                 ++ [combined_name "map" ".png"]))
    /\ (Some (1, 2)%Z = None \/ Ok tt <> Ok tt ->
        (List.length files <= List.length Fe_Cu)%nat)
    /\ forall name dpi g, In (name, dpi, g) files -> dpi = 300%Z.
Proof.
  apply (map_series_file_names
           Fe_Cu (with_grid (1, 2)%Z None) idle after_one_call (Ok tt)).
  vm_compute. reflexivity.
Defined.

Lemma individual_names_nodup (label extension : string)
      (keys : list string) :
  NoDup keys -> ~ In "all" keys ->
  NoDup (map (individual_name label extension) keys
         ++ [combined_name label extension]).
Proof.
  intros Hnd Hall. apply NoDup_app.
  - induction Hnd as [|k rest Hk Hrest IH]; cbn [map]; constructor.
    + intros Hin. apply in_map_iff in Hin. destruct Hin as [k' [E Hin]].
      apply individual_name_inj in E. subst k'. contradiction.
    + apply IH. intros H. apply Hall. now right.
  - constructor; [intros [] | constructor].
  - intros name Hin [<-|[]]. apply in_map_iff in Hin.
    destruct Hin as [k [E Hin]]. apply individual_name_combined in E.
    subst k. contradiction.
Qed.

(** X19.  Unless an element is called [all], no file written by a call
    is written twice by it, when the names have an extension, so that
    [savefig] keeps them: the elements get files of different names, and
    none of them the name of the combined file. *)
Theorem map_series_files_distinct
        (datas : Dict.t ndarray) (o : options) (s s' : pyplot)
        (r : result unit) :
  NoDup (Dict.keys datas) ->
  ~ In "all" (Dict.keys datas) ->
  (forall k, In k (Dict.keys datas) ->
             name_kept (individual_name (label o) (extension o) k)) ->
  name_kept (combined_name (label o) (extension o)) ->
  map_series datas o s = (r, s') ->
  exists files, saved s' = saved s ++ files /\ NoDup (names files).
Proof.
  intros Hnd Hall Hkept Hkept_all Hcall.
  destruct (map_series_run datas o s) as [s0 [Hrun [_ [Hs _]]]].
  rewrite Hcall in Hrun. injection Hrun as Hr <-.
  destruct (rendered_names (colormaps s) datas o) as [Hn _].
  exists (fst (rendered (colormaps s) datas o)). split; [exact Hs|].
  rewrite Hn.
  assert (Hsame : forall l, (forall n, In n l -> name_kept n) ->
                            map savefig_name l = l).
  { induction l as [|n l IH]; intros Hl; [reflexivity|].
    cbn [map]. rewrite (Hl n (or_introl eq_refl)), IH; [reflexivity|].
    intros n' Hn'. apply Hl. now right. }
  rewrite Hsame.
  2:{ intros n Hin. apply in_app_or in Hin.
      destruct Hin as [Hin|[<-|[]]]; [|exact Hkept_all].
      apply in_map_iff in Hin. destruct Hin as [k [<- Hk]].
      now apply Hkept. }
  pose proof (individual_names_nodup (label o) (extension o)
                (Dict.keys datas) Hnd Hall) as Hfull.
  rewrite <- (firstn_skipn
                (List.length (fst (rendered (colormaps s) datas o))))
    in Hfull.
  apply NoDup_app_remove_r in Hfull. exact Hfull.
Qed.

Lemma map_series_files_distinct_witness :
  exists files,
    saved after_one_call = saved idle ++ files /\ NoDup (names files).
Proof.
  apply (map_series_files_distinct
           Fe_Cu (with_grid (1, 2)%Z None) idle after_one_call (Ok tt)).
  - cbn. repeat constructor; cbn; intuition discriminate.
  - cbn. intuition discriminate.
  - intros k [<-|[<-|[]]]; vm_compute; reflexivity.
  - vm_compute. reflexivity.
  - vm_compute. reflexivity.
Defined.

(** Without an extension two elements can share a file: with the keys
    [Fe] and [Fe.] both individual figures are written to [map_Fe.png]. *)
Example shared_file_example :
  names (saved (snd (map_series [("Fe", unit_map 7); ("Fe.", unit_map 9)]
                                (with_extension EmptyString) idle)))
  = ["map_Fe.png"; "map_Fe.png"].
Proof. vm_compute. reflexivity. Qed.

(** ** The script [plot_epma_map.py] *)

Lemma load_maps_no_elements (fs : filesystem) (maps : list string)
      (datas : Dict.t ndarray) :
  load_maps fs [] maps datas = Ok datas.
Proof.
  induction maps as [|f rest IH]; [reflexivity|].
  cbn [load_maps]. destruct (map_index_total f) as [i ->].
  cbn [rbind]. exact IH.
Qed.

Lemma savefig_name_cases (name : string) :
  savefig_name name = name
  \/ savefig_name name = (rstrip dot name ++ ".png")%string.
Proof.
  unfold savefig_name. destruct (String.eqb _ _); [now right | now left].
Qed.

(** Stripping dots from the right stops at the first other character. *)
Lemma rstrip_app (c : ascii) (a b : string) :
  rstrip c b <> EmptyString -> rstrip c (a ++ b) = (a ++ rstrip c b)%string.
Proof.
  intros Hb. induction a as [|x a IH]; [reflexivity|].
  cbn [append rstrip]. rewrite IH.
  destruct (a ++ rstrip c b)%string eqn:E; [|reflexivity].
  destruct a; cbn in E; [contradiction | discriminate].
Qed.

Lemma rstrip_png (a : string) :
  rstrip dot (a ++ ".png") = (a ++ ".png")%string.
Proof. now rewrite rstrip_app by (vm_compute; discriminate). Qed.

(** X20.  Whatever the directory holds, the script writes no file for N,
    Cr or Mo: the elements it excludes when reading are never rendered. *)
Theorem script_skips_excluded_elements
        (fs : filesystem) (ss : session) :
  exists files,
    saved (plt (snd (run_script fs ss))) = saved (plt ss) ++ files
    /\ forall k, In k plot_epma_map.exclude_elements ->
                 ~ In (individual_name "outer_map" ".png" k) (names files).
Proof.
  unfold run_script.
  destruct (read_data fs plot_epma_map.file_location
                      (Some plot_epma_map.exclude_elements))
    as [e|datas] eqn:Eread.
  - exists []. cbn. rewrite app_nil_r. split; [reflexivity | tauto].
  - cbn [snd plt].
    destruct (map_series_run datas plot_epma_map.arguments (plt ss))
      as [s' [Hrun [_ [Hs _]]]].
    rewrite Hrun. cbn [snd].
    destruct (rendered_names (colormaps (plt ss)) datas
                             plot_epma_map.arguments) as [Hn _].
    exists (fst (rendered (colormaps (plt ss)) datas plot_epma_map.arguments)).
    split; [exact Hs|].
    intros k Hk Hin. rewrite Hn in Hin.
    match type of Hin with
    | In _ (firstn ?n ?l) =>
        assert (Hfull : In (individual_name "outer_map" ".png" k) l)
          by (rewrite <- (firstn_skipn n l); apply in_or_app; now left)
    end.
    apply in_map_iff in Hfull. destruct Hfull as [name [E Hname]].
    apply in_app_or in Hname. destruct Hname as [Hname|[<-|[]]].
    + apply in_map_iff in Hname. destruct Hname as [k' [<- Hk']].
      destruct (savefig_name_cases
                  (individual_name (label plot_epma_map.arguments)
                     (extension plot_epma_map.arguments) k'))
        as [E'|E']; rewrite E' in E; clear E'.
      * apply individual_name_inj in E. subst k'.
        apply (read_data_keys_not_excluded _ _ _ _ Eread k Hk' Hk).
      * change (individual_name (label plot_epma_map.arguments)
                  (extension plot_epma_map.arguments) k')
          with ("outer_map" ++ "_" ++ k' ++ ".png")%string in E.
        rewrite <- !str_app_assoc, rstrip_png in E.
        rewrite !str_app_assoc in E.
        unfold individual_name in E.
        apply str_app_inv_head, str_app_inv_head in E.
        rewrite <- str_app_assoc in E. apply str_app_inv_tail in E.
        apply (f_equal String.length) in E.
        rewrite str_length_app in E. cbn in Hk.
        destruct Hk as [<-|[<-|[<-|[]]]]; cbn in E; lia.
    + revert E. vm_compute. intros E.
      change (individual_name "outer_map" ".png" "all"
              = individual_name "outer_map" ".png" k) in E.
      apply individual_name_inj in E. subst k.
      cbn in Hk. intuition discriminate.
Qed.

(** X21.  When the directory has no metadata file, for instance because
    the path is wrong, the script reads an empty dataset, whatever data
    files there are, and stops with [IndexError] in the renderer: no
    figure is made and no file written; the font size is set all the
    same. *)
Theorem script_without_metadata (fs : filesystem) (ss : session) :
  glob fs (plot_epma_map.file_location ++ "*.pm") = [] ->
  run_script fs ss
  = (Raise IndexError,
     {| rc_params := Dict.set (rc_params ss) "font.size" 18%Z;
        plt := plt ss |}).
Proof.
  intros Hg. unfold run_script, read_data. rewrite Hg.
  cbn [elements_of rbind]. rewrite load_maps_no_elements.
  now rewrite map_series_no_element.
Qed.

Lemma script_without_metadata_witness :
  run_script empty_directory fresh_session
  = (Raise IndexError,
     {| rc_params := Dict.set (rc_params fresh_session) "font.size" 18%Z;
        plt := plt fresh_session |}).
Proof.
  apply (script_without_metadata empty_directory fresh_session).
  reflexivity.
Defined.

(** ** Where the keyword arguments go *)

Lemma quadmesh_for_kwargs (registry : list string) (xy : mesh) (C : ndarray)
      (cmap : string) (vmin vmax : option float) (kw : kwargs)
      (im : quadmesh) :
  quadmesh_for registry xy C cmap vmin vmax kw = Ok im -> qm_kwargs im = kw.
Proof.
  unfold quadmesh_for.
  destruct (negb _); [discriminate|]. destruct (negb _); [discriminate|].
  now intros [= <-].
Qed.

Lemma image_with_limits_kwargs (registry : list string) (xy : mesh)
      (C : ndarray) (cm : Dict.t string) (lims : Dict.t (float * float))
      (key : string) (kw : kwargs) (im : quadmesh) :
  image_with_limits registry xy C cm lims key kw = Ok im -> qm_kwargs im = kw.
Proof.
  unfold image_with_limits.
  destruct (str_in key (Dict.keys lims)).
  - destruct (Dict.get cm key); cbn [rbind]; [discriminate|].
    destruct (Dict.get lims key); cbn [rbind]; [discriminate|].
    apply quadmesh_for_kwargs.
  - destruct (Dict.get cm key); cbn [rbind]; [discriminate|].
    apply quadmesh_for_kwargs.
Qed.

Lemma gs_getitem_gridspec (gs : gridspec) (i j : Z) (cell : subplotspec) :
  gs_getitem gs i j = Ok cell -> ss_gridspec cell = gs.
Proof.
  unfold gs_getitem.
  destruct (gs_index (gs_rows gs) i); cbn [rbind]; [discriminate|].
  destruct (gs_index (gs_columns gs) j); cbn [rbind]; [discriminate|].
  now intros [= <-].
Qed.

Lemma grid_axes_keywords (registry : list string) (gs : gridspec)
      (rows columns : Z) (xy : mesh) (cm : Dict.t string)
      (lims : Dict.t (float * float)) (kw : kwargs)
      (items : list (string * ndarray)) :
  forall i j axs r,
    grid_axes registry gs rows columns xy cm lims kw items i j axs = Ok r ->
    forall a, In a r ->
      In a axs
      \/ exists cell im key,
           ax_cell (snd a) = Some cell /\ ss_gridspec cell = gs
           /\ ax_image (snd a) = Some im /\ qm_kwargs im = kw
           /\ ax_title (snd a) = Some key.
Proof.
  induction items as [|[key values] more IH]; intros i j axs r H a Ha.
  - cbn in H. injection H as <-. now left.
  - cbn [grid_axes] in H.
    destruct (String.eqb key "CP"); [now apply (IH _ _ _ _ H)|].
    destruct (gs_getitem gs i j) as [e|cell] eqn:Ecell; cbn [rbind] in H;
      [discriminate|].
    destruct (image_with_limits registry xy (rotate_m90 values) cm lims
                                key kw) as [e|im] eqn:Eim;
      cbn [rbind] in H; [discriminate|].
    destruct (next_cell columns i j) as [e|ij]; cbn [rbind] in H;
      [discriminate|].
    destruct (IH _ _ _ _ H a Ha) as [[<-|Hin]|Hnew].
    + right. exists cell, (set_clim (scale_of (qm_clim im)) im), key.
      cbn [snd]. unfold grid_axes_of.
      destruct (j =? 0)%Z, (i + 1 =? rows)%Z; cbn;
        (split; [reflexivity|]);
        (split; [now apply (gs_getitem_gridspec gs i j)|]);
        (split; [reflexivity|]);
        (split; [now apply image_with_limits_kwargs in Eim | reflexivity]).
    + now left.
    + now right.
Qed.

(** X22.  The three dictionaries of keyword arguments reach the combined
    figure only, which is saved under the name [savefig] makes of
    [label_all.extension].  The figure is made with [kwargs_for_fig] and its grid
    with [kwargs_for_grid]; the draw call of every cell with a title gets
    [kwargs_for_imshow], that of the cell of CP does not.  The individual
    figures are made and drawn without any of them. *)
Theorem keyword_arguments_reach
        (datas : Dict.t ndarray) (o : options) (s s' : pyplot)
        (grid : Z * Z) :
  figure_grid o = Some grid ->
  map_series datas o s = (Ok tt, s') ->
  exists files g,
    saved s'
    = saved s ++ files
      ++ [(savefig_name (combined_name (label o) (extension o)), 300%Z, g)]
    /\ fig_kwargs g = or_empty (kwargs_for_fig o)
    /\ (forall id a,
          In (id, a) (fig_axes g) ->
          exists cell im,
            ax_cell a = Some cell
            /\ ss_gridspec cell
               = {| gs_rows := fst grid; gs_columns := snd grid;
                    gs_kwargs := or_empty (kwargs_for_grid o) |}
            /\ ax_image a = Some im
            /\ qm_kwargs im
               = match ax_title a with
                 | Some _ => or_empty (kwargs_for_imshow o)
                 | None => []
                 end)
    /\ (forall name dpi f,
          In (name, dpi, f) files ->
          fig_kwargs f = []
          /\ forall id a,
               In (id, a) (fig_axes f) ->
               ax_cell a = None
               /\ exists im, ax_image a = Some im /\ qm_kwargs im = []).
Proof.
  intros Hgrid Hcall.
  destruct (map_series_run datas o s) as [s0 [Hrun [_ [Hs _]]]].
  rewrite Hcall in Hrun. injection Hrun as Hr <-.
  unfold rendered in *.
  destruct (prepare datas o) as [e|[xy cm]]; [discriminate|].
  pose proof (individual_files_nth (colormaps s) xy cm (or_empty (limits o))
                (label o) (extension o) (Dict.items datas)) as Hfile.
  destruct (individual_files (colormaps s) xy cm (or_empty (limits o))
              (label o) (extension o) (Dict.items datas)) as [files r].
  cbn [fst snd] in *. rewrite Hgrid in *.
  destruct r as [e|[]]; [discriminate|].
  destruct (combined_render (colormaps s) datas xy cm (or_empty (limits o))
              (or_empty (kwargs_for_fig o)) (or_empty (kwargs_for_grid o))
              (or_empty (kwargs_for_imshow o)) grid) as [e|g] eqn:Eg;
    [discriminate|].
  destruct (savefig_file (combined_name (label o) (extension o)))
    as [e|file] eqn:Efile; [discriminate|].
  apply savefig_file_name in Efile. subst file.
  cbn [fst snd] in Hs. exists files, g. split; [exact Hs|].
  unfold combined_render in Eg.
  destruct ((fst grid <=? 0) || (snd grid <=? 0))%Z%bool; [discriminate|].
  set (gs := {| gs_rows := fst grid; gs_columns := snd grid;
                gs_kwargs := or_empty (kwargs_for_grid o) |}) in *.
  match type of Eg with
  | (try start <- ?st; _) = _ => destruct st as [e|[axs0 j0]] eqn:Est
  end; cbn [rbind fst snd] in Eg; [discriminate|].
  match type of Eg with
  | (try axs <- ?ga; _) = _ => destruct ga as [e|axs] eqn:Eaxs
  end; cbn [rbind] in Eg; [discriminate|].
  injection Eg as <-. cbn [fig_kwargs fig_axes].
  split; [reflexivity|]. split.
  - intros id a Hin.
    destruct (grid_axes_keywords _ _ _ _ _ _ _ _ _ _ _ _ _ Eaxs (id, a) Hin)
      as [Hold|[cell [im [key [Hc [Hg [Him [Hkw Ht]]]]]]]].
    + destruct (str_in "CP" (Dict.keys datas)).
      * destruct (gs_getitem gs 0 0) as [e|cell] eqn:Ecell;
          cbn [rbind] in Est; [discriminate|].
        destruct (Dict.get datas "CP") as [e|cp]; cbn [rbind] in Est;
          [discriminate|].
        destruct (quadmesh_for _ _ _ _ _ _ _) as [e|im] eqn:Eim;
          cbn [rbind] in Est; [discriminate|].
        injection Est as <- _. destruct Hold as [[= _ <-]|[]].
        exists cell, (set_clim (scale_of (qm_clim im)) im). cbn.
        split; [reflexivity|].
        split; [now apply (gs_getitem_gridspec gs 0 0)|].
        split; [reflexivity|]. now apply quadmesh_for_kwargs in Eim.
      * injection Est as <- _. destruct Hold.
    + cbn [snd] in *. exists cell, im. rewrite Ht.
      repeat split; assumption.
  - intros name dpi f Hin. apply In_nth_error in Hin.
    destruct Hin as [i Hi].
    destruct (Hfile i name dpi f Hi)
      as [key [values [im [_ [Him [_ [_ ->]]]]]]].
    split; [reflexivity|].
    intros id a [[= _ <-]|[]]. split; [reflexivity|].
    exists (set_clim (scale_of (qm_clim im)) im). split; [reflexivity|].
    now apply image_with_limits_kwargs in Him.
Qed.

Lemma keyword_arguments_reach_witness :
  exists files g,
    saved (snd (map_series CP_Fe with_keywords idle))
    = saved idle ++ files
      ++ [(savefig_name (combined_name "map" ".png"), 300%Z, g)]
    /\ fig_kwargs g = or_empty (Some [("figsize", "(22, 15)")])
    /\ (forall id a,
          In (id, a) (fig_axes g) ->
          exists cell im,
            ax_cell a = Some cell
            /\ ss_gridspec cell
               = {| gs_rows := fst (1, 2)%Z; gs_columns := snd (1, 2)%Z;
                    gs_kwargs := or_empty (Some [("wspace", "0.1")]) |}
            /\ ax_image a = Some im
            /\ qm_kwargs im
               = match ax_title a with
                 | Some _ => or_empty (Some [("alpha", "0.5")])
                 | None => []
                 end)
    /\ (forall name dpi f,
          In (name, dpi, f) files ->
          fig_kwargs f = []
          /\ forall id a,
               In (id, a) (fig_axes f) ->
               ax_cell a = None
               /\ exists im, ax_image a = Some im /\ qm_kwargs im = []).
Proof.
  apply (keyword_arguments_reach
           CP_Fe with_keywords idle
           (snd (map_series CP_Fe with_keywords idle)) (1, 2)%Z).
  - reflexivity.
  - vm_compute. reflexivity.
Defined.

(** ** Colormaps assigned from a list *)

Lemma dict_get_set_cases {V} (d : Dict.t V) (k x : string) (v c : V) :
  Dict.get (Dict.set d x v) k = Ok c ->
  (k = x /\ c = v) \/ Dict.get d k = Ok c.
Proof.
  destruct (string_dec k x) as [->|Hne].
  - rewrite dict_get_set_same. intros [= <-]. now left.
  - rewrite dict_get_set_other by exact Hne. now right.
Qed.

Lemma py_index_in {A} (l : list A) (k : Z) (a : A) :
  py_index l k = Ok a -> In a l.
Proof.
  unfold py_index. destruct (_ && _)%bool; [|discriminate].
  destruct (nth_error l _) eqn:E; [|discriminate].
  intros [= <-]. now apply nth_error_In in E.
Qed.

(** A colormap assigned from a list is one of the list, or [Greys]. *)
Lemma cycle_colormap_values (l : list string) (len : Z) (keys : list string) :
  forall acc index cm,
    cycle_colormap l len keys acc index = Ok cm ->
    (forall k c, Dict.get acc k = Ok c -> In c ("Greys" :: l)) ->
    forall k c, Dict.get cm k = Ok c -> In c ("Greys" :: l).
Proof.
  induction keys as [|x rest IH]; cbn [cycle_colormap];
    intros acc index cm H Hacc.
  - now injection H as <-.
  - destruct (String.eqb x "CP").
    + apply (IH _ _ _ H). intros k c Hk.
      apply dict_get_set_cases in Hk.
      destruct Hk as [[_ ->]|Hk]; [now left | now apply (Hacc k)].
    + destruct (if (len =? 0)%Z then Raise ZeroDivisionError
                else py_index l (index mod len)%Z) as [e|c0] eqn:Ec;
        cbn [rbind] in H; [discriminate|].
      apply (IH _ _ _ H). intros k c Hk.
      apply dict_get_set_cases in Hk.
      destruct Hk as [[_ ->]|Hk]; [|now apply (Hacc k)].
      right. destruct (len =? 0)%Z; [discriminate|].
      now apply py_index_in in Ec.
Qed.

(** ** The names [savefig] keeps *)

Lemma drop_leading_app (c c' : ascii) (a b : string) :
  Ascii.eqb c' c = false ->
  exists d, drop_leading c (a ++ String c' b) = (d ++ String c' b)%string.
Proof.
  intros Hc. induction a as [|x a IH]; cbn [append drop_leading].
  - rewrite Hc. exists EmptyString. reflexivity.
  - destruct (Ascii.eqb x c); [exact IH|].
    exists (String x a). reflexivity.
Qed.

(** After an underscore in the last component of the path, a dot and a
    format name without dot or slash make the extension of the name. *)
Lemma name_format_extension (stem tail fmt : string) :
  has_char slash tail = false ->
  has_char slash fmt = false ->
  has_char dot fmt = false ->
  name_format (stem ++ String underscore (tail ++ String dot fmt)) = fmt.
Proof.
  intros Ht Hf Hd. unfold name_format.
  assert (Hb : has_char slash (String underscore (tail ++ String dot fmt))
               = false).
  { cbn [has_char]. rewrite has_char_app. cbn [has_char].
    rewrite Ht, Hf. reflexivity. }
  destruct (str_split_app_tail slash stem _ Hb) as [front [w [_ ->]]].
  rewrite last_last.
  destruct (drop_leading_app dot underscore w (tail ++ String dot fmt)
              eq_refl) as [d ->].
  change (d ++ String underscore (tail ++ String dot fmt))%string
    with (d ++ (String underscore tail ++ String dot fmt))%string.
  rewrite <- str_app_assoc, str_split_app_sep, (str_split_no_sep dot fmt Hd).
  destruct (str_split dot (d ++ String underscore tail)) as [|u us] eqn:E.
  - exfalso. exact (str_split_nonempty _ _ E).
  - destruct us as [|v vs]; [reflexivity|].
    change ((u :: v :: vs) ++ [fmt]) with (u :: v :: (vs ++ [fmt])).
    change (last (u :: v :: vs ++ [fmt]) EmptyString = fmt).
    change (u :: v :: vs ++ [fmt]) with ((u :: v :: vs) ++ [fmt]).
    apply last_last.
Qed.

Lemma savefig_keeps_name (stem tail fmt : string) :
  has_char slash tail = false ->
  has_char slash fmt = false ->
  has_char dot fmt = false ->
  str_in (lower fmt) supported_filetypes = true ->
  saved_as_named (stem ++ String underscore (tail ++ String dot fmt)).
Proof.
  intros Ht Hf Hd Hs.
  unfold saved_as_named, savefig_file, savefig_format, savefig_name.
  rewrite (name_format_extension stem tail fmt Ht Hf Hd).
  destruct fmt as [|c fmt]; [discriminate|].
  cbn [String.eqb]. now rewrite Hs.
Qed.



(** An extension that names no file type is refused, one without a dot
    is taken for part of the name, and a label with a slash at its end
    hides the extension. *)
Example savefig_file_examples :
  savefig_file "map_Fe.xyz" = Raise ValueError
  /\ savefig_file "map_Fepng" = Ok "map_Fepng.png"
  /\ savefig_file "map_Fe/.png" = Ok "map_Fe/.png.png"
  /\ savefig_file "map_Fe." = Ok "map_Fe.png"
  /\ savefig_file "map_Fe.tar.gz" = Raise ValueError
  /\ savefig_file "map_Fe.JPG" = Ok "map_Fe.JPG".
Proof. repeat split; vm_compute; reflexivity. Qed.

(** With an extension that names no file type the first save raises
    [ValueError]: no file is written and the figure stays open.  Without
    extension the files get the default one. *)
Example extension_examples :
  (let r := map_series Fe_Cu (with_extension ".xyz") idle in
   (fst r, names (saved (snd r)), List.length (figs (snd r))))
  = (Raise ValueError, [], 1%nat)
  /\ (let r := map_series Fe_Cu (with_extension EmptyString) idle in
      (fst r, names (saved (snd r)), List.length (figs (snd r))))
     = (Ok tt, ["map_Fe.png"; "map_Cu.png"], 0%nat).
Proof. split; vm_compute; reflexivity. Qed.

(** ** The ranges of the mesh (lines 101-104) *)

(** X25.  The ranges of the mesh are built from the pixel size in
    floating point, and the number of their points is the rounded-up
    quotient of stop and step, which can differ from the number of rows
    or columns of the map.  When it does for the first map, the draw call
    of the first element raises [TypeError], and the call writes no
    file. *)
Theorem map_series_mesh_of_other_shape
        (datas : Dict.t ndarray) (o : options) (s : pyplot)
        (cm : Dict.t string) (key : string) (first : ndarray)
        (more : Dict.t ndarray) (m n : nat) :
  datas = (key, first) :: more ->
  arange_length (nrows first) (fst (pixel_size o)) = Ok m ->
  arange_length (ncols first) (snd (pixel_size o)) = Ok n ->
  (m, n) <> (nrows first, ncols first) ->
  assign_colormap (color_map o) datas = Ok cm ->
  exists s',
    map_series datas o s = (Raise TypeError, s') /\ saved s' = saved s.
Proof.
  intros Hd Hx Hy Hdiff Hcm.
  destruct (map_series_run datas o s) as [s' [Hrun [_ [Hs _]]]].
  destruct (prepare_built datas o key first more cm m n Hd Hx Hy Hcm)
    as [xy [Hp Hmesh]].
  assert (Hbad : image_with_limits (colormaps s) xy (rotate_m90 first) cm
                   (or_empty (limits o)) key [] = Raise TypeError).
  { unfold image_with_limits.
    destruct (assign_colormap_covers _ _ _ key Hcm) as [c0 ->].
    { rewrite Hd. now left. }
    cbn [rbind].
    assert (Hq : forall vmin vmax,
               quadmesh_for (colormaps s) xy (rotate_m90 first) c0 vmin vmax []
               = Raise TypeError).
    { intros vmin vmax. unfold quadmesh_for. rewrite Hmesh.
      cbn [shape rotate_m90 nrows ncols fst snd].
      destruct (Nat.eqb (ncols first) n) eqn:E1; [|reflexivity].
      destruct (Nat.eqb (nrows first) m) eqn:E2; [|reflexivity].
      apply Nat.eqb_eq in E1, E2. exfalso. apply Hdiff.
      now rewrite E1, E2. }
    destruct (str_in key (Dict.keys (or_empty (limits o)))) eqn:E.
    - apply str_in_true in E. destruct (dict_get_in _ _ E) as [lim ->].
      cbn [rbind]. apply Hq.
    - apply Hq. }
  unfold rendered in *. rewrite Hp in *. unfold Dict.items in *.
  rewrite Hd in *. cbn [individual_files] in *. rewrite Hbad in *.
  cbn [fst snd] in *. exists s'. split; [exact Hrun|].
  now rewrite Hs, app_nil_r.
Qed.

Lemma map_series_mesh_of_other_shape_witness :
  exists s',
    map_series [("Fe", three_by_three)] tenth_pixel idle
    = (Raise TypeError, s')
    /\ saved s' = saved idle.
Proof.
  apply (map_series_mesh_of_other_shape
           [("Fe", three_by_three)] tenth_pixel idle [("Fe", "Greys")]
           "Fe" three_by_three [] 4 4).
  - reflexivity.
  - vm_compute. reflexivity.
  - vm_compute. reflexivity.
  - discriminate.
  - reflexivity.
Defined.

(** Three points of step 0.1 end below 0.3, which in floating point is
    above three tenths: the range has four points.  Steps of 1, of a half
    and of a quarter give three. *)
Example arange_length_examples :
  arange_length 3 0.1 = Ok 4%nat
  /\ arange_length 3 1 = Ok 3%nat
  /\ arange_length 3 0.5 = Ok 3%nat
  /\ arange_length 3 0.25 = Ok 3%nat
  /\ arange_length 3 0 = Raise ZeroDivisionError
  /\ arange_length 3 infinity = Raise ValueError.
Proof. repeat split; vm_compute; reflexivity. Qed.

(** With the pixel size of the script, a half, the ranges have the size
    of the map for every size up to 2048; with a tenth they are one
    point longer for 3, 6, 12, 24 and 29 rows or columns, among the
    sizes up to 40. *)
Example range_fits_examples :
  forallb (range_fits 0.5) (seq 1 2048) = true
  /\ filter (fun n => negb (range_fits 0.1 n)) (seq 1 40)
     = [3; 6; 12; 24; 29]%nat.
Proof. split; vm_compute; reflexivity. Qed.

(** ** The script on a well-formed directory *)

Lemma script_call (fs : filesystem) (ss : session) (datas : Dict.t ndarray) :
  read_data fs plot_epma_map.file_location
            (Some plot_epma_map.exclude_elements) = Ok datas ->
  datas <> [] ->
  (forall a, In a (Dict.values datas) ->
             mesh_fits (pixel_size plot_epma_map.arguments) a) ->
  (forall a b, In a (Dict.values datas) -> In b (Dict.values datas) ->
               shape a = shape b) ->
  (forall k, In k (Dict.keys datas) -> has_char slash k = false) ->
  (forall c, In c ("Greys" :: "Greys_r" :: plot_epma_map.cm) ->
             In c (colormaps (plt ss))) ->
  exists r ss',
    run_script fs ss = (r, ss')
    /\ rc_params ss' = Dict.set (rc_params ss) "font.size" 18%Z
    /\ ((List.length datas <= 9)%nat ->
        r = Ok tt
        /\ names (saved (plt ss'))
           = names (saved (plt ss))
             ++ map (individual_name "outer_map" ".png") (Dict.keys datas)
             ++ ["outer_map_all.png"])
    /\ ((9 < List.length datas)%nat ->
        r = Raise IndexError
        /\ names (saved (plt ss'))
           = names (saved (plt ss))
             ++ map (individual_name "outer_map" ".png") (Dict.keys datas)).
Proof.
  intros Hread Hne Hfits Hshape Hslash Hreg.
  pose proof (read_data_nodup _ _ _ _ Hread) as Hnd.
  set (o := plot_epma_map.arguments).
  destruct (cycle_colormap_spec plot_epma_map.cm (Dict.keys datas)
              ltac:(discriminate) [] 0%nat Hnd) as [cm [Hcm _]].
  assert (Hassign : assign_colormap (color_map o) datas = Ok cm)
    by exact Hcm.
  assert (Hregistered : forall k c, In k (Dict.keys datas) ->
            Dict.get cm k = Ok c -> In c (colormaps (plt ss))).
  { intros k c _ Hc. apply Hreg.
    destruct (cycle_colormap_values _ _ _ _ _ _ Hcm
                ltac:(intros ? ? [=]) k c Hc) as [<-|Hin];
      [now left | right; now right]. }
  assert (Hnamed : forall k, In k (Dict.keys datas) ->
            saved_as_named (individual_name (label o) (extension o) k)).
  { intros k Hk.
    apply (savefig_keeps_name "outer_map" k "png" (Hslash k Hk));
      reflexivity. }
  assert (Hall : savefig_file (combined_name (label o) (extension o))
                 = Ok "outer_map_all.png") by (vm_compute; reflexivity).
  destruct (grid_call datas o (plt ss) cm (3, 3)%Z Hne Hfits
                      Hshape Hassign Hregistered Hnamed eq_refl)
    as [xy [files [s' [Hmesh [Hnames Hend]]]]].
  assert (Hdraw : forall k v kw, In (k, v) datas ->
            exists im, image_with_limits (colormaps (plt ss)) xy
                         (rotate_m90 v) cm (or_empty (limits o)) k kw
                       = Ok im).
  { intros k v kw Hin.
    assert (Hk : In k (Dict.keys datas))
      by (apply (in_map fst) in Hin; exact Hin).
    destruct (assign_colormap_covers _ _ _ k Hassign Hk) as [c0 Hc0].
    destruct (image_with_limits_ok (colormaps (plt ss)) xy v cm
                (or_empty (limits o)) k c0 kw (Hmesh k v Hin) Hc0
                (Hregistered k c0 Hk Hc0)) as [im [Him _]].
    eauto. }
  assert (Hpos : (0 < 3)%Z) by lia.
  assert (Hcp : In "CP" (Dict.keys datas) ->
                (2 <= 3)%Z /\ In "Greys_r" (colormaps (plt ss))).
  { intros _. split; [lia|]. apply Hreg. right. now left. }
  destruct (combined_render_fits datas o (plt ss) cm 3 3 Hnd Hpos Hpos Hcp
              xy Hmesh Hdraw) as [Hok Herr].
  unfold run_script. rewrite Hread. fold o.
  rewrite Hall in Hend.
  destruct (combined_render (colormaps (plt ss)) datas xy cm
              (or_empty (limits o)) (or_empty (kwargs_for_fig o))
              (or_empty (kwargs_for_grid o))
              (or_empty (kwargs_for_imshow o)) (3, 3)%Z) as [e|g] eqn:Eg.
  - destruct Hend as [Hrun Hs]. rewrite Hrun. cbn [fst snd].
    eexists _, _. split; [reflexivity|]. cbn [rc_params plt].
    split; [reflexivity|]. split.
    + intros Hlen. destruct Hok as [g' Hg']; [lia | discriminate].
    + intros Hlen. assert (E : Raise e = @Raise figure IndexError)
        by (apply Herr; lia).
      injection E as ->.
      split; [reflexivity|]. rewrite Hs. unfold names in *.
      now rewrite map_app, Hnames.
  - destruct Hend as [Hrun Hs]. rewrite Hrun. cbn [fst snd].
    eexists _, _. split; [reflexivity|]. cbn [rc_params plt].
    split; [reflexivity|]. split.
    + intros _. split; [reflexivity|]. rewrite Hs. unfold names in *.
      rewrite !map_app, Hnames. reflexivity.
    + intros Hlen. assert (E : Ok g = Raise IndexError)
        by (apply Herr; lia).
      discriminate.
Qed.

(** X23.  On a directory with at most nine elements, N, Cr and Mo
    apart, whose maps have one shape that the pixel size of a half gives
    to the mesh, whose labels have no slash, and with the colormaps of
    the script registered, the script sets the font size, writes
    [outer_map_element.png] for every element it read, in the order of
    the dataset, then [outer_map_all.png], and returns. *)
Theorem script_on_well_formed_directory
        (fs : filesystem) (ss : session) (datas : Dict.t ndarray) :
  read_data fs plot_epma_map.file_location
            (Some plot_epma_map.exclude_elements) = Ok datas ->
  datas <> [] ->
  (forall a, In a (Dict.values datas) ->
             mesh_fits (pixel_size plot_epma_map.arguments) a) ->
  (forall a b, In a (Dict.values datas) -> In b (Dict.values datas) ->
               shape a = shape b) ->
  (forall k, In k (Dict.keys datas) -> has_char slash k = false) ->
  (forall c, In c ("Greys" :: "Greys_r" :: plot_epma_map.cm) ->
             In c (colormaps (plt ss))) ->
  (List.length datas <= 9)%nat ->
  exists ss',
    run_script fs ss = (Ok tt, ss')
    /\ rc_params ss' = Dict.set (rc_params ss) "font.size" 18%Z
    /\ names (saved (plt ss'))
       = names (saved (plt ss))
         ++ map (individual_name "outer_map" ".png") (Dict.keys datas)
         ++ ["outer_map_all.png"].
Proof.
  intros Hread Hne Hfits Hshape Hslash Hreg Hlen.
  destruct (script_call fs ss datas Hread Hne Hfits Hshape Hslash Hreg)
    as [r [ss' [Hrun [Hrc [Hsmall _]]]]].
  destruct (Hsmall Hlen) as [-> Hnames].
  exists ss'. repeat split; assumption.
Qed.

Lemma script_on_well_formed_directory_witness :
  exists ss',
    run_script sample_directory stocked_session = (Ok tt, ss')
    /\ rc_params ss'
       = Dict.set (rc_params stocked_session) "font.size" 18%Z
    /\ names (saved (plt ss'))
       = names (saved (plt stocked_session))
         ++ map (individual_name "outer_map" ".png") (Dict.keys sample_maps)
         ++ ["outer_map_all.png"].
Proof.
  apply (script_on_well_formed_directory
           sample_directory stocked_session sample_maps).
  - vm_compute. reflexivity.
  - discriminate.
  - intros a [<-|[<-|[<-|[]]]]; split; vm_compute; reflexivity.
  - intros a b [<-|[<-|[<-|[]]]] [<-|[<-|[<-|[]]]]; reflexivity.
  - intros k [<-|[<-|[<-|[]]]]; reflexivity.
  - intros c Hc. exact Hc.
  - cbn. lia.
Defined.

(** On that directory the script writes three individual files and the
    combined file; Cr is left out, and in the combined figure CP is in
    the first cell. *)
Example sample_directory_example :
  map (fun e => (fst (fst e), placement (snd e)))
      (saved (plt (snd (run_script sample_directory stocked_session))))
  = [("outer_map_Fe.png",
      [(None, Some "Fe", Some "y ($\mu m$)", Some "x ($\mu m$)")]);
     ("outer_map_Ni.png",
      [(None, Some "Ni", Some "y ($\mu m$)", Some "x ($\mu m$)")]);
     ("outer_map_CP.png",
      [(None, Some "CP", Some "y ($\mu m$)", Some "x ($\mu m$)")]);
     ("outer_map_all.png",
      [(Some (0, 2)%Z, Some "Ni", None, None);
       (Some (0, 1)%Z, Some "Fe", None, None);
       (Some (0, 0)%Z, None, Some "y ($\mu$m)", None)])].
Proof. vm_compute. reflexivity. Qed.

(** X26.  With more than nine elements the grid of three by three cells
    of the script is too small: on such a directory, otherwise
    well-formed, the script writes the individual files and stops with
    [IndexError] before the combined file is written. *)
Theorem script_grid_too_small
        (fs : filesystem) (ss : session) (datas : Dict.t ndarray) :
  read_data fs plot_epma_map.file_location
            (Some plot_epma_map.exclude_elements) = Ok datas ->
  (forall a, In a (Dict.values datas) ->
             mesh_fits (pixel_size plot_epma_map.arguments) a) ->
  (forall a b, In a (Dict.values datas) -> In b (Dict.values datas) ->
               shape a = shape b) ->
  (forall k, In k (Dict.keys datas) -> has_char slash k = false) ->
  (forall c, In c ("Greys" :: "Greys_r" :: plot_epma_map.cm) ->
             In c (colormaps (plt ss))) ->
  (9 < List.length datas)%nat ->
  exists ss',
    run_script fs ss = (Raise IndexError, ss')
    /\ rc_params ss' = Dict.set (rc_params ss) "font.size" 18%Z
    /\ names (saved (plt ss'))
       = names (saved (plt ss))
         ++ map (individual_name "outer_map" ".png") (Dict.keys datas).
Proof.
  intros Hread Hfits Hshape Hslash Hreg Hlen.
  assert (Hne : datas <> []) by (intros ->; cbn in Hlen; lia).
  destruct (script_call fs ss datas Hread Hne Hfits Hshape Hslash Hreg)
    as [r [ss' [Hrun [Hrc [_ Hbig]]]]].
  destruct (Hbig Hlen) as [-> Hnames].
  exists ss'. repeat split; assumption.
Qed.

Lemma script_grid_too_small_witness :
  exists ss',
    run_script ten_elements stocked_session = (Raise IndexError, ss')
    /\ rc_params ss'
       = Dict.set (rc_params stocked_session) "font.size" 18%Z
    /\ names (saved (plt ss'))
       = names (saved (plt stocked_session))
         ++ map (individual_name "outer_map" ".png") (Dict.keys ten_maps).
Proof.
  apply (script_grid_too_small ten_elements stocked_session ten_maps).
  - vm_compute. reflexivity.
  - intros a Ha. cbn in Ha.
    repeat (destruct Ha as [<-|Ha]; [split; vm_compute; reflexivity|]).
    destruct Ha.
  - intros a b Ha Hb.
    assert (H2 : forall c, In c (Dict.values ten_maps) -> shape c = (2, 2)%nat).
    { intros c Hc. cbn in Hc.
      repeat (destruct Hc as [<-|Hc]; [reflexivity|]). destruct Hc. }
    now rewrite (H2 a Ha), (H2 b Hb).
  - intros k Hk. cbn in Hk.
    repeat (destruct Hk as [<-|Hk]; [reflexivity|]). destruct Hk.
  - intros c Hc. exact Hc.
  - cbn. lia.
Defined.
